(** * Verification of [build_free_corpus.py]

    A shallow embedding of the corpus builder (text normalisation, the
    retrying download, page extraction, snippet truncation and the
    row-by-row driver [main]) together with the properties the
    specification states about them.

    Python values are embedded as follows.
    - [str] is a list of Unicode code points ([N]); [len] is [length].
    - [bytes] is a list of [Byte.byte].
    - [int] is [Z]; a [float] that is only compared with zero is a [Q].
    - a [dict] with string keys is a [gmap str _], a [set] a [gset str].
    - an exception is a value of [exn]; fallible code returns [exn + A].
    - the file system, the metadata log, the snippet index, standard
      output and the sequence of network requests and sleeps form the
      record [State], threaded explicitly through [main]. *)

From Stdlib Require Import ZArith NArith List Bool Lia String Ascii QArith.
From stdpp Require Import base option list gmap.
Close Scope Q_scope.
Local Open Scope nat_scope.

(* ===================================================================== *)
(** * Python runtime primitives *)
(* ===================================================================== *)

Module Py.

(** A Unicode code point and a Python [str]. *)
Abbreviation char := N (only parsing).
Abbreviation str := (list N) (only parsing).
Abbreviation bytes := (list Byte.byte) (only parsing).

(** ASCII literals of the source, written as Rocq strings. *)
Fixpoint lit (s : string) : str :=
  match s with
  | EmptyString => []
  | String a t => N_of_ascii a :: lit t
  end.

Definition chr_eqb (a b : char) : bool := N.eqb a b.

Definition LF : char := 10%N.
Definition CR : char := 13%N.
Definition TAB : char := 9%N.
Definition SPACE : char := 32%N.

Definition in_range (lo hi c : char) : bool := (N.leb lo c) && (N.leb c hi).

Definition in_ranges (tbl : list (N * N)) (c : char) : bool :=
  existsb (fun r => in_range (fst r) (snd r) c) tbl.

(** [str.isspace] for one code point, which is also what [\s] matches in
    a [str] pattern: the white-space code points of the Unicode
    database. *)
Definition space_ranges : list (N * N) :=
  [ (9, 13); (28, 32); (133, 133); (160, 160); (5760, 5760); (8192, 8202);
    (8232, 8233); (8239, 8239); (8287, 8287); (12288, 12288) ]%N.

Definition isspace (c : char) : bool := in_ranges space_ranges c.

(** What [\w] matches in a [str] pattern: the alphanumeric code points
    ([str.isalnum]) and the underscore.  The table is the one of the
    Unicode database 14.0 that CPython 3.11 ships, as maximal ranges of
    code points. *)
Definition word_ranges : list (N * N) :=
 [
  (48, 57); (65, 90); (95, 95); (97, 122); (170, 170); (178, 179);
   (181, 181); (185, 186); (188, 190); (192, 214); (216, 246); (248, 705);
   (710, 721); (736, 740); (748, 748); (750, 750); (880, 884); (886, 887);
   (890, 893); (895, 895); (902, 902); (904, 906); (908, 908); (910, 929);
   (931, 1013); (1015, 1153); (1162, 1327); (1329, 1366); (1369, 1369);
   (1376, 1416); (1488, 1514); (1519, 1522); (1568, 1610); (1632, 1641);
   (1646, 1647); (1649, 1747); (1749, 1749); (1765, 1766); (1774, 1788);
   (1791, 1791); (1808, 1808); (1810, 1839); (1869, 1957); (1969, 1969);
   (1984, 2026); (2036, 2037); (2042, 2042); (2048, 2069); (2074, 2074);
   (2084, 2084); (2088, 2088); (2112, 2136); (2144, 2154); (2160, 2183);
   (2185, 2190); (2208, 2249); (2308, 2361); (2365, 2365); (2384, 2384);
   (2392, 2401); (2406, 2415); (2417, 2432); (2437, 2444); (2447, 2448);
   (2451, 2472); (2474, 2480); (2482, 2482); (2486, 2489); (2493, 2493);
   (2510, 2510); (2524, 2525); (2527, 2529); (2534, 2545); (2548, 2553);
   (2556, 2556); (2565, 2570); (2575, 2576); (2579, 2600); (2602, 2608);
   (2610, 2611); (2613, 2614); (2616, 2617); (2649, 2652); (2654, 2654);
   (2662, 2671); (2674, 2676); (2693, 2701); (2703, 2705); (2707, 2728);
   (2730, 2736); (2738, 2739); (2741, 2745); (2749, 2749); (2768, 2768);
   (2784, 2785); (2790, 2799); (2809, 2809); (2821, 2828); (2831, 2832);
   (2835, 2856); (2858, 2864); (2866, 2867); (2869, 2873); (2877, 2877);
   (2908, 2909); (2911, 2913); (2918, 2927); (2929, 2935); (2947, 2947);
   (2949, 2954); (2958, 2960); (2962, 2965); (2969, 2970); (2972, 2972);
   (2974, 2975); (2979, 2980); (2984, 2986); (2990, 3001); (3024, 3024);
   (3046, 3058); (3077, 3084); (3086, 3088); (3090, 3112); (3114, 3129);
   (3133, 3133); (3160, 3162); (3165, 3165); (3168, 3169); (3174, 3183);
   (3192, 3198); (3200, 3200); (3205, 3212); (3214, 3216); (3218, 3240);
   (3242, 3251); (3253, 3257); (3261, 3261); (3293, 3294); (3296, 3297);
   (3302, 3311); (3313, 3314); (3332, 3340); (3342, 3344); (3346, 3386);
   (3389, 3389); (3406, 3406); (3412, 3414); (3416, 3425); (3430, 3448);
   (3450, 3455); (3461, 3478); (3482, 3505); (3507, 3515); (3517, 3517);
   (3520, 3526); (3558, 3567); (3585, 3632); (3634, 3635); (3648, 3654);
   (3664, 3673); (3713, 3714); (3716, 3716); (3718, 3722); (3724, 3747);
   (3749, 3749); (3751, 3760); (3762, 3763); (3773, 3773); (3776, 3780);
   (3782, 3782); (3792, 3801); (3804, 3807); (3840, 3840); (3872, 3891);
   (3904, 3911); (3913, 3948); (3976, 3980); (4096, 4138); (4159, 4169);
   (4176, 4181); (4186, 4189); (4193, 4193); (4197, 4198); (4206, 4208);
   (4213, 4225); (4238, 4238); (4240, 4249); (4256, 4293); (4295, 4295);
   (4301, 4301); (4304, 4346); (4348, 4680); (4682, 4685); (4688, 4694);
   (4696, 4696); (4698, 4701); (4704, 4744); (4746, 4749); (4752, 4784);
   (4786, 4789); (4792, 4798); (4800, 4800); (4802, 4805); (4808, 4822);
   (4824, 4880); (4882, 4885); (4888, 4954); (4969, 4988); (4992, 5007);
   (5024, 5109); (5112, 5117); (5121, 5740); (5743, 5759); (5761, 5786);
   (5792, 5866); (5870, 5880); (5888, 5905); (5919, 5937); (5952, 5969);
   (5984, 5996); (5998, 6000); (6016, 6067); (6103, 6103); (6108, 6108);
   (6112, 6121); (6128, 6137); (6160, 6169); (6176, 6264); (6272, 6276);
   (6279, 6312); (6314, 6314); (6320, 6389); (6400, 6430); (6470, 6509);
   (6512, 6516); (6528, 6571); (6576, 6601); (6608, 6618); (6656, 6678);
   (6688, 6740); (6784, 6793); (6800, 6809); (6823, 6823); (6917, 6963);
   (6981, 6988); (6992, 7001); (7043, 7072); (7086, 7141); (7168, 7203);
   (7232, 7241); (7245, 7293); (7296, 7304); (7312, 7354); (7357, 7359);
   (7401, 7404); (7406, 7411); (7413, 7414); (7418, 7418); (7424, 7615);
   (7680, 7957); (7960, 7965); (7968, 8005); (8008, 8013); (8016, 8023);
   (8025, 8025); (8027, 8027); (8029, 8029); (8031, 8061); (8064, 8116);
   (8118, 8124); (8126, 8126); (8130, 8132); (8134, 8140); (8144, 8147);
   (8150, 8155); (8160, 8172); (8178, 8180); (8182, 8188); (8304, 8305);
   (8308, 8313); (8319, 8329); (8336, 8348); (8450, 8450); (8455, 8455);
   (8458, 8467); (8469, 8469); (8473, 8477); (8484, 8484); (8486, 8486);
   (8488, 8488); (8490, 8493); (8495, 8505); (8508, 8511); (8517, 8521);
   (8526, 8526); (8528, 8585); (9312, 9371); (9450, 9471); (10102, 10131);
   (11264, 11492); (11499, 11502); (11506, 11507); (11517, 11517);
   (11520, 11557); (11559, 11559); (11565, 11565); (11568, 11623);
   (11631, 11631); (11648, 11670); (11680, 11686); (11688, 11694);
   (11696, 11702); (11704, 11710); (11712, 11718); (11720, 11726);
   (11728, 11734); (11736, 11742); (11823, 11823); (12293, 12295);
   (12321, 12329); (12337, 12341); (12344, 12348); (12353, 12438);
   (12445, 12447); (12449, 12538); (12540, 12543); (12549, 12591);
   (12593, 12686); (12690, 12693); (12704, 12735); (12784, 12799);
   (12832, 12841); (12872, 12879); (12881, 12895); (12928, 12937);
   (12977, 12991); (13312, 19903); (19968, 42124); (42192, 42237);
   (42240, 42508); (42512, 42539); (42560, 42606); (42623, 42653);
   (42656, 42735); (42775, 42783); (42786, 42888); (42891, 42954);
   (42960, 42961); (42963, 42963); (42965, 42969); (42994, 43009);
   (43011, 43013); (43015, 43018); (43020, 43042); (43056, 43061);
   (43072, 43123); (43138, 43187); (43216, 43225); (43250, 43255);
   (43259, 43259); (43261, 43262); (43264, 43301); (43312, 43334);
   (43360, 43388); (43396, 43442); (43471, 43481); (43488, 43492);
   (43494, 43518); (43520, 43560); (43584, 43586); (43588, 43595);
   (43600, 43609); (43616, 43638); (43642, 43642); (43646, 43695);
   (43697, 43697); (43701, 43702); (43705, 43709); (43712, 43712);
   (43714, 43714); (43739, 43741); (43744, 43754); (43762, 43764);
   (43777, 43782); (43785, 43790); (43793, 43798); (43808, 43814);
   (43816, 43822); (43824, 43866); (43868, 43881); (43888, 44002);
   (44016, 44025); (44032, 55203); (55216, 55238); (55243, 55291);
   (63744, 64109); (64112, 64217); (64256, 64262); (64275, 64279);
   (64285, 64285); (64287, 64296); (64298, 64310); (64312, 64316);
   (64318, 64318); (64320, 64321); (64323, 64324); (64326, 64433);
   (64467, 64829); (64848, 64911); (64914, 64967); (65008, 65019);
   (65136, 65140); (65142, 65276); (65296, 65305); (65313, 65338);
   (65345, 65370); (65382, 65470); (65474, 65479); (65482, 65487);
   (65490, 65495); (65498, 65500); (65536, 65547); (65549, 65574);
   (65576, 65594); (65596, 65597); (65599, 65613); (65616, 65629);
   (65664, 65786); (65799, 65843); (65856, 65912); (65930, 65931);
   (66176, 66204); (66208, 66256); (66273, 66299); (66304, 66339);
   (66349, 66378); (66384, 66421); (66432, 66461); (66464, 66499);
   (66504, 66511); (66513, 66517); (66560, 66717); (66720, 66729);
   (66736, 66771); (66776, 66811); (66816, 66855); (66864, 66915);
   (66928, 66938); (66940, 66954); (66956, 66962); (66964, 66965);
   (66967, 66977); (66979, 66993); (66995, 67001); (67003, 67004);
   (67072, 67382); (67392, 67413); (67424, 67431); (67456, 67461);
   (67463, 67504); (67506, 67514); (67584, 67589); (67592, 67592);
   (67594, 67637); (67639, 67640); (67644, 67644); (67647, 67669);
   (67672, 67702); (67705, 67742); (67751, 67759); (67808, 67826);
   (67828, 67829); (67835, 67867); (67872, 67897); (67968, 68023);
   (68028, 68047); (68050, 68096); (68112, 68115); (68117, 68119);
   (68121, 68149); (68160, 68168); (68192, 68222); (68224, 68255);
   (68288, 68295); (68297, 68324); (68331, 68335); (68352, 68405);
   (68416, 68437); (68440, 68466); (68472, 68497); (68521, 68527);
   (68608, 68680); (68736, 68786); (68800, 68850); (68858, 68899);
   (68912, 68921); (69216, 69246); (69248, 69289); (69296, 69297);
   (69376, 69415); (69424, 69445); (69457, 69460); (69488, 69505);
   (69552, 69579); (69600, 69622); (69635, 69687); (69714, 69743);
   (69745, 69746); (69749, 69749); (69763, 69807); (69840, 69864);
   (69872, 69881); (69891, 69926); (69942, 69951); (69956, 69956);
   (69959, 69959); (69968, 70002); (70006, 70006); (70019, 70066);
   (70081, 70084); (70096, 70106); (70108, 70108); (70113, 70132);
   (70144, 70161); (70163, 70187); (70272, 70278); (70280, 70280);
   (70282, 70285); (70287, 70301); (70303, 70312); (70320, 70366);
   (70384, 70393); (70405, 70412); (70415, 70416); (70419, 70440);
   (70442, 70448); (70450, 70451); (70453, 70457); (70461, 70461);
   (70480, 70480); (70493, 70497); (70656, 70708); (70727, 70730);
   (70736, 70745); (70751, 70753); (70784, 70831); (70852, 70853);
   (70855, 70855); (70864, 70873); (71040, 71086); (71128, 71131);
   (71168, 71215); (71236, 71236); (71248, 71257); (71296, 71338);
   (71352, 71352); (71360, 71369); (71424, 71450); (71472, 71483);
   (71488, 71494); (71680, 71723); (71840, 71922); (71935, 71942);
   (71945, 71945); (71948, 71955); (71957, 71958); (71960, 71983);
   (71999, 71999); (72001, 72001); (72016, 72025); (72096, 72103);
   (72106, 72144); (72161, 72161); (72163, 72163); (72192, 72192);
   (72203, 72242); (72250, 72250); (72272, 72272); (72284, 72329);
   (72349, 72349); (72368, 72440); (72704, 72712); (72714, 72750);
   (72768, 72768); (72784, 72812); (72818, 72847); (72960, 72966);
   (72968, 72969); (72971, 73008); (73030, 73030); (73040, 73049);
   (73056, 73061); (73063, 73064); (73066, 73097); (73112, 73112);
   (73120, 73129); (73440, 73458); (73648, 73648); (73664, 73684);
   (73728, 74649); (74752, 74862); (74880, 75075); (77712, 77808);
   (77824, 78894); (82944, 83526); (92160, 92728); (92736, 92766);
   (92768, 92777); (92784, 92862); (92864, 92873); (92880, 92909);
   (92928, 92975); (92992, 92995); (93008, 93017); (93019, 93025);
   (93027, 93047); (93053, 93071); (93760, 93846); (93952, 94026);
   (94032, 94032); (94099, 94111); (94176, 94177); (94179, 94179);
   (94208, 100343); (100352, 101589); (101632, 101640); (110576, 110579);
   (110581, 110587); (110589, 110590); (110592, 110882); (110928, 110930);
   (110948, 110951); (110960, 111355); (113664, 113770); (113776, 113788);
   (113792, 113800); (113808, 113817); (119520, 119539); (119648, 119672);
   (119808, 119892); (119894, 119964); (119966, 119967); (119970, 119970);
   (119973, 119974); (119977, 119980); (119982, 119993); (119995, 119995);
   (119997, 120003); (120005, 120069); (120071, 120074); (120077, 120084);
   (120086, 120092); (120094, 120121); (120123, 120126); (120128, 120132);
   (120134, 120134); (120138, 120144); (120146, 120485); (120488, 120512);
   (120514, 120538); (120540, 120570); (120572, 120596); (120598, 120628);
   (120630, 120654); (120656, 120686); (120688, 120712); (120714, 120744);
   (120746, 120770); (120772, 120779); (120782, 120831); (122624, 122654);
   (123136, 123180); (123191, 123197); (123200, 123209); (123214, 123214);
   (123536, 123565); (123584, 123627); (123632, 123641); (124896, 124902);
   (124904, 124907); (124909, 124910); (124912, 124926); (124928, 125124);
   (125127, 125135); (125184, 125251); (125259, 125259); (125264, 125273);
   (126065, 126123); (126125, 126127); (126129, 126132); (126209, 126253);
   (126255, 126269); (126464, 126467); (126469, 126495); (126497, 126498);
   (126500, 126500); (126503, 126503); (126505, 126514); (126516, 126519);
   (126521, 126521); (126523, 126523); (126530, 126530); (126535, 126535);
   (126537, 126537); (126539, 126539); (126541, 126543); (126545, 126546);
   (126548, 126548); (126551, 126551); (126553, 126553); (126555, 126555);
   (126557, 126557); (126559, 126559); (126561, 126562); (126564, 126564);
   (126567, 126570); (126572, 126578); (126580, 126583); (126585, 126588);
   (126590, 126590); (126592, 126601); (126603, 126619); (126625, 126627);
   (126629, 126633); (126635, 126651); (127232, 127244); (130032, 130041);
   (131072, 173791); (173824, 177976); (177984, 178205); (178208, 183969);
   (183984, 191456); (194560, 195101); (196608, 201546)
 ]%N.

Definition isword (c : char) : bool := in_ranges word_ranges c.

(** [s.replace(old, new)] for a one-character [old], the only form the
    source uses. *)
Definition replace (old : char) (new : str) (s : str) : str :=
  flat_map (fun c => if chr_eqb c old then new else [c]) s.

(** [s.strip()]: white space removed at both ends. *)
Fixpoint lstrip (s : str) : str :=
  match s with
  | c :: t => if isspace c then lstrip t else s
  | [] => []
  end.

Definition rstrip (s : str) : str := rev (lstrip (rev s)).

Definition strip (s : str) : str := rstrip (lstrip s).

(** [s.lower()].  Only the ASCII letters are mapped.  The one use in the
    source is [url.lower().startswith("nan")]; the only code points whose
    lower-case form begins with [n] or [a] are [N], [n], [A] and [a], and
    each maps to a single character, so that test gives the same answer
    under the full Unicode case mapping. *)
Definition lower_char (c : char) : char :=
  if in_range 65%N 90%N c then (c + 32)%N else c.

Definition lower (s : str) : str := map lower_char s.

Fixpoint startswith (s prefix : str) {struct prefix} : bool :=
  match prefix, s with
  | [], _ => true
  | p :: pt, c :: t => chr_eqb c p && startswith t pt
  | _ :: _, [] => false
  end.

(** [s[:n]] for a Python integer [n]: a negative [n] counts from the
    end. *)
Definition slice_to {A} (n : Z) (l : list A) : list A :=
  if (n <? 0)%Z
  then firstn (Z.to_nat (Z.of_nat (length l) + n)) l
  else firstn (Z.to_nat n) l.

(** [sep.join(parts)]. *)
Fixpoint join (sep : str) (parts : list str) : str :=
  match parts with
  | [] => []
  | [p] => p
  | p :: rest => p ++ sep ++ join sep rest
  end.

(** Number of bytes of the UTF-8 encoding of a code point. *)
Definition utf8_width (c : char) : nat :=
  if (c <? 128)%N then 1
  else if (c <? 2048)%N then 2
  else if (c <? 65536)%N then 3
  else 4.

Definition is_surrogate (c : char) : bool := in_range 55296%N 57343%N c.

End Py.

Import Py.

(* ===================================================================== *)
(** * The part of the [re] module the source uses *)
(* ===================================================================== *)

Module Re.

(** Syntax of the patterns.  [Rep lo r] is the greedy [r{lo,}] (so [r*]
    is [Rep 0 r]); [Group r] is the capturing group of the pattern (no
    pattern of the source has more than one); [Behind r] and [Ahead r]
    are [(?<=r)] and [(?=r)]; [WordB] is [\b]. *)
Inductive regex : Type :=
| Lit (c : char)
| Class (p : char -> bool)
| Seq (r1 r2 : regex)
| Alt (r1 r2 : regex)
| Rep (lo : nat) (r : regex)
| Group (r : regex)
| WordB
| Behind (r : regex)
| Ahead (r : regex).

(** A position in the subject: the characters before it (nearest
    first), the characters from it on, and the text of the group. *)
Record pos : Type := Pos {
  before : str;
  after : str;
  g1 : option str
}.

Definition advance (c : char) (t : str) (p : pos) : pos :=
  Pos (c :: before p) t (g1 p).

(** The text between two positions of the same subject. *)
Definition consumed (p q : pos) : str :=
  firstn (length (after p) - length (after q)) (after p).

Definition set_group (p q : pos) : pos :=
  Pos (before q) (after q) (Some (consumed p q)).

(** [\b]: exactly one of the two neighbours is a word character. *)
Definition at_boundary (p : pos) : bool :=
  xorb (match before p with c :: _ => isword c | [] => false end)
       (match after p with c :: _ => isword c | [] => false end).

(** Width of a pattern when it is fixed, as a look-behind needs it. *)
Fixpoint width (r : regex) : option nat :=
  match r with
  | Lit _ | Class _ => Some 1
  | Seq a b =>
      match width a, width b with
      | Some x, Some y => Some (x + y)
      | _, _ => None
      end
  | Alt a b =>
      match width a, width b with
      | Some x, Some y => if Nat.eqb x y then Some x else None
      | _, _ => None
      end
  | Rep _ _ => None
  | Group a => width a
  | WordB | Behind _ | Ahead _ => Some 0
  end.

(** Step [n] characters back. *)
Fixpoint rewind (n : nat) (p : pos) : option pos :=
  match n with
  | O => Some p
  | S n' =>
      match before p with
      | c :: b => rewind n' (Pos b (c :: after p) (g1 p))
      | [] => None
      end
  end.

(** Greedy repetition of [body], at least [lo] times: one more round is
    tried first, and the rest of the match, [k], only when that fails.
    [n] bounds the number of rounds; a round consumes at least one
    character in every pattern of the source, so [S (length (after p))]
    rounds are never exhausted. *)
Fixpoint rep_loop (body : pos -> (pos -> option pos) -> option pos)
    (k : pos -> option pos) (n lo : nat) (p : pos) {struct n} : option pos :=
  match n with
  | O => if Nat.eqb lo 0 then k p else None
  | S n' =>
      match body p (fun q => rep_loop body k n' (pred lo) q) with
      | Some q => Some q
      | None => if Nat.eqb lo 0 then k p else None
      end
  end.

(** The backtracking matcher, in continuation-passing style: [run r p k]
    tries the ways [r] can match at [p] in the order of the [re] engine
    (left alternative first, as many repetitions as possible first) and
    gives the first for which the rest of the match, [k], succeeds. *)
Fixpoint run (r : regex) (p : pos) (k : pos -> option pos) {struct r}
  : option pos :=
  match r with
  | Lit c =>
      match after p with
      | x :: t => if chr_eqb x c then k (advance x t p) else None
      | [] => None
      end
  | Class f =>
      match after p with
      | x :: t => if f x then k (advance x t p) else None
      | [] => None
      end
  | Seq a b => run a p (fun q => run b q k)
  | Alt a b =>
      match run a p k with
      | Some q => Some q
      | None => run b p k
      end
  | Rep lo a => rep_loop (run a) k (S (length (after p))) lo p
  | Group a => run a p (fun q => k (set_group p q))
  | WordB => if at_boundary p then k p else None
  | Behind a =>
      match width a with
      | Some w =>
          match rewind w p with
          | Some p0 =>
              match run a p0 Some with
              | Some _ => k p
              | None => None
              end
          | None => None
          end
      | None => None
      end
  | Ahead a =>
      match run a p Some with
      | Some _ => k p
      | None => None
      end
  end.

(** A match of the whole pattern starting at [p]. *)
Definition match_at (r : regex) (p : pos) : option pos :=
  run r (Pos (before p) (after p) None) Some.

(** [re.sub(r, repl, s)], scanning from [p].  [repl] receives group 0 and
    group 1 of each match.  [skip] counts the characters of the subject
    still covered by the last match.  Every pattern of the source
    consumes at least one character, so the rule of [re.sub] for empty
    matches is left out: an empty match is treated as none. *)
Fixpoint sub_from (r : regex) (repl : str -> option str -> str)
    (bef : str) (s : str) (skip : nat) {struct s} : str :=
  match s with
  | [] => []
  | c :: t =>
      match skip with
      | S n => sub_from r repl (c :: bef) t n
      | O =>
          match match_at r (Pos bef s None) with
          | Some q =>
              match length s - length (after q) with
              | O => c :: sub_from r repl (c :: bef) t 0
              | S n =>
                  repl (consumed (Pos bef s None) q) (g1 q)
                    ++ sub_from r repl (c :: bef) t n
              end
          | None => c :: sub_from r repl (c :: bef) t 0
          end
      end
  end.

Definition sub (r : regex) (repl : str -> option str -> str) (s : str) : str :=
  sub_from r repl [] s 0.

(** The replacement template [r'\1']. *)
Definition template_g1 (_ : str) (g : option str) : str :=
  match g with Some x => x | None => [] end.

(** A constant replacement string. *)
Definition const_repl (x : str) (_ : str) (_ : option str) : str := x.

End Re.

(* ===================================================================== *)
(** * The utilities of the program *)
(* ===================================================================== *)

(** The character class [[A-Za-zÁÉÍÓÚÜÑáéíóúüñ]]. *)
Definition letter_accents : list char :=
  [193; 201; 205; 211; 218; 220; 209; 225; 233; 237; 243; 250; 252; 241]%N.

Definition is_letter (c : char) : bool :=
  in_range 65%N 90%N c || in_range 97%N 122%N c
  || existsb (chr_eqb c) letter_accents.

Definition is_blank (c : char) : bool := chr_eqb c SPACE || chr_eqb c TAB.

Definition HYPHEN : char := 45%N.
Definition LT : char := 60%N.
Definition GT : char := 62%N.

(** [r'-\s*\n\s*'] *)
Definition re_hyphen_break : Re.regex :=
  Re.Seq (Re.Lit HYPHEN)
    (Re.Seq (Re.Rep 0 (Re.Class isspace))
       (Re.Seq (Re.Lit LF) (Re.Rep 0 (Re.Class isspace)))).

(** [r'([A-Za-zÁÉÍÓÚÜÑáéíóúüñ]{2,})>'] *)
Definition re_stray_gt : Re.regex :=
  Re.Seq (Re.Group (Re.Rep 2 (Re.Class is_letter))) (Re.Lit GT).

(** [r'\n{2,}'] *)
Definition re_newlines : Re.regex := Re.Rep 2 (Re.Lit LF).

(** [r'(?:(?<=\b)|(?<=\W))((?:[L]\s){2,}[L])(?=\b|\W)'] with [L] the
    letter class. *)
Definition re_spaced_letters : Re.regex :=
  Re.Seq
    (Re.Alt (Re.Behind Re.WordB)
            (Re.Behind (Re.Class (fun c => negb (isword c)))))
    (Re.Seq
       (Re.Group
          (Re.Seq
             (Re.Rep 2 (Re.Seq (Re.Class is_letter) (Re.Class isspace)))
             (Re.Class is_letter)))
       (Re.Ahead (Re.Alt Re.WordB (Re.Class (fun c => negb (isword c)))))).

(** [r'[ \t]{2,}'] *)
Definition re_blanks : Re.regex := Re.Rep 2 (Re.Class is_blank).

(** The local function [_join_letters]. *)
Definition _join_letters (g0 : str) (_ : option str) : str :=
  replace SPACE [] g0.

(** The six [replace] calls on soft hyphen, zero-width space, non-joiner
    and joiner, byte-order mark and carriage return. *)
Definition strip_invisible (s : str) : str :=
  replace CR []
    (replace 65279%N []
       (replace 8205%N []
          (replace 8204%N []
             (replace 8203%N []
                (replace 173%N [] s))))).

(** [normalize_text(s)]; [if not s: return s] is the case of the empty
    string. *)
Definition normalize_text (s : str) : str :=
  match s with
  | [] => s
  | _ =>
      let s := strip_invisible s in
      let s := Re.sub re_hyphen_break (Re.const_repl []) s in
      let s := Re.sub re_stray_gt Re.template_g1 s in
      let s := replace GT [] (replace LT [] s) in
      let s := Re.sub re_newlines (Re.const_repl [LF]) s in
      let s := Re.sub re_spaced_letters _join_letters s in
      let s := Re.sub re_blanks (Re.const_repl [SPACE]) s in
      s
  end.

(** Exceptions, each with the text [str(e)] gives. *)
Inductive exn : Type :=
| RequestException (msg : str)
| RuntimeError (msg : str)
| ValueError (msg : str)
| OSError (msg : str)
| PdfError (msg : str).

(** [str(e)] *)
Definition exn_str (e : exn) : str :=
  match e with
  | RequestException m | RuntimeError m | ValueError m | OSError m
  | PdfError m => m
  end.

(** The marker [" …"]: a space and U+2026. *)
Definition ELLIPSIS : str := [32; 8230]%N.

(** [truncate(s, n)] *)
Definition truncate (s : str) (n : Z) : str :=
  if (Z.of_nat (length s) <=? n)%Z then s else slice_to n s ++ ELLIPSIS.

(** The pages [range(len(doc))] or [range(min(max_pages, len(doc)))]
    selects.  [max_pages] is an [int] here ([None] does not reach the
    function from [main]). *)
Definition page_range (max_pages : Z) (len_doc : nat) : list nat :=
  if (max_pages =? 0)%Z then seq 0 len_doc
  else seq 0 (Z.to_nat (Z.min max_pages (Z.of_nat len_doc))).

Fixpoint collect_pages (pages : list (exn + str)) (idx : list nat)
  : exn + list str :=
  match idx with
  | [] => inr []
  | i :: rest =>
      match pages !! i with
      | Some (inr t) =>
          match collect_pages pages rest with
          | inr ts => inr (t :: ts)
          | inl e => inl e
          end
      | Some (inl e) => inl e
      | None => inl (ValueError (lit "page not in document"))
      end
  end.

(* ===================================================================== *)
(** * The program state and its external collaborators *)
(* ===================================================================== *)

(** A cell of the spreadsheet: a string, the missing value (a float NaN),
    or any other value, kept with its [str()]. *)
Inductive cell : Type :=
| CStr (s : str)
| CNaN
| COther (text : str).

(** [str(c)] *)
Definition py_str (c : cell) : str :=
  match c with
  | CStr s => s
  | CNaN => lit "nan"
  | COther t => t
  end.

(** A column label: a string, or any other value (a number or a date in
    the header row), kept with its [repr()]. *)
Inductive label : Type :=
| LStr (s : str)
| LOther (repr : str).

(** The data frame [pd.read_excel] returns; [labels] is
    [list(df.columns)]. *)
Record DataFrame : Type := {
  labels : list label;
  cells : list (list cell)
}.

Definition label_str (l : label) : option str :=
  match l with
  | LStr s => Some s
  | LOther _ => None
  end.

(** The labels that are strings.  For a string [name], the test
    [name in df.columns] is [name ∈ columns df]: a label that is not a
    string equals no string. *)
Definition columns (df : DataFrame) : list str := omap label_str (labels df).

(** A cell under its label, when the label is a string. *)
Definition named_cell (lc : label * cell) : option (str * cell) :=
  match label_str (fst lc) with
  | Some name => Some (name, snd lc)
  | None => None
  end.

(** [df.to_dict("records")]: one dictionary per row, from column label to
    cell; of two columns of one label the later one is kept, as a Python
    dictionary does.  The program looks a dictionary up with strings
    only, so the keys that are strings are kept. *)
Definition to_dict_records (df : DataFrame) : list (gmap str cell) :=
  map (fun row => list_to_map (rev (omap named_cell (zip (labels df) row))))
      (cells df).

(** A text file as the program observes it: [stat().st_size] and the
    decoded characters. *)
Record TextFile : Type := {
  f_size : nat;
  f_text : str
}.

(** A row of [index_texts.csv]. *)
Record MetaRecord : Type := {
  m_date : str;
  m_pdf_url : str;
  m_text_relpath : str;
  m_chars : nat;
  m_sha256_bytes : str
}.

(** An object of [docs/docs_index.json]. *)
Record DocEntry : Type := {
  d_id : str;
  d_date : str;
  d_pdf_url : str;
  d_text_relpath : str;
  d_snippet : str
}.

(** What [DOCS_JSON] holds: nothing, something [json.loads] rejects, or a
    list of entries. *)
Inductive docs_file : Type :=
| DocsAbsent
| DocsCorrupt
| DocsList (l : list DocEntry).

(** Observable effects outside the file system: a request for a URL, a
    sleep of so many seconds. *)
Inductive event : Type :=
| EvGet (url : str)
| EvSleep (secs : Q).

(** What the program reads and changes. *)
Record State : Type := {
  texts : gmap str TextFile;        (* the [.txt] files, by path *)
  meta_csv : option (list MetaRecord); (* [META_CSV]; [None]: no file *)
  docs_json : docs_file;            (* [DOCS_JSON] *)
  docs : list DocEntry;             (* the list [docs] of [main] *)
  stdout : list str;                (* lines printed *)
  trace : list event                (* requests and sleeps, oldest first *)
}.

(** The libraries and the environment the program calls.
    - [http_get n url]: what [requests.get(url, ...)] followed by
      [raise_for_status()] gives when [n] events have happened before:
      the body, or the exception raised.
    - [pdf_open b]: [fitz.open(stream=b)] and the text of each page.
    - [format_date]: the function of that name (it only calls pandas).
    - [txt_path_of d_fmt url]: the path [txt_path] that [main] builds from
      [d_fmt] and [url] with [date_parts], [safe_filename] and [pathlib].
    - [path_error d_fmt url]: the exception raised while that path is
      built, if any: an [OSError] of [base_dir.mkdir], the [ValueError]
      of [urlparse] in [safe_filename].
    - [relative_posix p]: [p.relative_to(REPO_ROOT).as_posix()].
    - [write_error p]: the exception [write_text] raises on [p], if any.
    - [write_leaves p text]: what a [write_text] that raises leaves at
      [p]: the file as it was ([None], the file could not be opened), or
      the file cut to nothing or to a part of the text.
    - [linesep]: [os.linesep], which text-mode writing puts for [\n]. *)
Record Env : Type := {
  http_get : nat -> str -> exn + bytes;
  sha256_hex : bytes -> str;
  md5_hex : str -> str;
  pdf_open : bytes -> exn + list (exn + str);
  format_date : cell -> str;
  txt_path_of : str -> str -> str;
  path_error : str -> str -> option exn;
  relative_posix : str -> exn + str;
  write_error : str -> option exn;
  write_leaves : str -> str -> option TextFile;
  linesep : str
}.

(** The parsed command line. *)
Record Args : Type := {
  col_date : str;
  col_url : str;
  limit : Z;
  sleep : Q;
  resume : bool;
  rewrite : bool;
  max_pages : Z;
  max_chars : Z
}.

(** ** Computations that change the state and may raise *)

Definition M (A : Type) : Type := State -> State * (exn + A).

Definition ret {A} (a : A) : M A := fun s => (s, inr a).

Definition raise {A} (e : exn) : M A := fun s => (s, inl e).

Definition bind {A B} (c : M A) (k : A -> M B) : M B :=
  fun s =>
    match c s with
    | (s', inr a) => k a s'
    | (s', inl e) => (s', inl e)
    end.

Definition lift {A} (r : exn + A) : M A :=
  match r with
  | inr a => ret a
  | inl e => raise e
  end.

Definition get : M State := fun s => (s, inr s).

Definition modify (f : State -> State) : M unit := fun s => (f s, inr tt).

Declare Scope prog_scope.
Delimit Scope prog_scope with prog.
Notation "x <- c ;; k" := (bind c (fun x => k))
  (at level 100, c at next level, right associativity) : prog_scope.
Notation "c ;;; k" := (bind c (fun _ => k))
  (at level 100, right associativity) : prog_scope.
Local Open Scope prog_scope.

Definition emit (e : event) : M unit :=
  modify (fun s =>
    {| texts := texts s; meta_csv := meta_csv s; docs_json := docs_json s;
       docs := docs s; stdout := stdout s; trace := trace s ++ [e] |}).

(** [time.sleep(secs)]; a negative argument raises [ValueError].  A
    length that the clock type of the C library cannot hold (beyond
    9223372036 seconds, about 292 years) is outside the model. *)
Definition time_sleep (secs : Q) : M unit :=
  if Qle_bool 0 secs then emit (EvSleep secs)
  else raise (ValueError (lit "sleep length must be non-negative")).

(** [requests.get(url, ...)] and [r.raise_for_status()], with the
    exception, if any, as a value. *)
Definition http_request (env : Env) (url : str) : M (exn + bytes) :=
  fun s =>
    let r := http_get env (length (trace s)) url in
    (fst (emit (EvGet url) s), inr r).

(** ** [fetch_pdf_bytes] *)

(** The message of the final [RuntimeError]. *)
Definition download_failed (url : str) (last : option exn) : str :=
  lit "Descarga fallida: " ++ url ++ lit " -> "
    ++ match last with Some e => exn_str e | None => lit "None" end.

(** The loop [for i in range(retries)], over the values of [i] still to
    come; [last] is the variable of that name. *)
Fixpoint fetch_attempts (env : Env) (url : str) (sleep : Z)
    (attempts : list nat) (last : option exn) : M bytes :=
  match attempts with
  | [] => raise (RuntimeError (download_failed url last))
  | i :: rest =>
      r <- http_request env url ;;
      match r with
      | inr content => ret content
      | inl e =>
          time_sleep (inject_Z (sleep * (Z.of_nat i + 1))) ;;;
          fetch_attempts env url sleep rest (Some e)
      end
  end.

(** [fetch_pdf_bytes(url, timeout, retries, sleep)]; the time-out is part
    of what [http_get] answers. *)
Definition fetch_pdf_bytes (env : Env) (url : str) (retries sleep : Z)
  : M bytes :=
  fetch_attempts env url sleep (seq 0 (Z.to_nat retries)) None.

(** ** [extract_text_from_pdf_bytes] *)

Definition extract_text_from_pdf_bytes (env : Env) (b : bytes)
    (max_pages : Z) : exn + str :=
  match pdf_open env b with
  | inl e => inl e
  | inr pages =>
      match collect_pages pages (page_range max_pages (length pages)) with
      | inl e => inl e
      | inr text => inr (join [LF] text)
      end
  end.

(** ** File operations *)

Definition set_texts (t : gmap str TextFile) (s : State) : State :=
  {| texts := t; meta_csv := meta_csv s; docs_json := docs_json s;
     docs := docs s; stdout := stdout s; trace := trace s |}.

Definition set_meta (m : option (list MetaRecord)) (s : State) : State :=
  {| texts := texts s; meta_csv := m; docs_json := docs_json s;
     docs := docs s; stdout := stdout s; trace := trace s |}.

Definition set_docs (d : list DocEntry) (s : State) : State :=
  {| texts := texts s; meta_csv := meta_csv s; docs_json := docs_json s;
     docs := d; stdout := stdout s; trace := trace s |}.

Definition set_docs_json (j : docs_file) (s : State) : State :=
  {| texts := texts s; meta_csv := meta_csv s; docs_json := j;
     docs := docs s; stdout := stdout s; trace := trace s |}.

(** [print(line)] *)
Definition print (line : str) (s : State) : State :=
  {| texts := texts s; meta_csv := meta_csv s; docs_json := docs_json s;
     docs := docs s; stdout := stdout s ++ [line]; trace := trace s |}.

(** What [write_text(text, encoding="utf-8", errors="ignore")] leaves in
    the file: lone surrogates cannot be encoded and are dropped, and each
    [\n] becomes [os.linesep]. *)
Definition encode_text (env : Env) (text : str) : TextFile :=
  let out :=
    replace LF (linesep env)
      (List.filter (fun c => negb (is_surrogate c)) text) in
  {| f_size := list_sum (map utf8_width out); f_text := out |}.

(** [path.write_text(text, ...)].  The file is opened for writing, which
    empties it, and then written; a write that raises leaves the file as
    it was when it could not be opened, and cut short otherwise. *)
Definition write_text (env : Env) (path : str) (text : str) : M unit :=
  match write_error env path with
  | Some e =>
      modify (fun s =>
        match write_leaves env path text with
        | Some f => set_texts (<[path := f]> (texts s)) s
        | None => s
        end) ;;;
      raise e
  | None => modify (fun s => set_texts (<[path := encode_text env text]> (texts s)) s)
  end.

(** [path.stat().st_size] *)
Definition stat_size (path : str) : M nat :=
  s <- get ;;
  match texts s !! path with
  | Some f => ret (f_size f)
  | None => raise (OSError (lit "No such file or directory"))
  end.

(** Reading in text mode turns [\r\n] and a lone [\r] into [\n]. *)
Fixpoint universal_newlines (s : str) : str :=
  match s with
  | [] => []
  | c :: t =>
      if chr_eqb c CR then
        LF :: match t with
              | d :: t' => if chr_eqb d LF then universal_newlines t'
                           else universal_newlines t
              | [] => []
              end
      else c :: universal_newlines t
  end.

(** [try: content = txt_path.read_text(...) except Exception: content = ""] *)
Definition read_text_or_empty (path : str) : M str :=
  s <- get ;;
  ret match texts s !! path with
      | Some f => universal_newlines (f_text f)
      | None => []
      end.

(** [meta_w.writerow(rec); meta_f.flush()] *)
Definition writerow (rec : MetaRecord) : M unit :=
  modify (fun s =>
    set_meta (Some (match meta_csv s with
                    | Some l => l ++ [rec]
                    | None => [rec]
                    end)) s).

(** [docs.append(entry)] *)
Definition append_doc (entry : DocEntry) : M unit :=
  modify (fun s => set_docs (docs s ++ [entry]) s).

(** ** The loop body of [main] *)

(** The test [args.rewrite or (not txt_path.exists() or
    txt_path.stat().st_size == 0)]. *)
Definition must_write (args : Args) (s : State) (txt_path : str) : bool :=
  rewrite args
  || match texts s !! txt_path with
     | None => true
     | Some f => Nat.eqb (f_size f) 0
     end.

(** The snippet stored for a text. *)
Definition snippet_of (content : str) (max_chars : Z) : str :=
  truncate (replace LF [SPACE] content) max_chars.

(** The body of the [try] statement. *)
Definition process_body (env : Env) (args : Args) (url d_fmt txt_path : str)
  : M unit :=
  pdf_bytes <- fetch_pdf_bytes env url 3 2 ;;
  let sha := sha256_hex env pdf_bytes in
  s <- get ;;
  (if must_write args s txt_path then
     text <- lift (extract_text_from_pdf_bytes env pdf_bytes (max_pages args)) ;;
     write_text env txt_path (normalize_text text)
   else ret tt) ;;;
  text_len <- stat_size txt_path ;;
  rel_text <- lift (relative_posix env txt_path) ;;
  writerow {| m_date := d_fmt; m_pdf_url := url; m_text_relpath := rel_text;
              m_chars := text_len; m_sha256_bytes := sha |} ;;;
  content <- read_text_or_empty txt_path ;;
  append_doc {| d_id := md5_hex env url; d_date := d_fmt; d_pdf_url := url;
                d_text_relpath := rel_text;
                d_snippet := snippet_of content (max_chars args) |} ;;;
  time_sleep (sleep args).

(** [str(r.get(args.col_url, "")).strip()] *)
Definition row_url (args : Args) (r : gmap str cell) : str :=
  strip (py_str (default (CStr []) (r !! col_url args))).

(** The test [not url or url.lower().startswith("nan")]. *)
Definition no_url (url : str) : bool :=
  match url with [] => true | _ => false end
  || startswith (lower url) (lit "nan").

(** The line [f"[ERROR] {url} -> {e}"]. *)
Definition error_line (url : str) (e : exn) : str :=
  lit "[ERROR] " ++ url ++ lit " -> " ++ exn_str e.

(** What the statements of one iteration raise before the [try] is
    entered (lines 163-176), if anything.  A row that is skipped does not
    reach them.  Nothing catches this exception. *)
Definition raised_before_try (env : Env) (args : Args) (done : gset str)
    (r : gmap str cell) : option exn :=
  let url := row_url args r in
  if no_url url then None
  else if resume args && bool_decide (url ∈ done) then None
  else
    let d_raw := default (CStr []) (r !! col_date args) in
    path_error env (format_date env d_raw) url.

(** One iteration of [for r in pbar] whose statements before the [try]
    raise nothing: the skip tests, the [try] and its [except] clause. *)
Definition process_row (env : Env) (args : Args) (done : gset str)
    (s : State) (r : gmap str cell) : State :=
  let url := row_url args r in
  if no_url url then s
  else if resume args && bool_decide (url ∈ done) then s
  else
    let d_raw := default (CStr []) (r !! col_date args) in
    let d_fmt := format_date env d_raw in
    let txt_path := txt_path_of env d_fmt url in
    match process_body env args url d_fmt txt_path s with
    | (s', inr _) => s'
    | (s', inl e) => print (error_line url e) s'
    end.

(** The loop [for r in pbar] over the rows still to come: the state it
    leaves and the exception that ended it, if one was raised outside the
    [try]. *)
Fixpoint process_rows (env : Env) (args : Args) (done : gset str)
    (rows : list (gmap str cell)) (s : State) : State * option exn :=
  match rows with
  | [] => (s, None)
  | r :: rest =>
      match raised_before_try env args done r with
      | Some e => (s, Some e)
      | None => process_rows env args done rest (process_row env args done s r)
      end
  end.

(** ** [main] *)

(** How [main] ends: normally, in some state; by [raise SystemExit] with
    a message; or by an exception that nothing catches, in the state
    reached. *)
Inductive outcome : Type :=
| Finished (s : State)
| SystemExit (msg : str)
| Uncaught (e : exn) (s : State).

(** The status the process ends with: [SystemExit] with a message is 1,
    and so is an exception that nothing catches. *)
Definition exit_status (o : outcome) : Z :=
  match o with
  | Finished _ => 0
  | SystemExit _ => 1
  | Uncaught _ _ => 1
  end.

(** *** [repr] of a string *)

(** The code points from U+007F on that are not printable
    ([str.isprintable] is false), in the Unicode database 14.0 that
    CPython 3.11 ships. *)
Definition nonprintable_ranges : list (N * N) :=
 [
  (127, 160); (173, 173); (888, 889); (896, 899); (907, 907); (909, 909);
  (930, 930); (1328, 1328); (1367, 1368); (1419, 1420); (1424, 1424);
  (1480, 1487); (1515, 1518); (1525, 1541); (1564, 1564); (1757, 1757);
  (1806, 1807); (1867, 1868); (1970, 1983); (2043, 2044); (2094, 2095);
  (2111, 2111); (2140, 2141); (2143, 2143); (2155, 2159); (2191, 2199);
  (2274, 2274); (2436, 2436); (2445, 2446); (2449, 2450); (2473, 2473);
  (2481, 2481); (2483, 2485); (2490, 2491); (2501, 2502); (2505, 2506);
  (2511, 2518); (2520, 2523); (2526, 2526); (2532, 2533); (2559, 2560);
  (2564, 2564); (2571, 2574); (2577, 2578); (2601, 2601); (2609, 2609);
  (2612, 2612); (2615, 2615); (2618, 2619); (2621, 2621); (2627, 2630);
  (2633, 2634); (2638, 2640); (2642, 2648); (2653, 2653); (2655, 2661);
  (2679, 2688); (2692, 2692); (2702, 2702); (2706, 2706); (2729, 2729);
  (2737, 2737); (2740, 2740); (2746, 2747); (2758, 2758); (2762, 2762);
  (2766, 2767); (2769, 2783); (2788, 2789); (2802, 2808); (2816, 2816);
  (2820, 2820); (2829, 2830); (2833, 2834); (2857, 2857); (2865, 2865);
  (2868, 2868); (2874, 2875); (2885, 2886); (2889, 2890); (2894, 2900);
  (2904, 2907); (2910, 2910); (2916, 2917); (2936, 2945); (2948, 2948);
  (2955, 2957); (2961, 2961); (2966, 2968); (2971, 2971); (2973, 2973);
  (2976, 2978); (2981, 2983); (2987, 2989); (3002, 3005); (3011, 3013);
  (3017, 3017); (3022, 3023); (3025, 3030); (3032, 3045); (3067, 3071);
  (3085, 3085); (3089, 3089); (3113, 3113); (3130, 3131); (3141, 3141);
  (3145, 3145); (3150, 3156); (3159, 3159); (3163, 3164); (3166, 3167);
  (3172, 3173); (3184, 3190); (3213, 3213); (3217, 3217); (3241, 3241);
  (3252, 3252); (3258, 3259); (3269, 3269); (3273, 3273); (3278, 3284);
  (3287, 3292); (3295, 3295); (3300, 3301); (3312, 3312); (3315, 3327);
  (3341, 3341); (3345, 3345); (3397, 3397); (3401, 3401); (3408, 3411);
  (3428, 3429); (3456, 3456); (3460, 3460); (3479, 3481); (3506, 3506);
  (3516, 3516); (3518, 3519); (3527, 3529); (3531, 3534); (3541, 3541);
  (3543, 3543); (3552, 3557); (3568, 3569); (3573, 3584); (3643, 3646);
  (3676, 3712); (3715, 3715); (3717, 3717); (3723, 3723); (3748, 3748);
  (3750, 3750); (3774, 3775); (3781, 3781); (3783, 3783); (3790, 3791);
  (3802, 3803); (3808, 3839); (3912, 3912); (3949, 3952); (3992, 3992);
  (4029, 4029); (4045, 4045); (4059, 4095); (4294, 4294); (4296, 4300);
  (4302, 4303); (4681, 4681); (4686, 4687); (4695, 4695); (4697, 4697);
  (4702, 4703); (4745, 4745); (4750, 4751); (4785, 4785); (4790, 4791);
  (4799, 4799); (4801, 4801); (4806, 4807); (4823, 4823); (4881, 4881);
  (4886, 4887); (4955, 4956); (4989, 4991); (5018, 5023); (5110, 5111);
  (5118, 5119); (5760, 5760); (5789, 5791); (5881, 5887); (5910, 5918);
  (5943, 5951); (5972, 5983); (5997, 5997); (6001, 6001); (6004, 6015);
  (6110, 6111); (6122, 6127); (6138, 6143); (6158, 6158); (6170, 6175);
  (6265, 6271); (6315, 6319); (6390, 6399); (6431, 6431); (6444, 6447);
  (6460, 6463); (6465, 6467); (6510, 6511); (6517, 6527); (6572, 6575);
  (6602, 6607); (6619, 6621); (6684, 6685); (6751, 6751); (6781, 6782);
  (6794, 6799); (6810, 6815); (6830, 6831); (6863, 6911); (6989, 6991);
  (7039, 7039); (7156, 7163); (7224, 7226); (7242, 7244); (7305, 7311);
  (7355, 7356); (7368, 7375); (7419, 7423); (7958, 7959); (7966, 7967);
  (8006, 8007); (8014, 8015); (8024, 8024); (8026, 8026); (8028, 8028);
  (8030, 8030); (8062, 8063); (8117, 8117); (8133, 8133); (8148, 8149);
  (8156, 8156); (8176, 8177); (8181, 8181); (8191, 8207); (8232, 8239);
  (8287, 8303); (8306, 8307); (8335, 8335); (8349, 8351); (8385, 8399);
  (8433, 8447); (8588, 8591); (9255, 9279); (9291, 9311); (11124, 11125);
  (11158, 11158); (11508, 11512); (11558, 11558); (11560, 11564);
  (11566, 11567); (11624, 11630); (11633, 11646); (11671, 11679);
  (11687, 11687); (11695, 11695); (11703, 11703); (11711, 11711);
  (11719, 11719); (11727, 11727); (11735, 11735); (11743, 11743);
  (11870, 11903); (11930, 11930); (12020, 12031); (12246, 12271);
  (12284, 12288); (12352, 12352); (12439, 12440); (12544, 12548);
  (12592, 12592); (12687, 12687); (12772, 12783); (12831, 12831);
  (42125, 42127); (42183, 42191); (42540, 42559); (42744, 42751);
  (42955, 42959); (42962, 42962); (42964, 42964); (42970, 42993);
  (43053, 43055); (43066, 43071); (43128, 43135); (43206, 43213);
  (43226, 43231); (43348, 43358); (43389, 43391); (43470, 43470);
  (43482, 43485); (43519, 43519); (43575, 43583); (43598, 43599);
  (43610, 43611); (43715, 43738); (43767, 43776); (43783, 43784);
  (43791, 43792); (43799, 43807); (43815, 43815); (43823, 43823);
  (43884, 43887); (44014, 44015); (44026, 44031); (55204, 55215);
  (55239, 55242); (55292, 63743); (64110, 64111); (64218, 64255);
  (64263, 64274); (64280, 64284); (64311, 64311); (64317, 64317);
  (64319, 64319); (64322, 64322); (64325, 64325); (64451, 64466);
  (64912, 64913); (64968, 64974); (64976, 65007); (65050, 65055);
  (65107, 65107); (65127, 65127); (65132, 65135); (65141, 65141);
  (65277, 65280); (65471, 65473); (65480, 65481); (65488, 65489);
  (65496, 65497); (65501, 65503); (65511, 65511); (65519, 65531);
  (65534, 65535); (65548, 65548); (65575, 65575); (65595, 65595);
  (65598, 65598); (65614, 65615); (65630, 65663); (65787, 65791);
  (65795, 65798); (65844, 65846); (65935, 65935); (65949, 65951);
  (65953, 65999); (66046, 66175); (66205, 66207); (66257, 66271);
  (66300, 66303); (66340, 66348); (66379, 66383); (66427, 66431);
  (66462, 66462); (66500, 66503); (66518, 66559); (66718, 66719);
  (66730, 66735); (66772, 66775); (66812, 66815); (66856, 66863);
  (66916, 66926); (66939, 66939); (66955, 66955); (66963, 66963);
  (66966, 66966); (66978, 66978); (66994, 66994); (67002, 67002);
  (67005, 67071); (67383, 67391); (67414, 67423); (67432, 67455);
  (67462, 67462); (67505, 67505); (67515, 67583); (67590, 67591);
  (67593, 67593); (67638, 67638); (67641, 67643); (67645, 67646);
  (67670, 67670); (67743, 67750); (67760, 67807); (67827, 67827);
  (67830, 67834); (67868, 67870); (67898, 67902); (67904, 67967);
  (68024, 68027); (68048, 68049); (68100, 68100); (68103, 68107);
  (68116, 68116); (68120, 68120); (68150, 68151); (68155, 68158);
  (68169, 68175); (68185, 68191); (68256, 68287); (68327, 68330);
  (68343, 68351); (68406, 68408); (68438, 68439); (68467, 68471);
  (68498, 68504); (68509, 68520); (68528, 68607); (68681, 68735);
  (68787, 68799); (68851, 68857); (68904, 68911); (68922, 69215);
  (69247, 69247); (69290, 69290); (69294, 69295); (69298, 69375);
  (69416, 69423); (69466, 69487); (69514, 69551); (69580, 69599);
  (69623, 69631); (69710, 69713); (69750, 69758); (69821, 69821);
  (69827, 69839); (69865, 69871); (69882, 69887); (69941, 69941);
  (69960, 69967); (70007, 70015); (70112, 70112); (70133, 70143);
  (70162, 70162); (70207, 70271); (70279, 70279); (70281, 70281);
  (70286, 70286); (70302, 70302); (70314, 70319); (70379, 70383);
  (70394, 70399); (70404, 70404); (70413, 70414); (70417, 70418);
  (70441, 70441); (70449, 70449); (70452, 70452); (70458, 70458);
  (70469, 70470); (70473, 70474); (70478, 70479); (70481, 70486);
  (70488, 70492); (70500, 70501); (70509, 70511); (70517, 70655);
  (70748, 70748); (70754, 70783); (70856, 70863); (70874, 71039);
  (71094, 71095); (71134, 71167); (71237, 71247); (71258, 71263);
  (71277, 71295); (71354, 71359); (71370, 71423); (71451, 71452);
  (71468, 71471); (71495, 71679); (71740, 71839); (71923, 71934);
  (71943, 71944); (71946, 71947); (71956, 71956); (71959, 71959);
  (71990, 71990); (71993, 71994); (72007, 72015); (72026, 72095);
  (72104, 72105); (72152, 72153); (72165, 72191); (72264, 72271);
  (72355, 72367); (72441, 72703); (72713, 72713); (72759, 72759);
  (72774, 72783); (72813, 72815); (72848, 72849); (72872, 72872);
  (72887, 72959); (72967, 72967); (72970, 72970); (73015, 73017);
  (73019, 73019); (73022, 73022); (73032, 73039); (73050, 73055);
  (73062, 73062); (73065, 73065); (73103, 73103); (73106, 73106);
  (73113, 73119); (73130, 73439); (73465, 73647); (73649, 73663);
  (73714, 73726); (74650, 74751); (74863, 74863); (74869, 74879);
  (75076, 77711); (77811, 77823); (78895, 82943); (83527, 92159);
  (92729, 92735); (92767, 92767); (92778, 92781); (92863, 92863);
  (92874, 92879); (92910, 92911); (92918, 92927); (92998, 93007);
  (93018, 93018); (93026, 93026); (93048, 93052); (93072, 93759);
  (93851, 93951); (94027, 94030); (94088, 94094); (94112, 94175);
  (94181, 94191); (94194, 94207); (100344, 100351); (101590, 101631);
  (101641, 110575); (110580, 110580); (110588, 110588); (110591, 110591);
  (110883, 110927); (110931, 110947); (110952, 110959); (111356, 113663);
  (113771, 113775); (113789, 113791); (113801, 113807); (113818, 113819);
  (113824, 118527); (118574, 118575); (118599, 118607); (118724, 118783);
  (119030, 119039); (119079, 119080); (119155, 119162); (119275, 119295);
  (119366, 119519); (119540, 119551); (119639, 119647); (119673, 119807);
  (119893, 119893); (119965, 119965); (119968, 119969); (119971, 119972);
  (119975, 119976); (119981, 119981); (119994, 119994); (119996, 119996);
  (120004, 120004); (120070, 120070); (120075, 120076); (120085, 120085);
  (120093, 120093); (120122, 120122); (120127, 120127); (120133, 120133);
  (120135, 120137); (120145, 120145); (120486, 120487); (120780, 120781);
  (121484, 121498); (121504, 121504); (121520, 122623); (122655, 122879);
  (122887, 122887); (122905, 122906); (122914, 122914); (122917, 122917);
  (122923, 123135); (123181, 123183); (123198, 123199); (123210, 123213);
  (123216, 123535); (123567, 123583); (123642, 123646); (123648, 124895);
  (124903, 124903); (124908, 124908); (124911, 124911); (124927, 124927);
  (125125, 125126); (125143, 125183); (125260, 125263); (125274, 125277);
  (125280, 126064); (126133, 126208); (126270, 126463); (126468, 126468);
  (126496, 126496); (126499, 126499); (126501, 126502); (126504, 126504);
  (126515, 126515); (126520, 126520); (126522, 126522); (126524, 126529);
  (126531, 126534); (126536, 126536); (126538, 126538); (126540, 126540);
  (126544, 126544); (126547, 126547); (126549, 126550); (126552, 126552);
  (126554, 126554); (126556, 126556); (126558, 126558); (126560, 126560);
  (126563, 126563); (126565, 126566); (126571, 126571); (126579, 126579);
  (126584, 126584); (126589, 126589); (126591, 126591); (126602, 126602);
  (126620, 126624); (126628, 126628); (126634, 126634); (126652, 126703);
  (126706, 126975); (127020, 127023); (127124, 127135); (127151, 127152);
  (127168, 127168); (127184, 127184); (127222, 127231); (127406, 127461);
  (127491, 127503); (127548, 127551); (127561, 127567); (127570, 127583);
  (127590, 127743); (128728, 128732); (128749, 128751); (128765, 128767);
  (128884, 128895); (128985, 128991); (129004, 129007); (129009, 129023);
  (129036, 129039); (129096, 129103); (129114, 129119); (129160, 129167);
  (129198, 129199); (129202, 129279); (129620, 129631); (129646, 129647);
  (129653, 129655); (129661, 129663); (129671, 129679); (129709, 129711);
  (129723, 129727); (129734, 129743); (129754, 129759); (129768, 129775);
  (129783, 129791); (129939, 129939); (129995, 130031); (130042, 131071);
  (173792, 173823); (177977, 177983); (178206, 178207); (183970, 183983);
  (191457, 194559); (195102, 196607); (201547, 917759); (918000, 1114111)
 ]%N.

Definition APOSTROPHE : char := 39%N.
Definition QUOTE : char := 34%N.
Definition BACKSLASH : char := 92%N.

(** A hexadecimal digit, in lower case. *)
Definition hex_digit (n : N) : char :=
  if (n <? 10)%N then (48 + n)%N else (87 + n)%N.

(** The last [k] hexadecimal digits of [n]. *)
Fixpoint hex (k : nat) (n : N) : str :=
  match k with
  | O => []
  | S k' => hex k' (n / 16)%N ++ [hex_digit (n mod 16)%N]
  end.

(** One character of a string as [repr] writes it between the quotes
    [quote]. *)
Definition repr_char (quote : char) (c : char) : str :=
  if chr_eqb c quote || chr_eqb c BACKSLASH then [BACKSLASH; c]
  else if chr_eqb c 9%N then [BACKSLASH; 116%N]
  else if chr_eqb c LF then [BACKSLASH; 110%N]
  else if chr_eqb c CR then [BACKSLASH; 114%N]
  else if (c <? 32)%N || chr_eqb c 127%N then [BACKSLASH; 120%N] ++ hex 2 c
  else if (c <? 127)%N then [c]
  else if in_ranges nonprintable_ranges c then
    if (c <=? 255)%N then [BACKSLASH; 120%N] ++ hex 2 c
    else if (c <=? 65535)%N then [BACKSLASH; 117%N] ++ hex 4 c
    else [BACKSLASH; 85%N] ++ hex 8 c
  else [c].

(** [repr(s)] for a string: between apostrophes, or between double
    quotes when the string holds an apostrophe and no double quote. *)
Definition py_repr (s : str) : str :=
  let quote :=
    if existsb (chr_eqb APOSTROPHE) s && negb (existsb (chr_eqb QUOTE) s)
    then QUOTE else APOSTROPHE in
  [quote] ++ flat_map (repr_char quote) s ++ [quote].

Definition repr_label (l : label) : str :=
  match l with
  | LStr s => py_repr s
  | LOther r => r
  end.

(** [list(df.columns)] as the f-string writes it. *)
Definition repr_columns (cols : list label) : str :=
  lit "[" ++ join (lit ", ") (map repr_label cols) ++ lit "]".

(** The message of the [SystemExit]. *)
Definition missing_url_column (args : Args) (df : DataFrame) : str :=
  lit "No encuentro la columna URL '" ++ col_url args
    ++ lit "'. Columnas: " ++ repr_columns (labels df).

(** The set [done]. *)
Definition load_done (args : Args) (s : State) : gset str :=
  if resume args then
    match meta_csv s with
    | Some recs => list_to_set (map m_pdf_url recs)
    | None => ∅
    end
  else ∅.

(** Opening [META_CSV] for appending creates it, with its header. *)
Definition open_meta (s : State) : State :=
  match meta_csv s with
  | Some _ => s
  | None => set_meta (Some []) s
  end.

(** The list [docs] at the start: the entries of [DOCS_JSON], or none
    when the file is absent or cannot be parsed. *)
Definition entries_of (j : docs_file) : list DocEntry :=
  match j with
  | DocsList l => l
  | DocsAbsent | DocsCorrupt => []
  end.

Definition load_docs (s : State) : State :=
  set_docs (entries_of (docs_json s)) s.

(** [rows[:total]] *)
Definition selected_rows (args : Args) (df : DataFrame)
  : list (gmap str cell) :=
  let rows := to_dict_records df in
  let total :=
    if (limit args =? 0)%Z then Z.of_nat (length rows)
    else Z.min (limit args) (Z.of_nat (length rows)) in
  slice_to total rows.

(** [main], from the loaded data frame on.  The closing summary lines are
    not modelled, and opening the metadata log and writing the snippet
    index are taken to succeed.  An exception that leaves the loop leaves
    [main] too: the snippet index is not written. *)
Definition main (env : Env) (args : Args) (df : DataFrame) (s : State)
  : outcome :=
  if bool_decide (col_url args ∈ columns df) then
    let done := load_done args s in
    let s := load_docs (open_meta s) in
    match process_rows env args done (selected_rows args df) s with
    | (s, None) => Finished (set_docs_json (DocsList (docs s)) s)
    | (s, Some e) => Uncaught e s
    end
  else SystemExit (missing_url_column args df).

(* ===================================================================== *)
(** * The file-name and date utilities *)
(* ===================================================================== *)

(** ** More of the Python runtime *)

(** [s.endswith(suffix)] *)
Definition endswith (s suffix : str) : bool := startswith (rev s) (rev suffix).

(** [s.split(sep)] for a one-character [sep]. *)
Fixpoint split (sep : char) (s : str) : list str :=
  match s with
  | [] => [[]]
  | c :: t =>
      if chr_eqb c sep then [] :: split sep t
      else match split sep t with
           | h :: r => (c :: h) :: r
           | [] => [[c]]
           end
  end.

Definition PLUS : char := 43%N.
Definition ZERO : char := 48%N.
Definition UNDERSCORE : char := 95%N.

(** [s.zfill(width)]: zeros on the left, after a leading sign. *)
Definition zfill (width : nat) (s : str) : str :=
  if Nat.leb width (length s) then s
  else
    let fill := repeat ZERO (width - length s) in
    match s with
    | c :: t =>
        if chr_eqb c PLUS || chr_eqb c HYPHEN then c :: fill ++ t
        else fill ++ s
    | [] => fill
    end.

(** The code points with a decimal digit value ([str.isdecimal]), in the
    Unicode database 14.0 that CPython 3.11 ships. *)
Definition decimal_ranges : list (N * N) :=
 [
  (48, 57); (1632, 1641); (1776, 1785); (1984, 1993); (2406, 2415);
   (2534, 2543); (2662, 2671); (2790, 2799); (2918, 2927); (3046, 3055);
   (3174, 3183); (3302, 3311); (3430, 3439); (3558, 3567); (3664, 3673);
   (3792, 3801); (3872, 3881); (4160, 4169); (4240, 4249); (6112, 6121);
   (6160, 6169); (6470, 6479); (6608, 6617); (6784, 6793); (6800, 6809);
   (6992, 7001); (7088, 7097); (7232, 7241); (7248, 7257); (42528, 42537);
   (43216, 43225); (43264, 43273); (43472, 43481); (43504, 43513);
   (43600, 43609); (44016, 44025); (65296, 65305); (66720, 66729);
   (68912, 68921); (69734, 69743); (69872, 69881); (69942, 69951);
   (70096, 70105); (70384, 70393); (70736, 70745); (70864, 70873);
   (71248, 71257); (71360, 71369); (71472, 71481); (71904, 71913);
   (72016, 72025); (72784, 72793); (73040, 73049); (73120, 73129);
   (92768, 92777); (92864, 92873); (93008, 93017); (120782, 120831);
   (123200, 123209); (123632, 123641); (125264, 125273); (130032, 130041)
 ]%N.

Definition isdecimal (c : char) : bool := in_ranges decimal_ranges c.

(** White space for the C parser of integers: tab to carriage return,
    and the space. *)
Definition c_isspace (c : char) : bool := in_range 9%N 13%N c || chr_eqb c SPACE.

Definition is_ascii_digit (c : char) : bool := in_range 48%N 57%N c.

(** What [int(s)] first makes of one character: a character below 127 is
    kept, a white-space character becomes a space and a decimal digit an
    ASCII digit; any other makes the literal invalid.  Only whether [int]
    accepts the string matters to the program, so every digit is put as
    [0]. *)
Definition to_ascii (c : char) : option char :=
  if (c <? 127)%N then Some c
  else if isspace c then Some SPACE
  else if isdecimal c then Some ZERO
  else None.

Fixpoint to_ascii_all (s : str) : option str :=
  match s with
  | [] => Some []
  | c :: t =>
      match to_ascii c, to_ascii_all t with
      | Some a, Some r => Some (a :: r)
      | _, _ => None
      end
  end.

Fixpoint skip_space (s : str) : str :=
  match s with
  | c :: t => if c_isspace c then skip_space t else s
  | [] => []
  end.

Definition skip_sign (s : str) : str :=
  match s with
  | c :: t => if chr_eqb c PLUS || chr_eqb c HYPHEN then t else s
  | [] => []
  end.

(** The digits of a decimal literal, with single underscores between
    them: the number of digits and what follows them, or nothing when two
    underscores meet or one ends the digits. *)
Fixpoint scan_digits (s : str) (after_underscore : bool) (digits : nat)
  : option (nat * str) :=
  match s with
  | c :: t =>
      if is_ascii_digit c then scan_digits t false (S digits)
      else if chr_eqb c UNDERSCORE then
        if after_underscore then None else scan_digits t true digits
      else if after_underscore then None else Some (digits, s)
  | [] => if after_underscore then None else Some (digits, [])
  end.

(** Whether [int(s)] returns, for a string [s]: optional white space, an
    optional sign, at least one digit and at most 4300 (the default limit
    of CPython 3.11), optional white space. *)
Definition int_ok (s : str) : bool :=
  match to_ascii_all s with
  | None => false
  | Some a =>
      match skip_sign (skip_space a) with
      | [] => false
      | c :: t =>
          if chr_eqb c UNDERSCORE then false
          else
            match scan_digits (c :: t) false 0 with
            | Some (digits, rest) =>
                Nat.ltb 0 digits && Nat.leb digits 4300
                && match skip_space rest with [] => true | _ => false end
            | None => false
            end
      end
  end.

(** ** [safe_filename] *)

(** The character class of the pattern of [safe_filename]: backslash,
    slash, colon, star, question mark, double quote, less-than,
    greater-than and bar. *)
Definition forbidden_chars : list char :=
  [92; 47; 58; 42; 63; 34; 60; 62; 124]%N.

Definition is_forbidden (c : char) : bool := existsb (chr_eqb c) forbidden_chars.

(** The pattern: one or more characters of the class. *)
Definition re_forbidden : Re.regex := Re.Rep 1 (Re.Class is_forbidden).

(** [safe_filename(url)].  [url_name url] is what the library expression
    [unquote(Path(urlparse(url).path).name)] gives. *)
Definition safe_filename (url_name : str -> str) (url : str) : str :=
  let name :=
    match url_name url with
    | [] => lit "documento.pdf"
    | n => n
    end in
  Re.sub re_forbidden (Re.const_repl (lit "_")) name.

(** The expression [filename_pdf[:-4] if
    filename_pdf.lower().endswith(".pdf") else filename_pdf] of [main].
    As for [nan]: the only code points whose lower-case form ends with
    one of [.], [p], [d], [f] are these and [P], [D], [F], each mapped to
    one character, so [lower] on the ASCII letters decides the test as
    the full case mapping does. *)
Definition base_name (filename_pdf : str) : str :=
  if endswith (lower filename_pdf) (lit ".pdf") then slice_to (-4) filename_pdf
  else filename_pdf.

(** ** [date_parts] *)

(** [date_parts(iso_date)] for a string, the only kind of value [main]
    passes ([pd.isna] of a string is false).  [int] is called for its
    exception only. *)
Definition date_parts (iso_date : str) : option (str * str * str) :=
  let s := replace 47%N [HYPHEN] (strip iso_date) in
  let parts := split HYPHEN s in
  let y := zfill 4 (nth 0 parts []) in
  let m := match parts with _ :: p :: _ => zfill 2 p | _ => lit "01" end in
  let d := match parts with _ :: _ :: p :: _ => zfill 2 p | _ => lit "01" end in
  if int_ok y && int_ok m && int_ok d then Some (y, m, d) else None.

(* ===================================================================== *)
(** * Notions used to state the properties *)
(* ===================================================================== *)

(** [normalize_text] applied [n] times. *)
Fixpoint normalize_rounds (n : nat) (s : str) : str :=
  match n with
  | O => s
  | S k => normalize_rounds k (normalize_text s)
  end.

(** [q] lies [x] further in the same subject than [p]. *)
Definition ahead_by (x : str) (p q : Re.pos) : Prop :=
  Re.after p = x ++ Re.after q /\ Re.before q = rev x ++ Re.before p.

(** A transformation that never lengthens a text and that changes it only
    by making it shorter. *)
Definition shrinks (f : str -> str) : Prop :=
  forall s, length (f s) <= length s /\ (length (f s) = length s -> f s = s).

(** The letters [ls] and [z] written with a space after each letter of
    [ls]: a word of [length ls + 1] letters, letter-spaced. *)
Definition spaced (ls : list char) (z : char) : str :=
  flat_map (fun c => [c; SPACE]) ls ++ [z].

(** A letter of the class or a space. *)
Definition plain (c : char) : Prop := is_letter c = true \/ c = SPACE.

(** The state with further events recorded. *)
Definition add_trace (evs : list event) (s : State) : State :=
  {| texts := texts s; meta_csv := meta_csv s; docs_json := docs_json s;
     docs := docs s; stdout := stdout s; trace := trace s ++ evs |}.

(** The events of [n] failed attempts, the first of them numbered
    [start] (from 0): a request, then a sleep of [sleep * (i + 1)]. *)
Fixpoint backoff_trace (url : str) (sleep : Z) (start n : nat) : list event :=
  match n with
  | O => []
  | S k =>
      EvGet url :: EvSleep (inject_Z (sleep * (Z.of_nat start + 1)))
        :: backoff_trace url sleep (S start) k
  end.

(** What the network answers to attempt [j] (from 0) of a call of
    [fetch_pdf_bytes] started in [s], when the earlier attempts failed. *)
Definition attempt_response (env : Env) (s : State) (url : str) (j : nat)
  : exn + bytes :=
  http_get env (length (trace s) + 2 * j) url.

(** The cause the final error reports after [n] failures. *)
Definition last_cause (env : Env) (s : State) (url : str) (n : nat)
    (last : option exn) : option exn :=
  match n with
  | O => last
  | S m =>
      match attempt_response env s url m with
      | inl e => Some e
      | inr _ => None
      end
  end.

(** The records of the metadata log. *)
Definition records_of (m : option (list MetaRecord)) : list MetaRecord :=
  match m with
  | Some l => l
  | None => []
  end.

(** Two states with the same files, list [docs] and output; only the
    requests and sleeps may differ. *)
Definition same_store (s s' : State) : Prop :=
  texts s' = texts s /\ meta_csv s' = meta_csv s
  /\ docs_json s' = docs_json s /\ docs s' = docs s /\ stdout s' = stdout s.

(** The state after a [write_text] that raised. *)
Definition after_failed_write (env : Env) (path text : str) (s : State)
  : State :=
  match write_leaves env path text with
  | Some f => set_texts (<[path := f]> (texts s)) s
  | None => s
  end.

(** The statements of the [try] body from [text_len = ...] on. *)
Definition record_row (env : Env) (args : Args) (url d_fmt txt_path sha : str)
  : M unit :=
  text_len <- stat_size txt_path ;;
  rel_text <- lift (relative_posix env txt_path) ;;
  writerow {| m_date := d_fmt; m_pdf_url := url; m_text_relpath := rel_text;
              m_chars := text_len; m_sha256_bytes := sha |} ;;;
  content <- read_text_or_empty txt_path ;;
  append_doc {| d_id := md5_hex env url; d_date := d_fmt; d_pdf_url := url;
                d_text_relpath := rel_text;
                d_snippet := snippet_of content (max_chars args) |} ;;;
  time_sleep (sleep args).

(** The metadata record and the snippet entry of a row. *)
Definition meta_record (env : Env) (url d_fmt rel sha : str) (f : TextFile)
  : MetaRecord :=
  {| m_date := d_fmt; m_pdf_url := url; m_text_relpath := rel;
     m_chars := f_size f; m_sha256_bytes := sha |}.

Definition doc_entry (env : Env) (args : Args) (url d_fmt rel : str)
    (f : TextFile) : DocEntry :=
  {| d_id := md5_hex env url; d_date := d_fmt; d_pdf_url := url;
     d_text_relpath := rel;
     d_snippet := snippet_of (universal_newlines (f_text f)) (max_chars args) |}.

(** The state after the record and the entry of a row are stored. *)
Definition stored (env : Env) (args : Args) (url d_fmt rel sha : str)
    (f : TextFile) (s : State) : State :=
  set_docs (docs s ++ [doc_entry env args url d_fmt rel f])
    (set_meta (Some (records_of (meta_csv s)
                       ++ [meta_record env url d_fmt rel sha f])) s).

(** The formatted date and the text path of a row. *)
Definition row_d_fmt (env : Env) (args : Args) (r : gmap str cell) : str :=
  format_date env (default (CStr []) (r !! col_date args)).

Definition row_txt_path (env : Env) (args : Args) (r : gmap str cell) : str :=
  txt_path_of env (row_d_fmt env args r) (row_url args r).

(** The same environment with another PDF library. *)
Definition with_pdf_open (f : bytes -> exn + list (exn + str)) (env : Env)
  : Env :=
  {| http_get := http_get env; sha256_hex := sha256_hex env;
     md5_hex := md5_hex env; pdf_open := f; format_date := format_date env;
     txt_path_of := txt_path_of env; path_error := path_error env;
     relative_posix := relative_posix env; write_error := write_error env;
     write_leaves := write_leaves env; linesep := linesep env |}.

(** Whether the tests at the head of the loop skip a row: it has no URL,
    or [--resume] is set and its URL is in the resume set. *)
Definition skipped (args : Args) (done : gset str) (r : gmap str cell)
  : bool :=
  no_url (row_url args r)
  || (resume args && bool_decide (row_url args r ∈ done)).

(** The first three characters spell [nan] in any mix of cases. *)
Definition spells_nan (url : str) : Prop :=
  exists c1 c2 c3 rest,
    url = c1 :: c2 :: c3 :: rest
    /\ (c1 = 110 \/ c1 = 78)%N /\ (c2 = 97 \/ c2 = 65)%N
    /\ (c3 = 110 \/ c3 = 78)%N.

(** The URLs a run processes unless the resume set holds them. *)
Definition candidate_urls (args : Args) (rows : list (gmap str cell))
  : list str :=
  List.filter (fun u => negb (no_url u)) (map (row_url args) rows).





(** ** Notions for the further properties *)

(** Whether an event is a request. *)
Definition is_get (e : event) : bool :=
  match e with
  | EvGet _ => true
  | EvSleep _ => false
  end.

(** An event that a download of [url] may cause: a request for [url] or a
    sleep. *)
Definition event_of (url : str) (e : event) : Prop :=
  match e with
  | EvGet u => u = url
  | EvSleep _ => True
  end.

(** Whether a text begins with a character of a class. *)
Definition head_is (f : char -> bool) (s : str) : bool :=
  match s with
  | c :: _ => f c
  | [] => false
  end.

(** Whether two characters that are both a space or a tab stand side by
    side. *)
Fixpoint double_blank (s : str) : bool :=
  match s with
  | a :: t =>
      (is_blank a && match t with b :: _ => is_blank b | [] => false end)
      || double_blank t
  | [] => false
  end.

(** The characters [normalize_text] deletes wherever they stand: soft
    hyphen, zero-width space, non-joiner and joiner, byte-order mark,
    carriage return, less-than and greater-than. *)
Definition deleted_chars : list char :=
  [173; 8203; 8204; 8205; 65279; 13; 60; 62]%N.

(** The characters of a literal the parser of integers accepts, once the
    literal is turned into ASCII. *)
Definition ascii_ok (c : char) : bool :=
  c_isspace c || is_ascii_digit c || chr_eqb c PLUS || chr_eqb c HYPHEN
  || chr_eqb c UNDERSCORE.

(** The characters of a string [int] accepts. *)
Definition wide_ok (c : char) : bool :=
  isspace c || isdecimal c || chr_eqb c PLUS || chr_eqb c HYPHEN
  || chr_eqb c UNDERSCORE.

(** A character [int] lets through in a component of a date: white
    space, a decimal digit, a plus sign or an underscore. *)
Definition date_char (c : char) : bool :=
  isspace c || isdecimal c || chr_eqb c PLUS || chr_eqb c UNDERSCORE.

(** The manifest with one more column, of the given name and of empty
    strings. *)
Definition with_blank_column (name : str) (df : DataFrame) : DataFrame :=
  {| labels := LStr name :: labels df;
     cells := map (cons (CStr [])) (cells df) |}.

(** The data frame cut down to its first [n] rows. *)
Definition head_rows (n : nat) (df : DataFrame) : DataFrame :=
  {| labels := labels df; cells := firstn n (cells df) |}.

(** The command line with another [--limit]. *)
Definition with_limit (l : Z) (args : Args) : Args :=
  {| col_date := col_date args; col_url := col_url args; limit := l;
     sleep := sleep args; resume := resume args; rewrite := rewrite args;
     max_pages := max_pages args; max_chars := max_chars args |}.

(* ===================================================================== *)
(** * A small environment and manifest for concrete runs *)
(* ===================================================================== *)

(** URLs under [http://bad] always fail, URLs under [http://flaky] fail
    until two events have happened, every other URL answers at once; a
    document has two pages; paths are written under [texts/]. *)
Definition demo_env : Env :=
  {| http_get := fun n url =>
       if startswith url (lit "http://bad")
       then inl (RequestException (lit "404 Client Error"))
       else if startswith url (lit "http://flaky") && (n <? 2)
       then inl (RequestException (lit "Read timed out"))
       else inr [Byte.x25; Byte.x50; Byte.x44; Byte.x46];
     sha256_hex := fun _ => lit "3df7";
     md5_hex := fun url => lit "id-" ++ url;
     pdf_open := fun _ => inr [inr (lit "t r a b a j o"); inr (lit "fin")];
     format_date := py_str;
     txt_path_of := fun d url => lit "texts/" ++ d ++ lit "/" ++ url ++ lit ".txt";
     path_error := fun _ _ => None;
     relative_posix := fun p => inr p;
     write_error := fun _ => None;
     write_leaves := fun _ _ => None;
     linesep := [LF] |}.


Definition demo_args : Args :=
  {| col_date := lit "fecha"; col_url := lit "documento"; limit := 0;
     sleep := 1 # 2; resume := false; rewrite := false; max_pages := 0;
     max_chars := 1200 |}.

Definition resume_args : Args :=
  {| col_date := lit "fecha"; col_url := lit "documento"; limit := 0;
     sleep := 1 # 2; resume := true; rewrite := false; max_pages := 0;
     max_chars := 1200 |}.

Definition empty_state : State :=
  {| texts := ∅; meta_csv := None; docs_json := DocsAbsent; docs := [];
     stdout := []; trace := [] |}.

Definition url_a : str := lit "http://ok/a.pdf".
Definition url_b : str := lit "http://bad/b.pdf".
Definition url_c : str := lit "http://ok/c.pdf".

(** One URL that fails and two that succeed. *)
Definition demo_df : DataFrame :=
  {| labels := [LStr (lit "fecha"); LStr (lit "documento")];
     cells := [ [CStr (lit "2020-01-02"); CStr url_a];
                [CStr (lit "2020-01-03"); CStr url_b];
                [CStr (lit "2020-01-04"); CStr url_c] ] |}.

(** A manifest without the date column. *)
Definition undated_df : DataFrame :=
  {| labels := [LStr (lit "documento")]; cells := [ [CStr url_a] ] |}.

(** A manifest without the URL column, whose labels are a name with an
    apostrophe, a plain name and a number. *)
Definition quoted_df : DataFrame :=
  {| labels := [LStr (lit "l'url"); LStr (lit "fecha"); LOther (lit "2020")];
     cells := [ [CStr url_a; CStr (lit "2020-01-02"); CNaN] ] |}.

Definition one_row_df : DataFrame :=
  {| labels := [LStr (lit "fecha"); LStr (lit "documento")];
     cells := [ [CStr (lit "2020-01-02"); CStr url_a] ] |}.

(** The state a first run over [one_row_df] leaves. *)
Definition after_first_run : State :=
  match main demo_env demo_args one_row_df empty_state with
  | Finished s | Uncaught _ s => s
  | SystemExit _ => empty_state
  end.

(** The URLs of the snippet index a run leaves. *)
Definition index_urls (o : outcome) : list str :=
  match o with
  | Finished s =>
      match docs_json s with
      | DocsList l => map d_pdf_url l
      | DocsAbsent | DocsCorrupt => []
      end
  | SystemExit _ | Uncaught _ _ => []
  end.

Definition final_state (o : outcome) : State :=
  match o with
  | Finished s | Uncaught _ s => s
  | SystemExit _ => empty_state
  end.

Definition url_flaky : str := lit "http://flaky/d.pdf".


Definition nan_row : gmap str cell :=
  list_to_map [(lit "documento", CStr (lit " Nantes.example/boletin.pdf "))].

(* ===================================================================== *)
(** * Properties of the matcher *)
(* ===================================================================== *)

Module ReFacts.
Import Re.

Lemma ahead_by_refl p : ahead_by [] p p.
Proof. split; reflexivity. Qed.

Lemma ahead_by_trans x y p q r :
  ahead_by x p q -> ahead_by y q r -> ahead_by (x ++ y) p r.
Proof.
  intros [A1 B1] [A2 B2]. split.
  - rewrite A1, A2. now rewrite <- app_assoc.
  - rewrite B2, B1, rev_app_distr. now rewrite <- app_assoc.
Qed.

Lemma ahead_by_consumed x p q : ahead_by x p q -> consumed p q = x.
Proof.
  intros [A _]. unfold consumed. rewrite A, length_app.
  replace (length x + length (after q) - length (after q)) with (length x) by lia.
  rewrite firstn_app, Nat.sub_diag, firstn_all. simpl. apply app_nil_r.
Qed.

Lemma ahead_by_set_group x p q p0 :
  ahead_by x p q -> ahead_by x p (set_group p0 q).
Proof. intros [A B]. split; assumption. Qed.

(** A successful [rep_loop] hands a position further on to [k], after at
    least [lo] rounds, provided each round does. *)
Lemma rep_loop_ahead body k :
  (forall p k' q, body p k' = Some q ->
     exists x p', x <> [] /\ ahead_by x p p' /\ k' p' = Some q) ->
  forall n lo p q, rep_loop body k n lo p = Some q ->
    exists x p', lo <= length x /\ ahead_by x p p' /\ k p' = Some q.
Proof.
  intros Hbody. induction n as [|n IH]; intros lo p q H; simpl in H.
  - destruct (Nat.eqb_spec lo 0) as [->|]; [|discriminate].
    exists [], p. repeat split; simpl; auto.
  - destruct (body p _) as [q'|] eqn:Hb.
    + injection H as ->. apply Hbody in Hb as (x & p' & Hx & Hp & Hk).
      apply IH in Hk as (y & p'' & Hlo & Hp' & Hk).
      exists (x ++ y), p''. split; [|split; [eapply ahead_by_trans; eauto|exact Hk]].
      rewrite length_app. destruct x; [congruence|]. simpl. lia.
    + destruct (Nat.eqb_spec lo 0) as [->|]; [|discriminate].
      exists [], p. repeat split; simpl; auto.
Qed.

Lemma run_rep_eq lo a p k :
  run (Rep lo a) p k = rep_loop (run a) k (S (length (after p))) lo p.
Proof. reflexivity. Qed.

Lemma run_seq_eq a b p k : run (Seq a b) p k = run a p (fun q => run b q k).
Proof. reflexivity. Qed.

Lemma run_group_eq a p k :
  run (Group a) p k = run a p (fun q => k (set_group p q)).
Proof. reflexivity. Qed.

(** One character of a class. *)
Lemma run_class_ahead f p k q :
  run (Class f) p k = Some q ->
  exists c p', f c = true /\ ahead_by [c] p p' /\ g1 p' = g1 p /\ k p' = Some q.
Proof.
  simpl. destruct p as [b a g]; simpl. destruct a as [|c t]; [discriminate|].
  destruct (f c) eqn:Hf; [|discriminate]. intros H.
  exists c, (advance c t (Pos b (c :: t) g)). repeat split; auto.
Qed.

Lemma run_lit_ahead c p k q :
  run (Lit c) p k = Some q ->
  exists p', ahead_by [c] p p' /\ g1 p' = g1 p /\ k p' = Some q.
Proof.
  simpl. destruct p as [b a g]; simpl. destruct a as [|x t]; [discriminate|].
  unfold chr_eqb. destruct (N.eqb_spec x c) as [->|]; [|discriminate]. intros H.
  exists (advance c t (Pos b (c :: t) g)). repeat split; auto.
Qed.

(** Every match of [\n{2,}] and of [[ \t]{2,}] is at least two characters
    long. *)
Lemma rep2_class_long f p q :
  run (Rep 2 (Class f)) p Some = Some q ->
  exists x, 2 <= length x /\ ahead_by x p q.
Proof.
  intros H. rewrite run_rep_eq in H.
  apply rep_loop_ahead in H as (x & p' & Hlo & Hp & Hk).
  - injection Hk as ->. eauto.
  - intros p0 k' q0 Hb. apply run_class_ahead in Hb as (c & p1 & _ & Hp1 & _ & Hk).
    exists [c], p1. repeat split; try apply Hp1; auto; discriminate.
Qed.

Lemma rep2_lit_long c p q :
  run (Rep 2 (Lit c)) p Some = Some q ->
  exists x, 2 <= length x /\ ahead_by x p q.
Proof.
  intros H. rewrite run_rep_eq in H.
  apply rep_loop_ahead in H as (x & p' & Hlo & Hp & Hk).
  - injection Hk as ->. eauto.
  - intros p0 k' q0 Hb. apply run_lit_ahead in Hb as (p1 & Hp1 & _ & Hk).
    exists [c], p1. repeat split; try apply Hp1; auto; discriminate.
Qed.

(** A match of [([L]{2,})>] is its group followed by [>]. *)
Lemma stray_gt_shape p q :
  run re_stray_gt p Some = Some q ->
  exists x, g1 q = Some x /\ ahead_by (x ++ [GT]) p q.
Proof.
  unfold re_stray_gt. intros H.
  rewrite run_seq_eq, run_group_eq, run_rep_eq in H.
  apply rep_loop_ahead in H as (x & p' & _ & Hp & Hk).
  - apply (run_lit_ahead GT (set_group p p') Some q) in Hk as (p2 & Hp2 & Hg & Hk).
    injection Hk as ->. exists x. split.
    + rewrite Hg. simpl. f_equal. now apply ahead_by_consumed.
    + eapply ahead_by_trans; [|exact Hp2]. now apply ahead_by_set_group.
  - intros p0 k' q0 Hb. apply run_class_ahead in Hb as (c & p1 & _ & Hp1 & _ & Hk).
    exists [c], p1. repeat split; try apply Hp1; auto; discriminate.
Qed.

End ReFacts.

(* ===================================================================== *)
(** * [normalize_text] shortens *)
(* ===================================================================== *)

Module NormFacts.
Import Re ReFacts.

Lemma shrinks_compose f g :
  shrinks f -> shrinks g -> shrinks (fun s => g (f s)).
Proof.
  intros Hf Hg s. destruct (Hf s) as [F1 F2], (Hg (f s)) as [G1 G2].
  split; [lia|]. intros E. rewrite G2 by lia. apply F2. lia.
Qed.

Lemma replace_nil_shrinks c : shrinks (replace c []).
Proof.
  intros s. unfold replace. induction s as [|x t [IH1 IH2]]; simpl.
  - split; auto.
  - destruct (chr_eqb x c); simpl.
    + split; [lia|]. intros E. lia.
    + split; [lia|]. intros E. f_equal. apply IH2. lia.
Qed.

Lemma sub_from_cons r repl bef c t skip :
  sub_from r repl bef (c :: t) skip =
  match skip with
  | S n => sub_from r repl (c :: bef) t n
  | O =>
      match match_at r (Pos bef (c :: t) None) with
      | Some q =>
          match length (c :: t) - length (after q) with
          | O => c :: sub_from r repl (c :: bef) t 0
          | S n =>
              repl (consumed (Pos bef (c :: t) None) q) (g1 q)
                ++ sub_from r repl (c :: bef) t n
          end
      | None => c :: sub_from r repl (c :: bef) t 0
      end
  end.
Proof. reflexivity. Qed.

(** [re.sub] shrinks when every replacement does. *)
Lemma sub_from_shrinks r repl :
  (forall bef s q, match_at r (Pos bef s None) = Some q ->
     let g0 := consumed (Pos bef s None) q in
     length (repl g0 (g1 q)) <= length g0 /\
     (length (repl g0 (g1 q)) = length g0 -> repl g0 (g1 q) = g0)) ->
  forall s bef skip, skip <= length s ->
    length (sub_from r repl bef s skip) <= length s - skip /\
    (length (sub_from r repl bef s skip) = length s - skip ->
     sub_from r repl bef s skip = skipn skip s).
Proof.
  intros Hrepl. induction s as [|c t IH]; intros bef skip Hskip.
  - simpl. split; [lia|]. intros _. now rewrite skipn_nil.
  - rewrite sub_from_cons. destruct skip as [|n].
    + destruct (match_at r (Pos bef (c :: t) None)) as [q|] eqn:Hm.
      * destruct (length (c :: t) - length (after q)) as [|n] eqn:Hn.
        -- destruct (IH (c :: bef) 0 ltac:(lia)) as [L E].
           simpl length in *. split; [lia|].
           intros HH. simpl. f_equal. apply E. lia.
        -- specialize (Hrepl _ _ _ Hm). unfold consumed in Hrepl.
           cbn [after] in Hrepl. rewrite Hn in Hrepl.
           unfold consumed. cbn [after]. rewrite Hn.
           set (g0 := firstn (S n) (c :: t)) in *.
           assert (Hg0 : length g0 = S n).
           { unfold g0. rewrite length_firstn. lia. }
           simpl length in Hn.
           destruct (IH (c :: bef) n ltac:(lia)) as [L E].
           destruct Hrepl as [R1 R2].
           rewrite length_app. simpl length. split; [lia|].
           intros HH. rewrite R2 by lia. rewrite E by lia.
           unfold g0. change (skipn n t) with (skipn (S n) (c :: t)).
           apply firstn_skipn.
      * destruct (IH (c :: bef) 0 ltac:(lia)) as [L E].
        simpl length in *. split; [lia|].
        intros HH. simpl. f_equal. apply E. lia.
    + simpl in Hskip. destruct (IH (c :: bef) n ltac:(lia)) as [L E].
      simpl. split; [lia|]. exact E.
Qed.

Lemma sub_shrinks r repl :
  (forall bef s q, match_at r (Pos bef s None) = Some q ->
     let g0 := consumed (Pos bef s None) q in
     length (repl g0 (g1 q)) <= length g0 /\
     (length (repl g0 (g1 q)) = length g0 -> repl g0 (g1 q) = g0)) ->
  shrinks (sub r repl).
Proof.
  intros H s. unfold sub.
  destruct (sub_from_shrinks r repl H s [] 0 ltac:(lia)) as [L E].
  rewrite Nat.sub_0_r in *. split; [exact L|]. intros HH. now apply E.
Qed.

Lemma hyphen_break_shrinks : shrinks (sub re_hyphen_break (const_repl [])).
Proof.
  apply sub_shrinks. intros bef s q _ g0. unfold const_repl. simpl.
  split; [lia|]. intros E. symmetry in E. now apply length_zero_iff_nil in E.
Qed.

Lemma stray_gt_shrinks : shrinks (sub re_stray_gt template_g1).
Proof.
  apply sub_shrinks. intros bef s q Hm g0. unfold match_at in Hm.
  cbn [before after] in Hm.
  apply stray_gt_shape in Hm as (x & Hg & Hx).
  unfold g0. rewrite (ahead_by_consumed _ _ _ Hx), Hg. simpl.
  rewrite length_app. simpl. split; lia.
Qed.

Lemma newlines_shrinks : shrinks (sub re_newlines (const_repl [LF])).
Proof.
  apply sub_shrinks. intros bef s q Hm g0. unfold match_at in Hm.
  cbn [before after] in Hm.
  apply rep2_lit_long in Hm as (x & Hlen & Hx).
  unfold g0. rewrite (ahead_by_consumed _ _ _ Hx). unfold const_repl. simpl.
  split; lia.
Qed.

Lemma spaced_letters_shrinks : shrinks (sub re_spaced_letters _join_letters).
Proof.
  apply sub_shrinks. intros bef s q _ g0. unfold _join_letters.
  apply replace_nil_shrinks.
Qed.

Lemma blanks_shrinks : shrinks (sub re_blanks (const_repl [SPACE])).
Proof.
  apply sub_shrinks. intros bef s q Hm g0. unfold match_at in Hm.
  cbn [before after] in Hm.
  apply rep2_class_long in Hm as (x & Hlen & Hx).
  unfold g0. rewrite (ahead_by_consumed _ _ _ Hx). unfold const_repl. simpl.
  split; lia.
Qed.

Lemma strip_invisible_shrinks : shrinks strip_invisible.
Proof.
  unfold strip_invisible.
  do 5 (apply (shrinks_compose _ (replace _ [])); [|apply replace_nil_shrinks]).
  apply replace_nil_shrinks.
Qed.

Lemma normalize_text_shrinks : shrinks normalize_text.
Proof.
  intros s. destruct s as [|c t]; [simpl; auto|].
  unfold normalize_text.
  set (f := fun s : str =>
    sub re_blanks (const_repl [SPACE])
      (sub re_spaced_letters _join_letters
         (sub re_newlines (const_repl [LF])
            (replace GT [] (replace LT []
               (sub re_stray_gt template_g1
                  (sub re_hyphen_break (const_repl []) (strip_invisible s)))))))).
  change (length (f (c :: t)) <= length (c :: t) /\
          (length (f (c :: t)) = length (c :: t) -> f (c :: t) = c :: t)).
  assert (Hf : shrinks f).
  { unfold f.
    apply (shrinks_compose _ (sub re_blanks (const_repl [SPACE]))); [|apply blanks_shrinks].
    apply (shrinks_compose _ (sub re_spaced_letters _join_letters)); [|apply spaced_letters_shrinks].
    apply (shrinks_compose _ (sub re_newlines (const_repl [LF]))); [|apply newlines_shrinks].
    apply (shrinks_compose _ (replace GT [])); [|apply replace_nil_shrinks].
    apply (shrinks_compose _ (replace LT [])); [|apply replace_nil_shrinks].
    apply (shrinks_compose _ (sub re_stray_gt template_g1)); [|apply stray_gt_shrinks].
    apply (shrinks_compose _ (sub re_hyphen_break (const_repl []))); [|apply hyphen_break_shrinks].
    apply strip_invisible_shrinks. }
  apply Hf.
Qed.

Lemma normalize_rounds_fixed n s :
  normalize_text s = s -> normalize_rounds n s = s.
Proof. intros H. induction n as [|n IH]; simpl; [reflexivity|]. now rewrite H. Qed.

Lemma normalize_rounds_settle n :
  forall s, length s <= n ->
    normalize_text (normalize_rounds n s) = normalize_rounds n s.
Proof.
  induction n as [|n IH]; intros s Hlen.
  - destruct s; [reflexivity|simpl in Hlen; lia].
  - simpl. destruct (normalize_text_shrinks s) as [L E].
    destruct (Nat.eq_dec (length (normalize_text s)) (length s)) as [Heq|Hne].
    + rewrite (E Heq). rewrite normalize_rounds_fixed by (apply E, Heq).
      apply E, Heq.
    + apply IH. lia.
Qed.

End NormFacts.

(* ===================================================================== *)
(** * Letter-spaced words *)
(* ===================================================================== *)

Module SpacedFacts.
Import Re ReFacts.

Lemma is_letter_isword c : is_letter c = true -> isword c = true.
Proof.
  unfold is_letter, isword, in_ranges. intros H.
  apply existsb_exists.
  apply orb_true_iff in H as [H|H]; [apply orb_true_iff in H as [H|H]|].
  - exists (65, 90)%N. split; [|exact H].
    unfold word_ranges. do 1 right. left. reflexivity.
  - exists (97, 122)%N. split; [|exact H].
    unfold word_ranges. do 3 right. left. reflexivity.
  - apply existsb_exists in H as (x & Hin & Hx).
    apply N.eqb_eq in Hx. subst x.
    assert (Hc : in_range 192 214 c = true \/ in_range 216 246 c = true
                 \/ in_range 248 705 c = true).
    { simpl in Hin.
      repeat (destruct Hin as [<-|Hin]; [vm_compute; auto|]). destruct Hin. }
    destruct Hc as [Hc|[Hc|Hc]].
    + exists (192, 214)%N. split; [|exact Hc].
      unfold word_ranges. do 9 right. left. reflexivity.
    + exists (216, 246)%N. split; [|exact Hc].
      unfold word_ranges. do 10 right. left. reflexivity.
    + exists (248, 705)%N. split; [|exact Hc].
      unfold word_ranges. do 11 right. left. reflexivity.
Qed.

(** No plain character is one of the characters the other steps look
    for. *)
Lemma plain_not c k :
  plain c -> is_letter k = false -> k <> SPACE -> chr_eqb c k = false.
Proof.
  intros Hc Hk Hs. unfold chr_eqb. apply N.eqb_neq. intros E. subst k.
  destruct Hc as [H|H]; congruence.
Qed.

Lemma letter_not_space c : is_letter c = true -> chr_eqb c SPACE = false.
Proof.
  intros H. unfold chr_eqb. apply N.eqb_neq. intros ->. discriminate H.
Qed.

Lemma letter_not_blank c : is_letter c = true -> is_blank c = false.
Proof.
  intros H. unfold is_blank, chr_eqb. apply orb_false_iff.
  split; apply N.eqb_neq; intros ->; discriminate H.
Qed.

Lemma replace_absent k new s :
  Forall (fun c => chr_eqb c k = false) s -> replace k new s = s.
Proof.
  unfold replace. induction 1 as [|c t Hc _ IH]; simpl; [reflexivity|].
  rewrite Hc. simpl. now rewrite IH.
Qed.

Lemma replace_plain k new s :
  is_letter k = false -> k <> SPACE -> Forall plain s -> replace k new s = s.
Proof.
  intros Hk Hs H. apply replace_absent. eapply Forall_impl; [exact H|].
  intros c Hc. now apply plain_not.
Qed.

(** [re.sub] changes nothing where the pattern matches nowhere. *)
Lemma sub_from_no_match (P : char -> Prop) r repl :
  (forall bef s, Forall P s -> match_at r (Pos bef s None) = None) ->
  forall s bef, Forall P s -> sub_from r repl bef s 0 = s.
Proof.
  intros Hno. induction s as [|c t IH]; intros bef Hs; [reflexivity|].
  rewrite NormFacts.sub_from_cons, (Hno bef (c :: t) Hs).
  f_equal. apply IH. now apply Forall_inv_tail in Hs.
Qed.

Lemma sub_from_skip_all r repl :
  forall s bef, sub_from r repl bef s (length s) = [].
Proof.
  induction s as [|c t IH]; intros bef; [reflexivity|].
  rewrite NormFacts.sub_from_cons. simpl length. apply IH.
Qed.

Lemma ahead_by_Forall (P : char -> Prop) x p q :
  ahead_by x p q -> Forall P (after p) -> Forall P x.
Proof. intros [A _] H. rewrite A in H. now apply Forall_app in H as [H _]. Qed.

Lemma hyphen_break_none bef s :
  Forall plain s -> match_at re_hyphen_break (Pos bef s None) = None.
Proof.
  intros H. unfold match_at, re_hyphen_break. cbn [before after].
  rewrite run_seq_eq. destruct s as [|c t]; [reflexivity|].
  apply Forall_inv in H. cbn [run after].
  rewrite (plain_not c HYPHEN H); [reflexivity|reflexivity|discriminate].
Qed.

Lemma stray_gt_none bef s :
  Forall plain s -> match_at re_stray_gt (Pos bef s None) = None.
Proof.
  intros H. unfold match_at. cbn [before after].
  destruct (run re_stray_gt (Pos bef s None) Some) as [q|] eqn:Hm; [|reflexivity].
  apply stray_gt_shape in Hm as (x & _ & Hx).
  apply (ahead_by_Forall plain) in Hx; [|exact H].
  apply Forall_app in Hx as [_ Hx]. apply Forall_inv in Hx.
  destruct Hx as [Hx|Hx]; discriminate Hx.
Qed.

Lemma rep2_first_fails f bef s :
  (forall c t, s = c :: t -> f c = false) ->
  run (Rep 2 (Class f)) (Pos bef s None) Some = None.
Proof.
  intros H. rewrite run_rep_eq. cbn [after rep_loop run].
  destruct s as [|c t]; [reflexivity|]. now rewrite (H c t eq_refl).
Qed.

Lemma newlines_none bef s :
  Forall plain s -> match_at re_newlines (Pos bef s None) = None.
Proof.
  intros H. unfold match_at, re_newlines. cbn [before after].
  rewrite run_rep_eq. cbn [after rep_loop run].
  destruct s as [|c t]; [reflexivity|]. apply Forall_inv in H.
  rewrite (plain_not c LF H); [reflexivity|reflexivity|discriminate].
Qed.

Lemma blanks_none bef s :
  Forall (fun c => is_letter c = true) s ->
  match_at re_blanks (Pos bef s None) = None.
Proof.
  intros H. unfold match_at, re_blanks. cbn [before after].
  apply rep2_first_fails. intros c t ->. apply Forall_inv in H.
  now apply letter_not_blank.
Qed.

Lemma spaced_cons c ls z : spaced (c :: ls) z = c :: SPACE :: spaced ls z.
Proof. reflexivity. Qed.

Lemma length_spaced ls z : length (spaced ls z) = 2 * length ls + 1.
Proof.
  induction ls as [|c ls IH]; [reflexivity|].
  rewrite spaced_cons. simpl length. rewrite IH. lia.
Qed.

Lemma spaced_plain ls z :
  Forall (fun c => is_letter c = true) ls -> is_letter z = true ->
  Forall plain (spaced ls z).
Proof.
  intros H Hz. induction H as [|c t Hc _ IH].
  - constructor; [now left|constructor].
  - rewrite spaced_cons. constructor; [now left|].
    constructor; [now right|exact IH].
Qed.

Lemma join_spaced ls z :
  Forall (fun c => is_letter c = true) ls -> is_letter z = true ->
  replace SPACE [] (spaced ls z) = ls ++ [z].
Proof.
  intros H Hz. unfold replace. induction H as [|c t Hc _ IH].
  - simpl. now rewrite (letter_not_space z Hz).
  - rewrite spaced_cons. simpl. rewrite (letter_not_space c Hc). simpl.
    f_equal. exact IH.
Qed.

Lemma rep_loop_S body k n lo p :
  rep_loop body k (S n) lo p =
  match body p (fun q => rep_loop body k n (pred lo) q) with
  | Some q => Some q
  | None => if Nat.eqb lo 0 then k p else None
  end.
Proof. reflexivity. Qed.

Lemma letter_space_step c t b g k :
  is_letter c = true ->
  run (Seq (Class is_letter) (Class isspace)) (Pos b (c :: SPACE :: t) g) k
  = k (Pos (SPACE :: c :: b) t g).
Proof. intros H. cbn [run after advance before g1]. now rewrite H. Qed.

Lemma letter_space_end z b g k :
  run (Seq (Class is_letter) (Class isspace)) (Pos b [z] g) k = None.
Proof. cbn [run after advance before g1]. now destruct (is_letter z). Qed.

(** The repetition [(?:[L]\s){2,}] runs through all the letters of a
    letter-spaced word but the last. *)
Lemma rep_loop_spaced K res :
  forall ls z b g fuel lo,
    Forall (fun c => is_letter c = true) ls ->
    lo <= length ls -> length ls < fuel ->
    K (Pos (rev (flat_map (fun c => [c; SPACE]) ls) ++ b) [z] g) = Some res ->
    rep_loop (run (Seq (Class is_letter) (Class isspace))) K fuel lo
      (Pos b (spaced ls z) g) = Some res.
Proof.
  induction ls as [|c ls IH]; intros z b g fuel lo Hls Hlo Hfuel HK.
  - destruct fuel as [|fuel]; [simpl in Hfuel; lia|].
    simpl in Hlo. replace lo with 0 by lia.
    rewrite rep_loop_S. change (spaced [] z) with [z].
    rewrite letter_space_end. exact HK.
  - destruct fuel as [|fuel]; [simpl in Hfuel; lia|].
    apply Forall_cons in Hls as [Hc Hls].
    rewrite rep_loop_S, spaced_cons, (letter_space_step _ _ _ _ _ Hc).
    rewrite (IH z (SPACE :: c :: b) g fuel (pred lo) Hls).
    + reflexivity.
    + simpl in Hlo. lia.
    + simpl in Hfuel. lia.
    + rewrite <- HK. f_equal. f_equal. simpl.
      rewrite <- !app_assoc. reflexivity.
Qed.

Lemma run_alt_eq a b p k :
  run (Alt a b) p k =
  match run a p k with
  | Some q => Some q
  | None => run b p k
  end.
Proof. reflexivity. Qed.

Lemma run_behind_boundary p k :
  at_boundary p = true -> run (Behind WordB) p k = k p.
Proof. intros H. cbn [run width rewind]. now rewrite H. Qed.

Lemma run_ahead_boundary x p k :
  at_boundary p = true -> run (Ahead (Alt WordB x)) p k = k p.
Proof. intros H. cbn [run]. now rewrite H. Qed.

Lemma run_letter z b g k :
  is_letter z = true ->
  run (Class is_letter) (Pos b [z] g) k = k (Pos (z :: b) [] g).
Proof. intros H. cbn [run after advance before g1]. now rewrite H. Qed.

(** At the start of a letter-spaced word of three letters or more the
    pattern matches the whole word. *)
Lemma spaced_letters_match ls z :
  Forall (fun c => is_letter c = true) ls -> is_letter z = true ->
  2 <= length ls ->
  exists q,
    match_at re_spaced_letters (Pos [] (spaced ls z) None) = Some q
    /\ after q = [].
Proof.
  intros Hls Hz Hlen.
  destruct ls as [|c ls]; [simpl in Hlen; lia|].
  pose proof (Forall_inv Hls) as Hc.
  set (p0 := Pos [] (spaced (c :: ls) z) None).
  set (pend := set_group p0
                 (Pos (z :: rev (flat_map (fun c => [c; SPACE]) (c :: ls)) ++ [])
                    [] None)).
  exists pend. split; [|reflexivity].
  assert (Hb0 : at_boundary p0 = true).
  { unfold at_boundary, p0. rewrite spaced_cons. cbn [before after].
    now rewrite (is_letter_isword c Hc). }
  assert (Hbe : at_boundary pend = true).
  { unfold at_boundary, pend, set_group. cbn [before after].
    now rewrite (is_letter_isword z Hz). }
  unfold match_at, re_spaced_letters. cbn [before after]. fold p0.
  rewrite run_seq_eq, run_alt_eq, (run_behind_boundary _ _ Hb0).
  rewrite run_seq_eq, run_group_eq, run_seq_eq, run_rep_eq.
  rewrite (rep_loop_spaced _ pend (c :: ls) z [] None).
  - reflexivity.
  - exact Hls.
  - exact Hlen.
  - unfold p0. cbn [after]. rewrite length_spaced. lia.
  - rewrite (run_letter _ _ _ _ Hz). fold pend.
    now rewrite (run_ahead_boundary _ _ _ Hbe).
Qed.

Lemma sub_spaced_letters ls z :
  Forall (fun c => is_letter c = true) ls -> is_letter z = true ->
  2 <= length ls ->
  sub re_spaced_letters _join_letters (spaced ls z) = ls ++ [z].
Proof.
  intros Hls Hz Hlen.
  destruct (spaced_letters_match ls z Hls Hz Hlen) as (q & Hm & Hq).
  unfold sub. destruct (spaced ls z) as [|c t] eqn:Hs.
  { destruct ls; discriminate Hs. }
  rewrite NormFacts.sub_from_cons, Hm. unfold consumed. cbn [after].
  rewrite Hq. cbn [length Nat.sub]. rewrite sub_from_skip_all, app_nil_r.
  change (S (length t)) with (length (c :: t)). rewrite firstn_all.
  unfold _join_letters. rewrite <- Hs. now apply join_spaced.
Qed.

Lemma normalize_text_nonempty s :
  s <> [] ->
  normalize_text s =
  sub re_blanks (const_repl [SPACE])
    (sub re_spaced_letters _join_letters
       (sub re_newlines (const_repl [LF])
          (replace GT [] (replace LT []
             (sub re_stray_gt template_g1
                (sub re_hyphen_break (const_repl []) (strip_invisible s))))))).
Proof. destruct s; [congruence|reflexivity]. Qed.

(** A letter-spaced word of three letters or more is joined. *)
Lemma normalize_spaced ls z :
  Forall (fun c => is_letter c = true) ls -> is_letter z = true ->
  2 <= length ls ->
  normalize_text (spaced ls z) = ls ++ [z].
Proof.
  intros Hls Hz Hlen.
  pose proof (spaced_plain ls z Hls Hz) as Hp.
  rewrite normalize_text_nonempty by (destruct ls; discriminate).
  assert (H1 : strip_invisible (spaced ls z) = spaced ls z).
  { unfold strip_invisible.
    repeat rewrite (replace_plain _ [] (spaced ls z))
      by first [reflexivity | assumption | discriminate].
    reflexivity. }
  rewrite H1.
  unfold sub at 5. rewrite (sub_from_no_match plain); [|apply hyphen_break_none|exact Hp].
  unfold sub at 4. rewrite (sub_from_no_match plain); [|apply stray_gt_none|exact Hp].
  repeat rewrite (replace_plain _ [] (spaced ls z))
    by first [reflexivity | assumption | discriminate].
  unfold sub at 3. rewrite (sub_from_no_match plain); [|apply newlines_none|exact Hp].
  rewrite sub_spaced_letters by assumption.
  unfold sub. apply (sub_from_no_match (fun c => is_letter c = true)).
  - intros bef s. apply blanks_none.
  - apply Forall_app. split; [exact Hls|]. constructor; [exact Hz|constructor].
Qed.

End SpacedFacts.

(* ===================================================================== *)
(** * The download loop *)
(* ===================================================================== *)

Module FetchFacts.

Lemma add_trace_nil s : add_trace [] s = s.
Proof. destruct s. unfold add_trace. simpl. now rewrite app_nil_r. Qed.

Lemma add_trace_app a b s : add_trace b (add_trace a s) = add_trace (a ++ b) s.
Proof. unfold add_trace. simpl. now rewrite app_assoc. Qed.

Lemma emit_eq e s : emit e s = (add_trace [e] s, inr tt).
Proof. reflexivity. Qed.

Lemma backoff_sleep_ok (sleep : Z) (i : nat) :
  (0 <= sleep)%Z -> Qle_bool 0 (inject_Z (sleep * (Z.of_nat i + 1))) = true.
Proof.
  intros H. unfold Qle_bool, inject_Z. simpl. apply Z.leb_le. nia.
Qed.

(** One failed attempt. *)
Lemma fetch_attempts_step env url sleep i rest last s e :
  (0 <= sleep)%Z ->
  http_get env (length (trace s)) url = inl e ->
  fetch_attempts env url sleep (i :: rest) last s =
  fetch_attempts env url sleep rest (Some e)
    (add_trace [EvGet url; EvSleep (inject_Z (sleep * (Z.of_nat i + 1)))] s).
Proof.
  intros Hs He. simpl. unfold bind, http_request. rewrite He. simpl.
  unfold time_sleep. rewrite backoff_sleep_ok by assumption.
  rewrite emit_eq. unfold add_trace. simpl. rewrite <- app_assoc. reflexivity.
Qed.

Lemma fetch_attempts_success env url sleep i rest last s content :
  http_get env (length (trace s)) url = inr content ->
  fetch_attempts env url sleep (i :: rest) last s =
  (add_trace [EvGet url] s, inr content).
Proof. intros He. simpl. unfold bind, http_request. rewrite He. reflexivity. Qed.

Lemma attempt_response_shift env s url evs j :
  length evs = 2 ->
  attempt_response env (add_trace evs s) url j
  = attempt_response env s url (S j).
Proof.
  intros H. unfold attempt_response, add_trace. simpl.
  rewrite length_app, H. f_equal. lia.
Qed.

(** [k] failures followed by a success. *)
Lemma fetch_attempts_first_success env url sleep :
  (0 <= sleep)%Z ->
  forall k n start last s content,
    k < n ->
    (forall j, j < k -> exists e, attempt_response env s url j = inl e) ->
    attempt_response env s url k = inr content ->
    fetch_attempts env url sleep (seq start n) last s
    = (add_trace (backoff_trace url sleep start k ++ [EvGet url]) s,
       inr content).
Proof.
  intros Hs. induction k as [|k IH]; intros n start last s content Hk Hfail Hok.
  - destruct n as [|n]; [lia|]. simpl seq.
    apply fetch_attempts_success. unfold attempt_response in Hok.
    now rewrite Nat.mul_0_r, Nat.add_0_r in Hok.
  - destruct n as [|n]; [lia|]. simpl seq.
    destruct (Hfail 0 ltac:(lia)) as [e He].
    unfold attempt_response in He. rewrite Nat.mul_0_r, Nat.add_0_r in He.
    rewrite (fetch_attempts_step _ _ _ _ _ _ _ e Hs He).
    rewrite (IH n (S start) (Some e) _ content).
    + rewrite add_trace_app. reflexivity.
    + lia.
    + intros j Hj. rewrite attempt_response_shift by reflexivity.
      apply Hfail. lia.
    + now rewrite attempt_response_shift by reflexivity.
Qed.

Lemma fetch_attempts_all_fail env url sleep :
  (0 <= sleep)%Z ->
  forall n start last s,
    (forall j, j < n -> exists e, attempt_response env s url j = inl e) ->
    fetch_attempts env url sleep (seq start n) last s
    = (add_trace (backoff_trace url sleep start n) s,
       inl (RuntimeError (download_failed url (last_cause env s url n last)))).
Proof.
  intros Hs. induction n as [|n IH]; intros start last s Hfail.
  - simpl. now rewrite add_trace_nil.
  - simpl seq. destruct (Hfail 0 ltac:(lia)) as [e He].
    pose proof He as He0.
    unfold attempt_response in He. rewrite Nat.mul_0_r, Nat.add_0_r in He.
    rewrite (fetch_attempts_step _ _ _ _ _ _ _ e Hs He).
    rewrite IH.
    + rewrite add_trace_app. simpl. f_equal. do 3 f_equal.
      destruct n as [|m]; simpl.
      * now rewrite He0.
      * now rewrite attempt_response_shift by reflexivity.
    + intros j Hj. rewrite attempt_response_shift by reflexivity.
      apply Hfail. lia.
Qed.

End FetchFacts.

(* ===================================================================== *)
(** * One row of the manifest *)
(* ===================================================================== *)

Module RowFacts.

Lemma same_store_refl s : same_store s s.
Proof. repeat split. Qed.

Lemma same_store_trans a b c : same_store a b -> same_store b c -> same_store a c.
Proof.
  intros (A1 & A2 & A3 & A4 & A5) (B1 & B2 & B3 & B4 & B5).
  repeat split; congruence.
Qed.

Lemma same_store_add_trace evs s : same_store s (add_trace evs s).
Proof. repeat split. Qed.

Lemma time_sleep_cases q s :
  (Qle_bool 0 q = true /\ time_sleep q s = (add_trace [EvSleep q] s, inr tt))
  \/ (Qle_bool 0 q = false
      /\ time_sleep q s
         = (s, inl (ValueError (lit "sleep length must be non-negative")))).
Proof.
  unfold time_sleep. destruct (Qle_bool 0 q); [left|right]; split; reflexivity.
Qed.

Lemma time_sleep_same q s s' r : time_sleep q s = (s', r) -> same_store s s'.
Proof.
  destruct (time_sleep_cases q s) as [[_ H]|[_ H]]; rewrite H; intros E;
    injection E as <- _; [apply same_store_add_trace|apply same_store_refl].
Qed.

Lemma fetch_attempts_same env url sleep attempts :
  forall last s s' r,
    fetch_attempts env url sleep attempts last s = (s', r) -> same_store s s'.
Proof.
  induction attempts as [|i rest IH]; intros last s s' r H; simpl in H.
  - injection H as <- _. apply same_store_refl.
  - unfold bind, http_request in H. simpl in H.
    destruct (http_get env (length (trace s)) url) as [e|b].
    + destruct (time_sleep _ _) as [s1 [e1|[]]] eqn:Hsl.
      * injection H as <- _. apply time_sleep_same in Hsl.
        eapply same_store_trans; [|exact Hsl]. repeat split.
      * apply time_sleep_same in Hsl. apply IH in H.
        eapply same_store_trans; [|exact H].
        eapply same_store_trans; [|exact Hsl]. repeat split.
    + injection H as <- _. repeat split.
Qed.

Lemma fetch_same env url retries sleep s s' r :
  fetch_pdf_bytes env url retries sleep s = (s', r) -> same_store s s'.
Proof. apply fetch_attempts_same. Qed.

(** The [try] body, step by step. *)
Lemma process_body_unfold env args url d_fmt p s :
  process_body env args url d_fmt p s =
  match fetch_pdf_bytes env url 3 2 s with
  | (s1, inl e) => (s1, inl e)
  | (s1, inr b) =>
      match
        (if must_write args s1 p then
           match extract_text_from_pdf_bytes env b (max_pages args) with
           | inl e => (s1, inl e)
           | inr text => write_text env p (normalize_text text) s1
           end
         else (s1, inr tt))
      with
      | (s2, inl e) => (s2, inl e)
      | (s2, inr _) => record_row env args url d_fmt p (sha256_hex env b) s2
      end
  end.
Proof.
  unfold process_body, bind, get.
  destruct (fetch_pdf_bytes env url 3 2 s) as [s1 [e|b]]; [reflexivity|].
  destruct (must_write args s1 p); [|reflexivity].
  unfold lift. destruct (extract_text_from_pdf_bytes env b (max_pages args));
    reflexivity.
Qed.

(** The state a write that raises leaves. *)
Lemma write_text_cases env p text s :
  (exists e, write_error env p = Some e
     /\ write_text env p text s = (after_failed_write env p text s, inl e))
  \/ (write_error env p = None
      /\ write_text env p text s
         = (set_texts (<[p := encode_text env text]> (texts s)) s, inr tt)).
Proof.
  unfold write_text, after_failed_write.
  destruct (write_error env p) as [e|]; [left|right; eauto].
  exists e. split; [reflexivity|]. unfold bind, modify, raise.
  destruct (write_leaves env p text); reflexivity.
Qed.

Lemma after_failed_write_store env p text s :
  meta_csv (after_failed_write env p text s) = meta_csv s
  /\ docs_json (after_failed_write env p text s) = docs_json s
  /\ docs (after_failed_write env p text s) = docs s
  /\ stdout (after_failed_write env p text s) = stdout s
  /\ trace (after_failed_write env p text s) = trace s.
Proof.
  unfold after_failed_write. destruct (write_leaves env p text);
    repeat split; reflexivity.
Qed.

Lemma record_row_stored env args url d_fmt p sha s f rel :
  texts s !! p = Some f ->
  relative_posix env p = inr rel ->
  record_row env args url d_fmt p sha s
  = time_sleep (sleep args) (stored env args url d_fmt rel sha f s).
Proof.
  intros Hf Hrel. unfold record_row, bind, stat_size, get, bind.
  rewrite Hf, Hrel. simpl. unfold read_text_or_empty, bind, get. simpl.
  rewrite Hf. simpl. unfold stored, doc_entry, meta_record, set_docs, set_meta.
  simpl. destruct (meta_csv s); reflexivity.
Qed.

Lemma record_row_no_file env args url d_fmt p sha s :
  texts s !! p = None ->
  record_row env args url d_fmt p sha s
  = (s, inl (OSError (lit "No such file or directory"))).
Proof. intros Hf. unfold record_row, bind, stat_size, get, bind. now rewrite Hf. Qed.

Lemma record_row_no_rel env args url d_fmt p sha s f e :
  texts s !! p = Some f ->
  relative_posix env p = inl e ->
  record_row env args url d_fmt p sha s = (s, inl e).
Proof.
  intros Hf Hrel. unfold record_row, bind, stat_size, get, bind.
  now rewrite Hf, Hrel.
Qed.

(** What [record_row] leaves: nothing stored and an error, or the record
    and the entry stored. *)
Lemma record_row_cases env args url d_fmt p sha s s' r :
  record_row env args url d_fmt p sha s = (s', r) ->
  (s' = s /\ exists e, r = inl e)
  \/ (exists f rel, texts s !! p = Some f /\ relative_posix env p = inr rel
        /\ same_store (stored env args url d_fmt rel sha f s) s').
Proof.
  intros H. destruct (texts s !! p) as [f|] eqn:Hf.
  - destruct (relative_posix env p) as [e|rel] eqn:Hrel.
    + rewrite (record_row_no_rel _ _ _ _ _ _ _ _ _ Hf Hrel) in H.
      injection H as <- <-. left. eauto.
    + rewrite (record_row_stored _ _ _ _ _ _ _ _ _ Hf Hrel) in H.
      right. exists f, rel. repeat split; try reflexivity.
      all: apply time_sleep_same in H; apply H.
  - rewrite (record_row_no_file _ _ _ _ _ _ _ Hf) in H.
    injection H as <- <-. left. eauto.
Qed.

End RowFacts.

Module BodyFacts.
Import RowFacts.

Lemma fetch_attempts_pdf_open f env url sleep attempts :
  forall last s,
    fetch_attempts (with_pdf_open f env) url sleep attempts last s
    = fetch_attempts env url sleep attempts last s.
Proof.
  induction attempts as [|i rest IH]; intros last s; simpl; [reflexivity|].
  unfold bind, http_request. simpl.
  destruct (http_get env (length (trace s)) url) as [e|b]; [|reflexivity].
  destruct (time_sleep _ _) as [s1 [e1|[]]]; [reflexivity|apply IH].
Qed.

Lemma must_write_iff args s p :
  must_write args s p = true
  <-> rewrite args = true \/ texts s !! p = None
      \/ exists f, texts s !! p = Some f /\ f_size f = 0.
Proof.
  unfold must_write. split.
  - intros H. apply orb_true_iff in H as [H|H]; [now left|right].
    destruct (texts s !! p) as [f|]; [right|now left].
    exists f. split; [reflexivity|]. now apply Nat.eqb_eq.
  - intros [H|[H|(f & H & Hz)]]; apply orb_true_iff.
    + now left.
    + right. now rewrite H.
    + right. rewrite H. now apply Nat.eqb_eq.
Qed.

Lemma must_write_same args s s' p :
  same_store s s' -> must_write args s' p = must_write args s p.
Proof. intros (T & _). unfold must_write. now rewrite T. Qed.

(** The [try] body when the text is kept. *)
Lemma process_body_keep env args url d_fmt p s s1 b :
  fetch_pdf_bytes env url 3 2 s = (s1, inr b) ->
  must_write args s1 p = false ->
  process_body env args url d_fmt p s
  = record_row env args url d_fmt p (sha256_hex env b) s1.
Proof. intros Hf Hw. now rewrite process_body_unfold, Hf, Hw. Qed.

(** The [try] body when the text is written. *)
Lemma process_body_write env args url d_fmt p s s1 b text :
  fetch_pdf_bytes env url 3 2 s = (s1, inr b) ->
  must_write args s1 p = true ->
  extract_text_from_pdf_bytes env b (max_pages args) = inr text ->
  write_error env p = None ->
  process_body env args url d_fmt p s
  = record_row env args url d_fmt p (sha256_hex env b)
      (set_texts (<[p := encode_text env (normalize_text text)]> (texts s1)) s1).
Proof.
  intros Hf Hw He Hwr. rewrite process_body_unfold, Hf, Hw, He.
  destruct (write_text_cases env p (normalize_text text) s1)
    as [(e & Hc & _)|[_ ->]]; [congruence|reflexivity].
Qed.





(** Every way the [try] body can end.  Either it raised before the
    metadata record was written, and then the log and the list [docs] are
    as before; or the download, the extraction and the writing (when they
    were due) succeeded, and exactly the record and the entry of the row
    were added. *)
Lemma process_body_outcome env args url d_fmt p s s' r :
  process_body env args url d_fmt p s = (s', r) ->
  (meta_csv s' = meta_csv s /\ docs s' = docs s /\ stdout s' = stdout s
   /\ exists e, r = inl e)
  \/ (exists s1 b f rel,
        fetch_pdf_bytes env url 3 2 s = (s1, inr b)
        /\ (must_write args s1 p = true ->
            exists text,
              extract_text_from_pdf_bytes env b (max_pages args) = inr text
              /\ write_error env p = None
              /\ f = encode_text env (normalize_text text))
        /\ (must_write args s1 p = false -> texts s !! p = Some f)
        /\ relative_posix env p = inr rel
        /\ texts s' !! p = Some f
        /\ meta_csv s'
           = Some (records_of (meta_csv s)
                     ++ [meta_record env url d_fmt rel (sha256_hex env b) f])
        /\ docs s' = docs s ++ [doc_entry env args url d_fmt rel f]
        /\ stdout s' = stdout s).
Proof.
  intros H. rewrite process_body_unfold in H.
  destruct (fetch_pdf_bytes env url 3 2 s) as [s1 [e|b]] eqn:Hf.
  - injection H as <- <-. apply fetch_same in Hf as (_ & M & _ & D & O).
    left. eauto 6.
  - pose proof (fetch_same _ _ _ _ _ _ _ Hf) as (T1 & M1 & _ & D1 & O1).
    destruct (must_write args s1 p) eqn:Hw.
    + destruct (extract_text_from_pdf_bytes env b (max_pages args))
        as [e|text] eqn:He.
      * injection H as <- <-. left. eauto 6.
      * destruct (write_text_cases env p (normalize_text text) s1)
          as [(e & Hc & Hwt)|[Hc Hwt]]; rewrite Hwt in H.
        -- injection H as <- <-.
           destruct (after_failed_write_store env p (normalize_text text) s1)
             as (M & _ & D & O & _).
           left. rewrite M, D, O. eauto 6.
        -- apply record_row_cases in H as [[-> [e ->]]|(f & rel & Hl & Hrel & St)].
           ++ left. simpl. eauto 6.
           ++ simpl in Hl. rewrite lookup_insert_eq in Hl. injection Hl as <-.
              destruct St as (T & M & _ & D & O). simpl in *.
              right. exists s1, b, (encode_text env (normalize_text text)), rel.
              split_and!.
              ** reflexivity.
              ** intros _. exists text. auto.
              ** intros Hmw. congruence.
              ** exact Hrel.
              ** rewrite T. apply lookup_insert_eq.
              ** now rewrite M, M1.
              ** now rewrite D, D1.
              ** now rewrite O, O1.
    + apply record_row_cases in H as [[-> [e ->]]|(f & rel & Hl & Hrel & St)].
      * left. eauto 6.
      * destruct St as (T & M & _ & D & O). simpl in *.
        right. exists s1, b, f, rel. split_and!.
        -- reflexivity.
        -- intros Hmw. congruence.
        -- intros _. now rewrite <- T1.
        -- exact Hrel.
        -- now rewrite T.
        -- now rewrite M, M1.
        -- now rewrite D, D1.
        -- now rewrite O, O1.
Qed.

End BodyFacts.

(* ===================================================================== *)
(** * A whole run *)
(* ===================================================================== *)

Module RunFacts.
Import RowFacts.

Lemma no_url_spells_nan url : spells_nan url -> no_url url = true.
Proof.
  intros (c1 & c2 & c3 & rest & -> & H1 & H2 & H3).
  destruct H1 as [-> | ->], H2 as [-> | ->], H3 as [-> | ->]; reflexivity.
Qed.

Lemma process_row_skip_resumed env args done s r :
  resume args = true -> row_url args r ∈ done ->
  process_row env args done s r = s.
Proof.
  intros Hr Hd. unfold process_row. destruct (no_url _); [reflexivity|].
  rewrite Hr. simpl. now rewrite bool_decide_eq_true_2.
Qed.

Lemma fold_left_all_skipped env args done rows :
  forall s,
    (forall r, r ∈ rows -> process_row env args done s r = s) ->
    fold_left (process_row env args done) rows s = s.
Proof.
  induction rows as [|r rows IH]; intros s H; simpl; [reflexivity|].
  rewrite (H r) by apply list_elem_of_here. apply IH.
  intros r' Hr'. apply H. now apply list_elem_of_further.
Qed.

(** A skipped row raises nothing: the skip tests come first. *)
Lemma raised_before_try_no_url env args done r :
  no_url (row_url args r) = true -> raised_before_try env args done r = None.
Proof. intros H. unfold raised_before_try. now rewrite H. Qed.

Lemma raised_before_try_resumed env args done r :
  resume args = true -> row_url args r ∈ done ->
  raised_before_try env args done r = None.
Proof.
  intros Hr Hd. unfold raised_before_try. destruct (no_url _); [reflexivity|].
  rewrite Hr. simpl. now rewrite bool_decide_eq_true_2.
Qed.

Lemma raised_before_try_quiet env args done r :
  (forall d_fmt url, path_error env d_fmt url = None) ->
  raised_before_try env args done r = None.
Proof.
  intros H. unfold raised_before_try. destruct (no_url _); [reflexivity|].
  destruct (_ && _); [reflexivity|apply H].
Qed.

(** A loop that no exception leaves is the fold of its iterations. *)
Lemma process_rows_fold env args done rows :
  forall s s',
    process_rows env args done rows s = (s', None) ->
    s' = fold_left (process_row env args done) rows s.
Proof.
  induction rows as [|r rows IH]; intros s s' H; simpl in *.
  - now injection H as <-.
  - destruct (raised_before_try env args done r); [discriminate|].
    now apply IH.
Qed.

Lemma process_rows_quiet env args done rows :
  forall s,
    (forall r, r ∈ rows -> raised_before_try env args done r = None) ->
    process_rows env args done rows s
    = (fold_left (process_row env args done) rows s, None).
Proof.
  induction rows as [|r rows IH]; intros s H; simpl; [reflexivity|].
  rewrite (H r) by apply list_elem_of_here. apply IH.
  intros r' Hr'. apply H. now apply list_elem_of_further.
Qed.

(** A loop that an exception leaves stopped at the first row that raised
    one before its [try]. *)
Lemma process_rows_raised env args done rows :
  forall s s' e,
    process_rows env args done rows s = (s', Some e) ->
    exists before r after,
      rows = before ++ r :: after
      /\ (forall r', r' ∈ before -> raised_before_try env args done r' = None)
      /\ raised_before_try env args done r = Some e
      /\ s' = fold_left (process_row env args done) before s.
Proof.
  induction rows as [|r rows IH]; intros s s' e H; simpl in H; [discriminate|].
  destruct (raised_before_try env args done r) as [e'|] eqn:Hr.
  - injection H as <- <-. exists [], r, rows. split_and!; auto.
    intros r' Hr'. inversion Hr'.
  - apply IH in H as (before & r0 & after & -> & Hq & Hr0 & ->).
    exists (r :: before), r0, after. split_and!; auto.
    intros r' Hr'. apply elem_of_cons in Hr' as [->|Hr']; auto.
Qed.

(** A run that ends normally: the state it leaves. *)
Lemma main_finished env args df s s' :
  main env args df s = Finished s' ->
  s' = set_docs_json
         (DocsList (docs (fold_left (process_row env args (load_done args s))
                            (selected_rows args df) (load_docs (open_meta s)))))
         (fold_left (process_row env args (load_done args s))
            (selected_rows args df) (load_docs (open_meta s))).
Proof.
  unfold main. destruct (bool_decide _); [|discriminate].
  destruct (process_rows _ _ _ _ _) as [st [e|]] eqn:Hp; [discriminate|].
  intros H. injection H as <-. apply process_rows_fold in Hp. now subst st.
Qed.

(** A run in which nothing is raised outside the [try] ends normally. *)
Lemma main_quiet env args df s :
  col_url args ∈ columns df ->
  (forall r, r ∈ selected_rows args df ->
             raised_before_try env args (load_done args s) r = None) ->
  main env args df s
  = Finished
      (set_docs_json
         (DocsList (docs (fold_left (process_row env args (load_done args s))
                            (selected_rows args df) (load_docs (open_meta s)))))
         (fold_left (process_row env args (load_done args s))
            (selected_rows args df) (load_docs (open_meta s)))).
Proof.
  intros Hcol Hq. unfold main. rewrite bool_decide_eq_true_2 by exact Hcol.
  now rewrite process_rows_quiet.
Qed.

Lemma slice_to_sublist {A} (n : Z) (l : list A) : sublist (slice_to n l) l.
Proof. unfold slice_to. destruct (n <? 0)%Z; apply sublist_take. Qed.

Lemma selected_rows_sublist args df :
  sublist (selected_rows args df) (to_dict_records df).
Proof. apply slice_to_sublist. Qed.

Lemma selected_rows_elem args df r :
  r ∈ selected_rows args df -> r ∈ to_dict_records df.
Proof. apply sublist_subseteq, selected_rows_sublist. Qed.

(** What a row adds to the list [docs]. *)
Lemma process_row_docs env args done s r :
  docs (process_row env args done s r) = docs s
  \/ (exists e,
        docs (process_row env args done s r) = docs s ++ [e]
        /\ d_pdf_url e = row_url args r
        /\ no_url (row_url args r) = false
        /\ (resume args = true -> row_url args r ∉ done)).
Proof.
  unfold process_row. destruct (no_url (row_url args r)) eqn:Hu; [now left|].
  destruct (resume args && bool_decide (row_url args r ∈ done)) eqn:Hd;
    [now left|].
  destruct (process_body _ _ _ _ _ _) as [s' res] eqn:Hb.
  apply BodyFacts.process_body_outcome in Hb
    as [(_ & D & _ & e & ->)|(s1 & b & f & rel & _ & _ & _ & _ & _ & _ & D & _)].
  - left. exact D.
  - right. eexists. split_and!.
    + destruct res; simpl; exact D.
    + reflexivity.
    + reflexivity.
    + intros Hr. rewrite Hr in Hd. simpl in Hd.
      now apply bool_decide_eq_false_1 in Hd.
Qed.

(** What a run adds to the list [docs]: entries for some of the candidate
    URLs, in manifest order, none of them in the resume set. *)
Lemma fold_left_docs env args done rows :
  forall s,
    exists us,
      map d_pdf_url (docs (fold_left (process_row env args done) rows s))
      = map d_pdf_url (docs s) ++ us
      /\ sublist us (candidate_urls args rows)
      /\ (resume args = true -> forall u, u ∈ us -> u ∉ done).
Proof.
  unfold candidate_urls.
  induction rows as [|r rows IH]; intros s; simpl.
  - exists []. rewrite app_nil_r. split_and!; [reflexivity|constructor|].
    intros _ u Hu. inversion Hu.
  - destruct (IH (process_row env args done s r)) as (us & E & Hsub & Hdone).
    destruct (process_row_docs env args done s r)
      as [D|(e & D & Hurl & Hno & Hnd)].
    + exists us. rewrite E, D. split_and!; [reflexivity| |exact Hdone].
      destruct (negb (no_url (row_url args r))); [now apply sublist_cons|exact Hsub].
    + exists (row_url args r :: us). rewrite E, D, map_app. simpl.
      rewrite Hurl, <- app_assoc. simpl. split_and!; [reflexivity| |].
      * rewrite Hno. simpl. now apply sublist_skip.
      * intros Hr u Hu. apply elem_of_cons in Hu as [->|Hu]; auto.
Qed.

End RunFacts.

Module ManifestFacts.

Lemma named_keys (ls : list label) :
  forall (row : list cell) k,
    k ∈ (omap named_cell (zip ls row)).*1 -> k ∈ omap label_str ls.
Proof.
  induction ls as [|l ls IH]; intros [|c row] k H; simpl in H;
    try (now inversion H).
  unfold named_cell in H at 1. simpl in H |- *.
  destruct (label_str l) as [name|]; simpl in H |- *.
  - apply elem_of_cons in H as [->|H]; [apply list_elem_of_here|].
    apply list_elem_of_further. eapply IH, H.
  - eapply IH, H.
Qed.

Lemma rev_keys {A} (l : list (str * A)) k : k ∈ (rev l).*1 -> k ∈ l.*1.
Proof.
  intros H. apply list_elem_of_fmap in H as (x & -> & Hx).
  apply list_elem_of_fmap. exists x. split; [reflexivity|].
  apply list_elem_of_In. apply list_elem_of_In in Hx. now apply in_rev.
Qed.

Lemma record_keys df r k :
  r ∈ to_dict_records df -> k ∉ columns df -> r !! k = None.
Proof.
  intros Hr Hk. unfold to_dict_records in Hr.
  apply list_elem_of_In, in_map_iff in Hr as (row & <- & _).
  apply not_elem_of_list_to_map_1. intros Hin. apply Hk.
  eapply named_keys, rev_keys, Hin.
Qed.

(** The records of the manifest with one more column of empty strings. *)
Lemma to_dict_records_blank name df :
  name ∉ columns df ->
  to_dict_records (with_blank_column name df)
  = map (fun r => <[name := CStr []]> r) (to_dict_records df).
Proof.
  intros Hn. unfold to_dict_records, with_blank_column. simpl.
  rewrite !map_map. apply map_ext. intros row. simpl.
  change (named_cell (LStr name, CStr [])) with (Some (name, CStr [])).
  simpl. apply list_to_map_snoc. intros Hin. apply Hn.
  eapply named_keys, rev_keys, Hin.
Qed.

Lemma slice_to_map {A B} (f : A -> B) (n : Z) (l : list A) :
  slice_to n (map f l) = map f (slice_to n l).
Proof. unfold slice_to. rewrite length_map. destruct (n <? 0)%Z; apply firstn_map. Qed.

Lemma selected_rows_blank name args df :
  name ∉ columns df ->
  selected_rows args (with_blank_column name df)
  = map (fun r => <[name := CStr []]> r) (selected_rows args df).
Proof.
  intros Hn. unfold selected_rows. rewrite (to_dict_records_blank _ _ Hn).
  rewrite length_map. apply slice_to_map.
Qed.

(** An iteration reads its row at the two configured columns only. *)
Lemma process_row_ext env args done s r r' :
  r' !! col_url args = r !! col_url args ->
  default (CStr []) (r' !! col_date args)
  = default (CStr []) (r !! col_date args) ->
  process_row env args done s r' = process_row env args done s r
  /\ raised_before_try env args done r' = raised_before_try env args done r.
Proof.
  intros Hu Hd. unfold process_row, raised_before_try, row_url.
  now rewrite Hu, Hd.
Qed.

Lemma process_rows_ext (env : Env) (args : Args) (done : gset str)
    (f : gmap str cell -> gmap str cell) (rows : list (gmap str cell)) :
  forall s : State,
    (forall r, r ∈ rows ->
       f r !! col_url args = r !! col_url args
       /\ default (CStr []) (f r !! col_date args)
          = default (CStr []) (r !! col_date args)) ->
    process_rows env args done (map f rows) s
    = process_rows env args done rows s.
Proof.
  induction rows as [|r rows IH]; intros s H; simpl; [reflexivity|].
  destruct (H r (list_elem_of_here _ _)) as [Hu Hd].
  destruct (process_row_ext env args done s r (f r) Hu Hd) as [-> ->].
  destruct (raised_before_try env args done r); [reflexivity|].
  apply IH. intros r' Hr'. apply H. now apply list_elem_of_further.
Qed.

(** Without its date column a manifest runs as with one of empty
    strings. *)
Lemma main_blank_date env args df s :
  col_url args ∈ columns df -> col_date args ∉ columns df ->
  main env args (with_blank_column (col_date args) df) s = main env args df s.
Proof.
  intros Hu Hd. unfold main.
  rewrite (bool_decide_eq_true_2 _ Hu).
  rewrite bool_decide_eq_true_2
    by (unfold columns, with_blank_column; simpl; now apply list_elem_of_further).
  rewrite (selected_rows_blank _ _ _ Hd).
  rewrite process_rows_ext; [reflexivity|].
  intros r Hr. apply RunFacts.selected_rows_elem in Hr.
  pose proof (record_keys df r (col_date args) Hr Hd) as Hnone.
  split.
  - apply lookup_insert_ne. intros E. apply Hd. now rewrite E.
  - rewrite lookup_insert_eq, Hnone. reflexivity.
Qed.

End ManifestFacts.

Module CountFacts.
Import RowFacts.



Lemma raised_before_try_skipped env args done r :
  skipped args done r = true -> raised_before_try env args done r = None.
Proof.
  unfold skipped, raised_before_try. intros H.
  destruct (no_url _); [reflexivity|]. simpl in H. now rewrite H.
Qed.








End CountFacts.

(* ===================================================================== *)
(** * The claims of the specification *)
(* ===================================================================== *)

(** ** C1: idempotence of normalisation *)

(** C1, as the specification states it, fails: normalising [a  b  c]
    (two spaces between the letters) gives [a b c], and normalising that
    gives [abc]. *)
Lemma normalize_text_not_idempotent :
  normalize_text (normalize_text (lit "a  b  c"))
    <> normalize_text (lit "a  b  c").
Proof. vm_compute. discriminate. Qed.

(** C1, amended: [normalize_text] never lengthens a text and changes it
    only by making it strictly shorter; it is idempotent at [T] exactly
    when its second application keeps the length; and applying it
    [len(T)] times reaches a text on which it is a no-op. *)
Theorem normalize_text_settles (T : str) :
  length (normalize_text T) <= length T
  /\ (normalize_text T <> T -> length (normalize_text T) < length T)
  /\ (normalize_text (normalize_text T) = normalize_text T
      <-> length (normalize_text (normalize_text T))
          = length (normalize_text T))
  /\ normalize_text (normalize_rounds (length T) T)
     = normalize_rounds (length T) T.
Proof.
  destruct (NormFacts.normalize_text_shrinks T) as [L E].
  destruct (NormFacts.normalize_text_shrinks (normalize_text T)) as [L' E'].
  repeat split.
  - exact L.
  - intros Hne. destruct (Nat.eq_dec (length (normalize_text T)) (length T)) as [Heq|]; [|lia].
    exfalso. apply Hne, E, Heq.
  - intros ->. reflexivity.
  - exact E'.
  - now apply NormFacts.normalize_rounds_settle.
Qed.

(** The amended statement at the text [a  b  c]. *)
Lemma normalize_text_settles_witness :
  normalize_text (lit "a  b  c") <> lit "a  b  c"
  /\ length (normalize_text (lit "a  b  c")) < length (lit "a  b  c").
Proof.
  assert (H : normalize_text (lit "a  b  c") <> lit "a  b  c")
    by (vm_compute; discriminate).
  split; [exact H|].
  destruct (normalize_text_settles (lit "a  b  c")) as (_ & Hlt & _).
  exact (Hlt H).
Defined.

(** ** C2: one snippet entry per URL *)

(** C2, as the specification states it, fails: a second run over the same
    one-row manifest, without [--resume], leaves two entries for its
    URL. *)
Lemma rerun_duplicates_entry :
  index_urls (main demo_env demo_args one_row_df after_first_run)
  = [url_a; url_a].
Proof. vm_compute. reflexivity. Qed.

(** C2, amended: with [--resume], when the previous index has one entry
    per URL, each of its URLs is in the metadata log, and no URL occurs
    twice among the rows processed, the index the run writes has at most
    one entry per URL; and the run does write it, ending normally, when
    no row raises an exception outside the [try]. *)
Theorem resumed_run_keeps_urls_unique (env : Env) (args : Args)
    (df : DataFrame) (s : State) :
  resume args = true ->
  col_url args ∈ columns df ->
  NoDup (map d_pdf_url (entries_of (docs_json s))) ->
  (forall u, u ∈ map d_pdf_url (entries_of (docs_json s)) ->
             u ∈ map m_pdf_url (records_of (meta_csv s))) ->
  NoDup (candidate_urls args (selected_rows args df)) ->
  (forall s',
      main env args df s = Finished s' ->
      docs_json s' = DocsList (docs s')
      /\ NoDup (map d_pdf_url (docs s')))
  /\ ((forall r, r ∈ selected_rows args df ->
                 raised_before_try env args (load_done args s) r = None) ->
      exists s', main env args df s = Finished s').
Proof.
  intros Hr Hcol Hprior Hlogged Hrows.
  split; [|intros Hq; rewrite (RunFacts.main_quiet _ _ _ _ Hcol Hq); eauto].
  intros s' Hs'. apply RunFacts.main_finished in Hs'. subst s'.
  split; [reflexivity|].
  simpl.
  destruct (RunFacts.fold_left_docs env args (load_done args s)
              (selected_rows args df) (load_docs (open_meta s)))
    as (us & E & Hsub & Hdone).
  rewrite E. apply NoDup_app. split_and!.
  - unfold load_docs, open_meta. destruct (meta_csv s); exact Hprior.
  - intros u Hu Hus. apply (Hdone Hr u Hus).
    assert (Hu' : u ∈ map d_pdf_url (entries_of (docs_json s))).
    { unfold load_docs, open_meta in Hu. now destruct (meta_csv s). }
    apply Hlogged in Hu'. unfold load_done. rewrite Hr.
    destruct (meta_csv s) as [recs|]; simpl in Hu'.
    + now apply elem_of_list_to_set.
    + inversion Hu'.
  - eapply sublist_NoDup; eassumption.
Qed.

(** The amended statement at a resumed second run over the same
    manifest. *)
Lemma resumed_run_keeps_urls_unique_witness :
  resume resume_args = true
  /\ NoDup (map d_pdf_url (entries_of (docs_json after_first_run)))
  /\ exists s',
       main demo_env resume_args one_row_df after_first_run = Finished s'
       /\ docs_json s' = DocsList (docs s')
       /\ NoDup (map d_pdf_url (docs s')).
Proof.
  assert (Hr : resume resume_args = true) by reflexivity.
  assert (Hc : col_url resume_args ∈ columns one_row_df).
  { apply list_elem_of_further, list_elem_of_here. }
  assert (Hp : NoDup (map d_pdf_url (entries_of (docs_json after_first_run)))).
  { vm_compute. apply NoDup_singleton. }
  split; [exact Hr|]. split; [exact Hp|].
  destruct (resumed_run_keeps_urls_unique demo_env resume_args one_row_df
              after_first_run Hr Hc Hp) as [Hnodup Hends].
  - intros u Hu. vm_compute in Hu. vm_compute. exact Hu.
  - vm_compute. apply NoDup_singleton.
  - destruct Hends as [s' Hs'].
    { intros r _. now apply RunFacts.raised_before_try_quiet. }
    exists s'. split; [exact Hs'|]. exact (Hnodup s' Hs').
Defined.

(** ** C3: the retrying download *)

(** C3: with a non-negative back-off, [fetch_pdf_bytes] requests the URL
    once per attempt, at most [retries] times; after the failed attempt
    number [i] (from 1) it sleeps [sleep * i]; it returns the body of the
    first attempt that succeeds; and when all [retries] attempts fail it
    raises [RuntimeError] with a message made of the URL and the cause of
    the last attempt. *)
Theorem fetch_pdf_bytes_retries (env : Env) (url : str) (retries sleep : Z)
    (s : State) :
  (0 <= sleep)%Z ->
  (forall k content,
      k < Z.to_nat retries ->
      (forall j, j < k -> exists e, attempt_response env s url j = inl e) ->
      attempt_response env s url k = inr content ->
      fetch_pdf_bytes env url retries sleep s
      = (add_trace (backoff_trace url sleep 0 k ++ [EvGet url]) s, inr content))
  /\ (forall e,
      (0 < retries)%Z ->
      (forall j, j < Z.to_nat retries ->
                 exists e', attempt_response env s url j = inl e') ->
      attempt_response env s url (Z.to_nat retries - 1) = inl e ->
      fetch_pdf_bytes env url retries sleep s
      = (add_trace (backoff_trace url sleep 0 (Z.to_nat retries)) s,
         inl (RuntimeError
                (lit "Descarga fallida: " ++ url ++ lit " -> " ++ exn_str e)))).
Proof.
  intros Hs. split.
  - intros k content Hk Hfail Hok. unfold fetch_pdf_bytes.
    now apply FetchFacts.fetch_attempts_first_success.
  - intros e Hr Hfail Hlast. unfold fetch_pdf_bytes.
    rewrite FetchFacts.fetch_attempts_all_fail by assumption.
    do 3 f_equal. unfold download_failed. do 3 f_equal.
    unfold last_cause.
    destruct (Z.to_nat retries) as [|m] eqn:Hn; [lia|].
    replace (S m - 1) with m in Hlast by lia. now rewrite Hlast.
Qed.

(** The statement at a URL answered on the second attempt and at a URL
    never answered. *)
Lemma fetch_pdf_bytes_retries_witness :
  (0 <= 2)%Z
  /\ fetch_pdf_bytes demo_env url_flaky 3 2 empty_state
     = (add_trace [EvGet url_flaky; EvSleep 2; EvGet url_flaky] empty_state,
        inr [Byte.x25; Byte.x50; Byte.x44; Byte.x46])
  /\ fetch_pdf_bytes demo_env url_b 3 2 empty_state
     = (add_trace [EvGet url_b; EvSleep 2; EvGet url_b; EvSleep 4;
                   EvGet url_b; EvSleep 6] empty_state,
        inl (RuntimeError
               (lit "Descarga fallida: http://bad/b.pdf -> 404 Client Error"))).
Proof.
  assert (Hs : (0 <= 2)%Z) by lia.
  split; [exact Hs|]. split.
  - destruct (fetch_pdf_bytes_retries demo_env url_flaky 3 2 empty_state Hs)
      as [Hok _].
    apply (Hok 1 [Byte.x25; Byte.x50; Byte.x44; Byte.x46]).
    + vm_compute. lia.
    + intros j Hj. destruct j as [|j]; [|lia]. eexists. reflexivity.
    + reflexivity.
  - destruct (fetch_pdf_bytes_retries demo_env url_b 3 2 empty_state Hs)
      as [_ Hfail].
    apply (Hfail (RequestException (lit "404 Client Error"))).
    + lia.
    + intros j _. eexists. reflexivity.
    + reflexivity.
Defined.

(** ** C4: the manifest check *)

(** C4, as the specification states it, fails for the date column: the
    manifest [undated_df] has no date column, yet the run ends normally
    and its row is downloaded. *)
Lemma missing_date_column_runs :
  (col_date demo_args ∉ columns undated_df)
  /\ exit_status (main demo_env demo_args undated_df empty_state) = 0%Z
  /\ trace (final_state (main demo_env demo_args undated_df empty_state))
     = [EvGet url_a; EvSleep (1 # 2)].
Proof.
  split_and!; [|reflexivity|vm_compute; reflexivity].
  intros H. apply list_elem_of_singleton in H. discriminate H.
Qed.

(** C4, amended: when the URL column is not among the labels of the
    manifest, [main] ends with [SystemExit], status 1, and the message
    [No encuentro la columna URL '<name>'. Columnas: <labels>], the
    labels written as Python writes a list, whatever the rows and the
    environment are.  The date column is not required: when the URL
    column is there and the date column is not, the run does not end with
    that [SystemExit], every row has the empty string for its date, and
    the run is the run over the same manifest with a date column of empty
    strings added. *)
Theorem missing_url_column_aborts (env : Env) (args : Args)
    (df : DataFrame) (s : State) :
  (col_url args ∉ columns df ->
   main env args df s
   = SystemExit (lit "No encuentro la columna URL '" ++ col_url args
                   ++ lit "'. Columnas: " ++ repr_columns (labels df))
   /\ exit_status (main env args df s) = 1%Z)
  /\ (col_url args ∈ columns df -> col_date args ∉ columns df ->
      (forall msg, main env args df s <> SystemExit msg)
      /\ (forall r, r ∈ to_dict_records df ->
            default (CStr []) (r !! col_date args) = CStr [])
      /\ main env args df s
         = main env args (with_blank_column (col_date args) df) s).
Proof.
  split.
  - intros H. unfold main. rewrite bool_decide_eq_false_2 by exact H.
    split; reflexivity.
  - intros Hu Hd. split_and!.
    + intros msg. unfold main. rewrite bool_decide_eq_true_2 by exact Hu.
      destruct (process_rows _ _ _ _ _) as [st [e|]]; discriminate.
    + intros r Hr. now rewrite (ManifestFacts.record_keys df r _ Hr Hd).
    + symmetry. now apply ManifestFacts.main_blank_date.
Qed.

(** The amended statement at a manifest without the URL column, whose
    labels are a name with an apostrophe, a plain name and a number; and
    at a manifest without the date column. *)
Lemma missing_url_column_aborts_witness :
  (col_url demo_args ∉ columns quoted_df)
  /\ main demo_env demo_args quoted_df empty_state
     = SystemExit
         (lit "No encuentro la columna URL 'documento'. Columnas: ["
            ++ [QUOTE] ++ lit "l'url" ++ [QUOTE] ++ lit ", 'fecha', 2020]")
  /\ exit_status (main demo_env demo_args quoted_df empty_state) = 1%Z
  /\ main demo_env demo_args undated_df empty_state
     = main demo_env demo_args
         (with_blank_column (lit "fecha") undated_df) empty_state.
Proof.
  assert (H : col_url demo_args ∉ columns quoted_df).
  { intros H. vm_compute in H.
    repeat (apply elem_of_cons in H as [H|H]; [discriminate H|]).
    inversion H. }
  split; [exact H|].
  destruct (missing_url_column_aborts demo_env demo_args quoted_df empty_state)
    as [Habort _].
  destruct (Habort H) as [Hmsg Hstatus].
  split; [exact Hmsg|]. split; [exact Hstatus|].
  destruct (missing_url_column_aborts demo_env demo_args undated_df empty_state)
    as [_ Hdate].
  apply Hdate.
  - apply list_elem_of_here.
  - intros Hin. apply list_elem_of_singleton in Hin. discriminate Hin.
Defined.

(** ** C5: resuming *)

(** C5: with [--resume], a row whose URL is in the resume set leaves the
    state as it was; and when every URL of the manifest is in the
    metadata log, the run makes no request and no sleep, adds no record
    to the log, and changes no text file and no output. *)
Theorem resume_skips_logged (env : Env) (args : Args) (df : DataFrame)
    (s : State) :
  resume args = true ->
  (forall done st r,
      row_url args r ∈ done -> process_row env args done st r = st)
  /\ (col_url args ∈ columns df ->
      (forall r, r ∈ to_dict_records df ->
         row_url args r ∈ map m_pdf_url (records_of (meta_csv s))) ->
      exists s',
        main env args df s = Finished s'
        /\ trace s' = trace s
        /\ records_of (meta_csv s') = records_of (meta_csv s)
        /\ texts s' = texts s
        /\ stdout s' = stdout s).
Proof.
  intros Hr. split.
  - intros done st r Hd. now apply RunFacts.process_row_skip_resumed.
  - intros Hcol Hall.
    assert (Hdone : forall r, r ∈ selected_rows args df ->
                              row_url args r ∈ load_done args s).
    { intros r Hin. apply RunFacts.selected_rows_elem, Hall in Hin.
      unfold load_done. rewrite Hr.
      destruct (meta_csv s) as [recs|]; simpl in Hin.
      - now apply elem_of_list_to_set.
      - inversion Hin. }
    rewrite RunFacts.main_quiet;
      [|exact Hcol
       |intros r Hin; apply RunFacts.raised_before_try_resumed; auto].
    eexists. split; [reflexivity|].
    rewrite RunFacts.fold_left_all_skipped.
    + unfold load_docs, open_meta. destruct (meta_csv s) eqn:Hm; simpl;
        rewrite ?Hm; auto.
    + intros r Hin. apply RunFacts.process_row_skip_resumed; auto.
Qed.

(** The statement at a resumed second run over the same manifest. *)
Lemma resume_skips_logged_witness :
  resume resume_args = true
  /\ col_url resume_args ∈ columns one_row_df
  /\ exists s',
       main demo_env resume_args one_row_df after_first_run = Finished s'
       /\ trace s' = trace after_first_run
       /\ records_of (meta_csv s') = records_of (meta_csv after_first_run)
       /\ texts s' = texts after_first_run
       /\ stdout s' = stdout after_first_run.
Proof.
  assert (Hr : resume resume_args = true) by reflexivity.
  assert (Hc : col_url resume_args ∈ columns one_row_df).
  { apply list_elem_of_further, list_elem_of_here. }
  split; [exact Hr|]. split; [exact Hc|].
  destruct (resume_skips_logged demo_env resume_args one_row_df
              after_first_run Hr) as [_ Hrun].
  apply (Hrun Hc).
  intros r Hin. apply list_elem_of_singleton in Hin. rewrite Hin.
  vm_compute. apply list_elem_of_here.
Defined.

(** ** C6: skip or rewrite *)

(** C6: once the download of a row has succeeded, the text is extracted,
    normalised and written exactly when [--rewrite] is set, or no file is
    at the path, or the file there has length zero.  When it is written,
    the file holds the normalised extraction.  Otherwise no file changes,
    the PDF library plays no part in the result, and the snippet is made
    from the text already in the file. *)
Theorem skip_or_rewrite_policy (env : Env) (args : Args)
    (url d_fmt p : str) (s s1 : State) (b : bytes) :
  fetch_pdf_bytes env url 3 2 s = (s1, inr b) ->
  (must_write args s1 p = true
   <-> rewrite args = true \/ texts s !! p = None
       \/ exists f, texts s !! p = Some f /\ f_size f = 0)
  /\ (must_write args s1 p = true ->
      forall text,
        extract_text_from_pdf_bytes env b (max_pages args) = inr text ->
        write_error env p = None ->
        texts (fst (process_body env args url d_fmt p s)) !! p
        = Some (encode_text env (normalize_text text)))
  /\ (must_write args s1 p = false ->
      exists old,
        texts s !! p = Some old
        /\ texts (fst (process_body env args url d_fmt p s)) = texts s
        /\ (forall pdf,
              process_body (with_pdf_open pdf env) args url d_fmt p s
              = process_body env args url d_fmt p s)
        /\ (forall rel,
              relative_posix env p = inr rel ->
              docs (fst (process_body env args url d_fmt p s))
              = docs s ++ [doc_entry env args url d_fmt rel old])).
Proof.
  intros Hf.
  pose proof (RowFacts.fetch_same _ _ _ _ _ _ _ Hf) as Hsame.
  pose proof Hsame as (T1 & M1 & _ & D1 & O1).
  split; [|split].
  - rewrite BodyFacts.must_write_iff, T1. reflexivity.
  - intros Hw text He Hwr.
    rewrite (BodyFacts.process_body_write _ _ _ _ _ _ _ _ _ Hf Hw He Hwr).
    destruct (record_row _ _ _ _ _ _ _) as [s' r] eqn:Hr.
    apply RowFacts.record_row_cases in Hr
      as [[-> _]|(f & rel & _ & _ & (T & _))]; simpl.
    + apply lookup_insert_eq.
    + rewrite T. simpl. apply lookup_insert_eq.
  - intros Hw.
    assert (Hold : exists old, texts s !! p = Some old).
    { unfold must_write in Hw. apply orb_false_iff in Hw as [_ Hw].
      rewrite T1 in Hw. destruct (texts s !! p) as [f|]; [eauto|discriminate]. }
    destruct Hold as [old Hold]. exists old. split; [exact Hold|].
    rewrite (BodyFacts.process_body_keep _ _ _ _ _ _ _ _ Hf Hw).
    split; [|split].
    + destruct (record_row _ _ _ _ _ _ _) as [s' r] eqn:Hr.
      apply RowFacts.record_row_cases in Hr
        as [[-> _]|(f & rel & _ & _ & (T & _))]; simpl; [exact T1|].
      rewrite T. simpl. exact T1.
    + intros pdf.
      assert (Hf' : fetch_pdf_bytes (with_pdf_open pdf env) url 3 2 s
                    = (s1, inr b)).
      { unfold fetch_pdf_bytes.
        rewrite BodyFacts.fetch_attempts_pdf_open. exact Hf. }
      rewrite (BodyFacts.process_body_keep _ _ _ _ _ _ _ _ Hf' Hw).
      reflexivity.
    + intros rel Hrel. rewrite <- T1 in Hold.
      rewrite (RowFacts.record_row_stored _ _ _ _ _ _ _ _ _ Hold Hrel).
      destruct (time_sleep _ _) as [s' r] eqn:Hs.
      apply RowFacts.time_sleep_same in Hs as (_ & _ & _ & D & _).
      simpl. rewrite D. simpl. now rewrite D1.
Qed.

(** The statement at a first download, where no text file exists yet. *)
Lemma skip_or_rewrite_policy_witness :
  fetch_pdf_bytes demo_env url_a 3 2 empty_state
  = (add_trace [EvGet url_a] empty_state,
     inr [Byte.x25; Byte.x50; Byte.x44; Byte.x46])
  /\ texts (fst (process_body demo_env demo_args url_a (lit "2020-01-02")
                   (lit "texts/a.txt") empty_state)) !! lit "texts/a.txt"
     = Some {| f_size := 11; f_text := lit "trabajo" ++ [LF] ++ lit "fin" |}.
Proof.
  assert (Hf : fetch_pdf_bytes demo_env url_a 3 2 empty_state
               = (add_trace [EvGet url_a] empty_state,
                  inr [Byte.x25; Byte.x50; Byte.x44; Byte.x46]))
    by reflexivity.
  split; [exact Hf|].
  destruct (skip_or_rewrite_policy demo_env demo_args url_a (lit "2020-01-02")
              (lit "texts/a.txt") _ _ _ Hf) as (_ & Hwrite & _).
  apply (Hwrite eq_refl (lit "t r a b a j o" ++ [LF] ++ lit "fin"));
    reflexivity.
Defined.

(** ** C7: failure isolation *)




(** ** C8: letter-spaced words *)

(** C8: a word of three or more letters of the class, written with one
    space between its letters and alone in the text, is joined, as is
    the first example of the specification, and [a b] is left as it is.
    But at the input [a b\nc] the two letters [a b] are followed by a
    line break and a third letter, the pattern takes the line break for a
    separator too, and the space between [a] and [b] is removed. *)
Theorem letter_spacing_rejoin :
  (forall ls z,
      Forall (fun c => is_letter c = true) ls -> is_letter z = true ->
      2 <= length ls ->
      normalize_text (spaced ls z) = ls ++ [z])
  /\ normalize_text (lit "t r a b a j o") = lit "trabajo"
  /\ normalize_text (lit "a b") = lit "a b"
  /\ normalize_text (lit "a b" ++ [LF] ++ lit "c") = lit "ab" ++ [LF] ++ lit "c".
Proof.
  split; [exact SpacedFacts.normalize_spaced|].
  split_and!; vm_compute; reflexivity.
Qed.

(** The statement at the letters of [camino]. *)
Lemma letter_spacing_rejoin_witness :
  Forall (fun c => is_letter c = true) (lit "camin")
  /\ normalize_text (lit "c a m i n o") = lit "camino".
Proof.
  assert (H : Forall (fun c => is_letter c = true) (lit "camin")).
  { repeat constructor. }
  split; [exact H|].
  destruct letter_spacing_rejoin as [Hjoin _].
  apply (Hjoin (lit "camin") 111%N H); [reflexivity|simpl; lia].
Defined.

(** ** C9: snippets *)



(** ** C10: rows without a URL *)

(** C10: a row whose URL cell, as a stripped string, is empty or begins
    with [nan] in any mix of cases leaves the state as it was: no
    request, no metadata record, no snippet entry. *)
Theorem blank_or_nan_url_skipped (env : Env) (args : Args) (done : gset str)
    (s : State) (r : gmap str cell) :
  row_url args r = [] \/ spells_nan (row_url args r) ->
  process_row env args done s r = s.
Proof.
  intros H. unfold process_row.
  assert (Hno : no_url (row_url args r) = true).
  { destruct H as [->|H]; [reflexivity|now apply RunFacts.no_url_spells_nan]. }
  now rewrite Hno.
Qed.

(** The statement at a URL that begins with [Nan]. *)
Lemma blank_or_nan_url_skipped_witness :
  spells_nan (row_url demo_args nan_row)
  /\ process_row demo_env demo_args ∅ empty_state nan_row = empty_state.
Proof.
  assert (H : spells_nan (row_url demo_args nan_row)).
  { exists 78%N, 97%N, 110%N, (lit "tes.example/boletin.pdf").
    split; [vm_compute; reflexivity|]. auto. }
  split; [exact H|].
  apply (blank_or_nan_url_skipped demo_env demo_args ∅ empty_state nan_row).
  right. exact H.
Defined.

(* ===================================================================== *)
(** * Further properties: snippets, pages, the download *)
(* ===================================================================== *)

Module SnippetFacts.

Lemma replace_drops k new s :
  Forall (fun c => c <> k) new -> Forall (fun c => c <> k) (replace k new s).
Proof.
  intros Hn. unfold replace. induction s as [|c t IH]; simpl; [constructor|].
  unfold chr_eqb. destruct (N.eqb_spec c k) as [->|Hne].
  - apply Forall_app. split; assumption.
  - constructor; assumption.
Qed.

Lemma length_slice_to_nonneg {A} (n : Z) (l : list A) :
  (0 <= n)%Z -> length (slice_to n l) <= Z.to_nat n.
Proof.
  intros H. unfold slice_to. destruct (Z.ltb_spec n 0); [lia|].
  rewrite length_firstn. lia.
Qed.

End SnippetFacts.

Module PageFacts.

Lemma lookup_ok_page (ts : list str) (rest : list (exn + str)) i t :
  ts !! i = Some t -> (map inr ts ++ rest) !! i = Some (inr t).
Proof.
  intros H. rewrite lookup_app_l.
  - change (map inr ts) with ((inr : str -> exn + str) <$> ts).
    rewrite list_lookup_fmap, H. reflexivity.
  - rewrite length_map. eapply lookup_lt_Some, H.
Qed.

(** Reading the pages [a, a+1, ..., a+k-1] of a document whose first
    pages load gives their texts, whatever the later pages are. *)
Lemma collect_pages_ok (ts : list str) (rest : list (exn + str)) :
  forall k a,
    a + k <= length ts ->
    collect_pages (map inr ts ++ rest) (seq a k) = inr (firstn k (skipn a ts)).
Proof.
  induction k as [|k IH]; intros a Hk; [reflexivity|].
  simpl seq. cbn [collect_pages].
  destruct (ts !! a) as [t|] eqn:Ht.
  - rewrite (lookup_ok_page _ _ _ _ Ht), IH by lia.
    f_equal. rewrite (drop_S ts t a Ht). reflexivity.
  - apply lookup_ge_None in Ht. lia.
Qed.

(** Reading on to a page that fails raises its exception. *)
Lemma collect_pages_fail (ts : list str) (e : exn) (rest : list (exn + str)) :
  forall k a,
    a <= length ts -> length ts < a + k ->
    collect_pages (map inr ts ++ inl e :: rest) (seq a k) = inl e.
Proof.
  induction k as [|k IH]; intros a Ha Hk; [lia|].
  simpl seq. cbn [collect_pages].
  destruct (ts !! a) as [t|] eqn:Ht.
  - rewrite (lookup_ok_page _ _ _ _ Ht), IH; [reflexivity|..].
    + apply lookup_lt_Some in Ht. lia.
    + lia.
  - apply lookup_ge_None in Ht. assert (a = length ts) as -> by lia.
    rewrite lookup_app_r by (rewrite length_map; lia).
    rewrite length_map, Nat.sub_diag. reflexivity.
Qed.

End PageFacts.

Module RequestFacts.
Import RowFacts.

(** The events a download adds. *)
Lemma fetch_attempts_events env url sleep attempts :
  forall last s s' r,
    fetch_attempts env url sleep attempts last s = (s', r) ->
    exists evs,
      trace s' = trace s ++ evs
      /\ length (List.filter is_get evs) <= length attempts
      /\ Forall (event_of url) evs.
Proof.
  induction attempts as [|i rest IH]; intros last s s' r H; simpl in H.
  - injection H as <- _. exists []. rewrite app_nil_r.
    split_and!; [reflexivity|simpl; lia|constructor].
  - unfold bind, http_request in H. simpl in H.
    destruct (http_get env (length (trace s)) url) as [e|b].
    + destruct (time_sleep_cases (inject_Z (sleep * (Z.of_nat i + 1)))
                  (add_trace [EvGet url] s)) as [[_ E]|[_ E]];
        unfold add_trace in E; simpl in E; rewrite E in H.
      * apply IH in H as (evs & T & L & F). simpl in T.
        exists (EvGet url :: EvSleep (inject_Z (sleep * (Z.of_nat i + 1))) :: evs).
        split_and!.
        -- rewrite T, <- !app_assoc. reflexivity.
        -- simpl. lia.
        -- repeat constructor; assumption.
      * injection H as <- _. exists [EvGet url]. split_and!.
        -- reflexivity.
        -- simpl. lia.
        -- repeat constructor.
    + injection H as <- _. exists [EvGet url]. split_and!.
      * reflexivity.
      * simpl. lia.
      * repeat constructor.
Qed.

Lemma fetch_attempts_negative env url sleep i rest last s e :
  (sleep < 0)%Z ->
  http_get env (length (trace s)) url = inl e ->
  fetch_attempts env url sleep (i :: rest) last s
  = (add_trace [EvGet url] s,
     inl (ValueError (lit "sleep length must be non-negative"))).
Proof.
  intros Hs He. simpl. unfold bind, http_request. rewrite He. simpl.
  unfold time_sleep.
  assert (Hq : Qle_bool 0 (inject_Z (sleep * (Z.of_nat i + 1))) = false).
  { unfold Qle_bool, inject_Z. simpl. apply Z.leb_gt. nia. }
  rewrite Hq. reflexivity.
Qed.

End RequestFacts.

(* ===================================================================== *)
(** * Further properties: what a run keeps *)
(* ===================================================================== *)

Module GrowFacts.
Import RowFacts.

(** What a row adds to the metadata log. *)
Lemma process_row_meta env args done s r :
  meta_csv (process_row env args done s r) = meta_csv s
  \/ (exists rec,
        meta_csv (process_row env args done s r)
        = Some (records_of (meta_csv s) ++ [rec])
        /\ m_pdf_url rec = row_url args r
        /\ no_url (row_url args r) = false).
Proof.
  unfold process_row. destruct (no_url (row_url args r)) eqn:Hu; [now left|].
  destruct (resume args && bool_decide (row_url args r ∈ done)); [now left|].
  destruct (process_body _ _ _ _ _ _) as [s' res] eqn:Hb.
  apply BodyFacts.process_body_outcome in Hb
    as [(M & _ & _ & e & ->)|(s1 & b & f & rel & _ & _ & _ & _ & _ & M & _ & _)].
  - left. exact M.
  - right. eexists. split_and!; [destruct res; exact M|reflexivity|reflexivity].
Qed.

Lemma fold_left_meta env args done rows :
  forall s l,
    meta_csv s = Some l ->
    exists new,
      meta_csv (fold_left (process_row env args done) rows s) = Some (l ++ new)
      /\ sublist (map m_pdf_url new) (candidate_urls args rows).
Proof.
  unfold candidate_urls.
  induction rows as [|r rows IH]; intros s l Hs; simpl.
  - exists []. rewrite app_nil_r. split; [exact Hs|constructor].
  - destruct (process_row_meta env args done s r) as [M|(rec & M & U & Hno)].
    + rewrite Hs in M. destruct (IH _ _ M) as (new & E & Hsub).
      exists new. split; [exact E|].
      destruct (negb (no_url (row_url args r))); [now apply sublist_cons|exact Hsub].
    + rewrite Hs in M. simpl in M. destruct (IH _ _ M) as (new & E & Hsub).
      exists (rec :: new). rewrite E, <- app_assoc. split; [reflexivity|].
      simpl. rewrite U, Hno. simpl. now apply sublist_skip.
Qed.

Lemma fold_left_entries env args done rows :
  forall s,
    exists new,
      docs (fold_left (process_row env args done) rows s) = docs s ++ new
      /\ sublist (map d_pdf_url new) (candidate_urls args rows).
Proof.
  unfold candidate_urls.
  induction rows as [|r rows IH]; intros s; simpl.
  - exists []. rewrite app_nil_r. split; [reflexivity|constructor].
  - destruct (IH (process_row env args done s r)) as (new & E & Hsub).
    destruct (RunFacts.process_row_docs env args done s r)
      as [D|(e & D & U & Hno & _)].
    + exists new. rewrite E, D. split; [reflexivity|].
      destruct (negb (no_url (row_url args r))); [now apply sublist_cons|exact Hsub].
    + exists (e :: new). rewrite E, D, <- app_assoc. split; [reflexivity|].
      simpl. rewrite U, Hno. simpl. now apply sublist_skip.
Qed.

(** The only file a row can change is the text at its own path. *)
Lemma process_body_texts env args url d_fmt p s s' r :
  process_body env args url d_fmt p s = (s', r) ->
  texts s' = texts s \/ exists f, texts s' = <[p := f]> (texts s).
Proof.
  intros H. rewrite process_body_unfold in H.
  destruct (fetch_pdf_bytes env url 3 2 s) as [s1 [e|b]] eqn:Hf.
  - injection H as <- _. apply fetch_same in Hf as (T & _). now left.
  - apply fetch_same in Hf as (T1 & _).
    assert (Hrec : forall s2 s3 r3 sha,
      record_row env args url d_fmt p sha s2 = (s3, r3) -> texts s3 = texts s2).
    { intros s2 s3 r3 sha Hr.
      apply record_row_cases in Hr as [[-> _]|(f & rel & _ & _ & (T & _))];
        [reflexivity|exact T]. }
    destruct (must_write args s1 p).
    + destruct (extract_text_from_pdf_bytes env b (max_pages args)) as [e|text].
      * injection H as <- _. now left.
      * destruct (write_text_cases env p (normalize_text text) s1)
          as [(e & _ & Hw)|[_ Hw]]; rewrite Hw in H.
        -- injection H as <- _. unfold after_failed_write.
           destruct (write_leaves env p (normalize_text text)) as [f|];
             [right; exists f; simpl|left]; now rewrite T1.
        -- apply Hrec in H. right. eexists. rewrite H. simpl. now rewrite T1.
    + apply Hrec in H. left. now rewrite H.
Qed.

Lemma process_row_texts env args done s r :
  texts (process_row env args done s r) = texts s
  \/ exists f,
       texts (process_row env args done s r)
       = <[row_txt_path env args r := f]> (texts s).
Proof.
  unfold process_row. destruct (no_url (row_url args r)); [now left|].
  destruct (resume args && bool_decide (row_url args r ∈ done)); [now left|].
  destruct (process_body _ _ _ _ _ _) as [s' res] eqn:Hb.
  apply process_body_texts in Hb.
  destruct res; exact Hb.
Qed.

Lemma fold_left_texts env args done rows :
  forall s p,
    (is_Some (texts s !! p) ->
     is_Some (texts (fold_left (process_row env args done) rows s) !! p))
    /\ ((forall r, r ∈ rows -> row_txt_path env args r <> p) ->
        texts (fold_left (process_row env args done) rows s) !! p
        = texts s !! p).
Proof.
  induction rows as [|r rows IH]; intros s p; simpl; [split; auto|].
  destruct (IH (process_row env args done s r) p) as [IH1 IH2].
  destruct (process_row_texts env args done s r) as [T|[f T]].
  - rewrite T in IH1, IH2. split; [exact IH1|].
    intros Hne. apply IH2. intros r' Hr'. apply Hne. now apply list_elem_of_further.
  - rewrite T in IH1, IH2. split.
    + intros Hs. apply IH1.
      destruct (decide (row_txt_path env args r = p)) as [->|Hne].
      * rewrite lookup_insert_eq. eauto.
      * now rewrite lookup_insert_ne.
    + intros Hne. rewrite IH2.
      * apply lookup_insert_ne, Hne, list_elem_of_here.
      * intros r' Hr'. apply Hne. now apply list_elem_of_further.
Qed.

(** The rows a run looks at, by the sign of [--limit]. *)
Lemma selected_rows_positive args df :
  (0 < limit args)%Z ->
  selected_rows args df = firstn (Z.to_nat (limit args)) (to_dict_records df).
Proof.
  intros H. unfold selected_rows, slice_to.
  destruct (Z.eqb_spec (limit args) 0); [lia|].
  destruct (Z.ltb_spec (Z.min (limit args) (Z.of_nat (length (to_dict_records df)))) 0);
    [lia|].
  destruct (Z.le_ge_cases (limit args) (Z.of_nat (length (to_dict_records df)))).
  - now rewrite Z.min_l by lia.
  - rewrite Z.min_r by lia. rewrite Nat2Z.id.
    rewrite !firstn_all2; [reflexivity|lia|lia].
Qed.

Lemma selected_rows_negative args df :
  (limit args < 0)%Z ->
  selected_rows args df
  = firstn (length (cells df) - Z.to_nat (- limit args)) (to_dict_records df).
Proof.
  intros H. unfold selected_rows, slice_to.
  destruct (Z.eqb_spec (limit args) 0); [lia|].
  rewrite Z.min_l by lia.
  destruct (Z.ltb_spec (limit args) 0); [|lia].
  f_equal. unfold to_dict_records. rewrite length_map. lia.
Qed.

Lemma selected_rows_all args df :
  limit args = 0%Z -> selected_rows args df = to_dict_records df.
Proof.
  intros H. unfold selected_rows, slice_to. rewrite H. simpl.
  destruct (Z.ltb_spec (Z.of_nat (length (to_dict_records df))) 0); [lia|].
  rewrite Nat2Z.id. apply firstn_all.
Qed.

Lemma to_dict_records_head n df :
  to_dict_records (head_rows n df) = firstn n (to_dict_records df).
Proof. unfold to_dict_records, head_rows. simpl. now rewrite firstn_map. Qed.

(** [main] by its rows. *)
Lemma main_by_rows env args args' df df' s :
  col_url args' = col_url args -> col_date args' = col_date args ->
  sleep args' = sleep args -> resume args' = resume args ->
  rewrite args' = rewrite args -> max_pages args' = max_pages args ->
  max_chars args' = max_chars args ->
  labels df' = labels df ->
  selected_rows args' df' = selected_rows args df ->
  main env args' df' s = main env args df s.
Proof.
  intros H1 H2 H3 H4 H5 H6 H7 Hc Hr. unfold main, missing_url_column, columns.
  rewrite H1, Hc, Hr.
  assert (Hd : load_done args' s = load_done args s).
  { unfold load_done. now rewrite H4. }
  rewrite Hd.
  assert (Hp : forall st r,
    process_row env args' (load_done args s) st r
    = process_row env args (load_done args s) st r).
  { intros st r. unfold process_row, row_url, process_body, must_write.
    now rewrite H1, H2, H3, H4, H5, H6, H7. }
  assert (Hq : forall r,
    raised_before_try env args' (load_done args s) r
    = raised_before_try env args (load_done args s) r).
  { intros r. unfold raised_before_try, row_url. now rewrite H1, H2, H4. }
  assert (Hloop : forall rows st,
    process_rows env args' (load_done args s) rows st
    = process_rows env args (load_done args s) rows st).
  { induction rows as [|r rows IH]; intros st; simpl; [reflexivity|].
    now rewrite Hq, Hp, IH. }
  now rewrite Hloop.
Qed.

End GrowFacts.

(* ===================================================================== *)
(** * Further properties: what [normalize_text] leaves *)
(* ===================================================================== *)

Module CleanFacts.
Import Re ReFacts.

Lemma replace_keeps (Q : char -> Prop) k s :
  Forall Q s -> Forall Q (replace k [] s).
Proof.
  unfold replace. induction 1 as [|c t Hc _ IH]; simpl; [constructor|].
  destruct (chr_eqb c k); simpl; [exact IH|now constructor].
Qed.

(** [re.sub] keeps a property of the characters that every replacement
    keeps. *)
Lemma sub_from_Forall (Q : char -> Prop) r repl :
  (forall bef s q,
      match_at r (Pos bef s None) = Some q -> Forall Q s ->
      Forall Q (repl (consumed (Pos bef s None) q) (g1 q))) ->
  forall s bef skip, Forall Q s -> Forall Q (sub_from r repl bef s skip).
Proof.
  intros Hrepl. induction s as [|c t IH]; intros bef skip Hs; [constructor|].
  rewrite NormFacts.sub_from_cons.
  pose proof (Forall_inv Hs) as Hc. pose proof (Forall_inv_tail Hs) as Ht.
  destruct skip as [|n]; [|now apply IH].
  destruct (match_at r (Pos bef (c :: t) None)) as [q|] eqn:Hm.
  - destruct (length (c :: t) - length (after q)) as [|n].
    + constructor; [exact Hc|now apply IH].
    + apply Forall_app. split; [now apply Hrepl|now apply IH].
  - constructor; [exact Hc|now apply IH].
Qed.

Lemma sub_Forall (Q : char -> Prop) r repl s :
  (forall bef s q,
      match_at r (Pos bef s None) = Some q -> Forall Q s ->
      Forall Q (repl (consumed (Pos bef s None) q) (g1 q))) ->
  Forall Q s -> Forall Q (sub r repl s).
Proof. intros H Hs. unfold sub. now apply sub_from_Forall. Qed.

Lemma consumed_Forall (Q : char -> Prop) bef s q :
  Forall Q s -> Forall Q (consumed (Pos bef s None) q).
Proof. intros H. unfold consumed. cbn [after]. now apply Forall_take. Qed.

Section Keeps.
Variable Q : char -> Prop.

Lemma keeps_strip_invisible s : Forall Q s -> Forall Q (strip_invisible s).
Proof. intros H. unfold strip_invisible. now do 6 apply replace_keeps. Qed.

Lemma keeps_hyphen_break s :
  Forall Q s -> Forall Q (sub re_hyphen_break (const_repl []) s).
Proof. apply sub_Forall. intros. constructor. Qed.

Lemma keeps_stray_gt s :
  Forall Q s -> Forall Q (sub re_stray_gt template_g1 s).
Proof.
  apply sub_Forall. intros bef s' q Hm Hs. unfold match_at in Hm.
  cbn [before after] in Hm.
  apply stray_gt_shape in Hm as (x & -> & [A _]). cbn [after] in A.
  simpl. rewrite A in Hs. now apply Forall_app in Hs as [Hs%Forall_app _].
Qed.

Lemma keeps_newlines s :
  Q LF -> Forall Q s -> Forall Q (sub re_newlines (const_repl [LF]) s).
Proof. intros HL. apply sub_Forall. intros. now repeat constructor. Qed.

Lemma keeps_spaced_letters s :
  Forall Q s -> Forall Q (sub re_spaced_letters _join_letters s).
Proof.
  apply sub_Forall. intros bef s' q _ Hs. unfold _join_letters.
  now apply replace_keeps, consumed_Forall.
Qed.

Lemma keeps_blanks s :
  Q SPACE -> Forall Q s -> Forall Q (sub re_blanks (const_repl [SPACE]) s).
Proof. intros HS. apply sub_Forall. intros. now repeat constructor. Qed.

(** A property of characters that the line feed and the space have
    and all characters of a text have holds of all characters of its
    normal form. *)
Lemma normalize_keeps s :
  Q LF -> Q SPACE -> Forall Q s -> Forall Q (normalize_text s).
Proof.
  intros HL HS H. destruct s as [|c t]; [constructor|].
  unfold normalize_text.
  apply keeps_blanks, keeps_spaced_letters, keeps_newlines; auto.
  do 2 apply replace_keeps.
  now apply keeps_stray_gt, keeps_hyphen_break, keeps_strip_invisible.
Qed.
End Keeps.

Lemma strip_invisible_drops k s :
  In k [173; 8203; 8204; 8205; 65279; 13]%N ->
  Forall (fun c => c <> k) (strip_invisible s).
Proof.
  intros Hk. unfold strip_invisible. simpl in Hk.
  destruct Hk as [<-|[<-|[<-|[<-|[<-|[<-|[]]]]]]].
  - do 5 apply replace_keeps. now apply SnippetFacts.replace_drops.
  - do 4 apply replace_keeps. now apply SnippetFacts.replace_drops.
  - do 3 apply replace_keeps. now apply SnippetFacts.replace_drops.
  - do 2 apply replace_keeps. now apply SnippetFacts.replace_drops.
  - do 1 apply replace_keeps. now apply SnippetFacts.replace_drops.
  - now apply SnippetFacts.replace_drops.
Qed.

Lemma normalize_drops k s :
  In k deleted_chars -> Forall (fun c => c <> k) (normalize_text s).
Proof.
  intros Hk. destruct s as [|c t]; [constructor|].
  unfold normalize_text.
  assert (HL : LF <> k).
  { intros <-. simpl in Hk. repeat destruct Hk as [Hk|Hk]; discriminate || auto. }
  assert (HS : SPACE <> k).
  { intros <-. simpl in Hk. repeat destruct Hk as [Hk|Hk]; discriminate || auto. }
  apply keeps_blanks, keeps_spaced_letters, keeps_newlines; auto.
  unfold deleted_chars in Hk.
  assert (Hcase : In k [173; 8203; 8204; 8205; 65279; 13]%N \/ k = LT \/ k = GT).
  { simpl in Hk. simpl. unfold LT, GT. intuition auto. }
  destruct Hcase as [Hinv|[->| ->]].
  - do 2 apply replace_keeps.
    now apply keeps_stray_gt, keeps_hyphen_break, strip_invisible_drops.
  - apply replace_keeps. now apply SnippetFacts.replace_drops.
  - now apply SnippetFacts.replace_drops.
Qed.

End CleanFacts.

Module BlankFacts.
Import Re ReFacts.

(** A text is a longest run of characters of a class and a rest. *)
Lemma span_class (f : char -> bool) (s : str) :
  exists xs rest,
    s = xs ++ rest /\ Forall (fun c => f c = true) xs /\ head_is f rest = false.
Proof.
  induction s as [|c t (xs & rest & -> & Hxs & Hrest)].
  - exists [], []. repeat split. constructor.
  - destruct (f c) eqn:Hc.
    + exists (c :: xs), rest. repeat split; [now constructor|exact Hrest].
    + exists [], (c :: xs ++ rest). repeat split; [constructor|exact Hc].
Qed.

Lemma run_class_cons (f : char -> bool) c t b g k :
  run (Class f) (Pos b (c :: t) g) k
  = if f c then k (Pos (c :: b) t g) else None.
Proof. reflexivity. Qed.

Lemma run_class_nil (f : char -> bool) b g k :
  run (Class f) (Pos b [] g) k = None.
Proof. reflexivity. Qed.

Lemma run_class_other (f : char -> bool) rest b g k :
  head_is f rest = false -> run (Class f) (Pos b rest g) k = None.
Proof.
  intros H. destruct rest as [|c t]; [reflexivity|].
  rewrite run_class_cons. simpl in H. now rewrite H.
Qed.

(** The greedy repetition of a class takes the whole run. *)
Lemma rep_class_greedy (f : char -> bool) :
  forall xs rest b g n lo,
    Forall (fun c => f c = true) xs -> head_is f rest = false ->
    length xs < n ->
    rep_loop (run (Class f)) Some n lo (Pos b (xs ++ rest) g)
    = if Nat.leb lo (length xs) then Some (Pos (rev xs ++ b) rest g) else None.
Proof.
  induction xs as [|c xs IH]; intros rest b g n lo Hxs Hrest Hn.
  - destruct n as [|n]; [simpl in Hn; lia|].
    rewrite SpacedFacts.rep_loop_S. simpl app.
    rewrite (run_class_other f rest b g _ Hrest).
    simpl length. destruct lo; reflexivity.
  - destruct n as [|n]; [simpl in Hn; lia|].
    apply Forall_cons in Hxs as [Hc Hxs].
    rewrite SpacedFacts.rep_loop_S. simpl app. rewrite run_class_cons, Hc.
    rewrite (IH rest (c :: b) g n (pred lo) Hxs Hrest) by (simpl in Hn; lia).
    simpl length. simpl rev. rewrite <- app_assoc. simpl app.
    destruct lo as [|lo]; [reflexivity|]. simpl pred.
    destruct (Nat.leb_spec lo (length xs)); destruct (Nat.leb_spec (S lo) (S (length xs)));
      try lia; reflexivity.
Qed.

Lemma match_class_run (f : char -> bool) lo xs rest bef :
  Forall (fun c => f c = true) xs -> head_is f rest = false ->
  match_at (Rep lo (Class f)) (Pos bef (xs ++ rest) None)
  = if Nat.leb lo (length xs) then Some (Pos (rev xs ++ bef) rest None) else None.
Proof.
  intros Hxs Hrest. unfold match_at. cbn [before after].
  rewrite run_rep_eq. cbn [after]. apply rep_class_greedy; auto.
  rewrite length_app. lia.
Qed.

(** Skipping is scanning on from further in the text. *)
Lemma sub_from_skip r repl :
  forall xs rest bef,
    sub_from r repl bef (xs ++ rest) (length xs)
    = sub_from r repl (rev xs ++ bef) rest 0.
Proof.
  induction xs as [|c xs IH]; intros rest bef; [reflexivity|].
  simpl app. simpl length. rewrite NormFacts.sub_from_cons. cbv iota.
  rewrite IH. simpl rev. now rewrite <- app_assoc.
Qed.

(** Replacing every run of a class that is [lo] characters or longer by
    one character [u]: the three ways a step goes. *)
Lemma sub_class_other (f : char -> bool) lo u bef c t :
  0 < lo -> f c = false ->
  sub_from (Rep lo (Class f)) (const_repl [u]) bef (c :: t) 0
  = c :: sub_from (Rep lo (Class f)) (const_repl [u]) (c :: bef) t 0.
Proof.
  intros Hlo Hc. rewrite NormFacts.sub_from_cons.
  pose proof (match_class_run f lo [] (c :: t) bef (List.Forall_nil _) Hc) as E.
  simpl app in E. rewrite E.
  simpl length. destruct lo; [lia|reflexivity].
Qed.

Lemma sub_class_short (f : char -> bool) lo u bef c xs rest :
  Forall (fun c => f c = true) (c :: xs) -> head_is f rest = false ->
  S (length xs) < lo ->
  sub_from (Rep lo (Class f)) (const_repl [u]) bef (c :: xs ++ rest) 0
  = c :: sub_from (Rep lo (Class f)) (const_repl [u]) (c :: bef) (xs ++ rest) 0.
Proof.
  intros Hxs Hrest Hlo. rewrite NormFacts.sub_from_cons.
  pose proof (match_class_run f lo (c :: xs) rest bef Hxs Hrest) as E.
  simpl app in E. rewrite E.
  simpl length. destruct (Nat.leb_spec lo (S (length xs))); [lia|reflexivity].
Qed.

Lemma sub_class_long (f : char -> bool) lo u bef c xs rest :
  Forall (fun c => f c = true) (c :: xs) -> head_is f rest = false ->
  lo <= S (length xs) ->
  sub_from (Rep lo (Class f)) (const_repl [u]) bef (c :: xs ++ rest) 0
  = u :: sub_from (Rep lo (Class f)) (const_repl [u])
           (rev xs ++ c :: bef) rest 0.
Proof.
  intros Hxs Hrest Hlo. rewrite NormFacts.sub_from_cons.
  pose proof (match_class_run f lo (c :: xs) rest bef Hxs Hrest) as E.
  simpl app in E. rewrite E.
  simpl length. destruct (Nat.leb_spec lo (S (length xs))); [|lia].
  cbn [after]. rewrite length_app.
  replace (S (length xs + length rest) - length rest) with (S (length xs)) by lia.
  unfold const_repl. simpl app. f_equal. apply sub_from_skip.
Qed.

Lemma double_blank_cons a t :
  double_blank (a :: t) = (is_blank a && head_is is_blank t) || double_blank t.
Proof. destruct t; reflexivity. Qed.

(** After [[ \t]{2,}] is replaced by a space no two blanks are left side
    by side, and a text that does not begin with a blank still does
    not. *)
Lemma blanks_collapsed :
  forall n s bef,
    length s <= n ->
    double_blank (sub_from re_blanks (const_repl [SPACE]) bef s 0) = false
    /\ (head_is is_blank s = false ->
        head_is is_blank (sub_from re_blanks (const_repl [SPACE]) bef s 0)
        = false).
Proof.
  unfold re_blanks.
  induction n as [|n IH]; intros s bef Hlen.
  - destruct s; [simpl; auto|simpl in Hlen; lia].
  - destruct s as [|c t]; [simpl; auto|]. simpl in Hlen.
    destruct (is_blank c) eqn:Hc.
    + destruct (span_class is_blank t) as (xs & rest & -> & Hxs & Hrest).
      destruct xs as [|x xs].
      * assert (Hone : Forall (fun c => is_blank c = true) [c])
          by (repeat constructor; exact Hc).
        pose proof (sub_class_short is_blank 2 SPACE bef c [] rest Hone Hrest
                      ltac:(simpl; lia)) as E.
        simpl app in E |- *. rewrite E.
        destruct (IH rest (c :: bef) ltac:(simpl in Hlen; lia)) as [D Hd].
        specialize (Hd Hrest). split.
        -- now rewrite double_blank_cons, Hd, D, andb_false_r.
        -- intros Hh. simpl in Hh. congruence.
      * pose proof (sub_class_long is_blank 2 SPACE bef c (x :: xs) rest
                      (Forall_cons_2 _ _ _ Hc Hxs) Hrest ltac:(simpl; lia)) as E.
        rewrite E.
        destruct (IH rest (rev (x :: xs) ++ c :: bef)) as [D Hd].
        { rewrite length_app in Hlen. simpl in Hlen. lia. }
        specialize (Hd Hrest). split.
        -- now rewrite double_blank_cons, Hd, D, andb_false_r.
        -- intros Hh. simpl in Hh. congruence.
    + rewrite (sub_class_other is_blank 2 SPACE bef c t) by (auto; lia).
      destruct (IH t (c :: bef) ltac:(lia)) as [D _].
      split; [|intros _; exact Hc].
      now rewrite double_blank_cons, Hc, D.
Qed.

End BlankFacts.

(* ===================================================================== *)
(** * Further properties: file names *)
(* ===================================================================== *)

Module NameFacts.
Import Re ReFacts BlankFacts.

(** Replacing every run of a class by a character outside it leaves no
    character of the class, and leaves a text that is not empty not
    empty. *)
Lemma sub_class_clean (f : char -> bool) (u : char) :
  f u = false ->
  forall n s bef,
    length s <= n ->
    Forall (fun c => f c = false)
      (sub_from (Rep 1 (Class f)) (const_repl [u]) bef s 0)
    /\ (s <> [] -> sub_from (Rep 1 (Class f)) (const_repl [u]) bef s 0 <> []).
Proof.
  intros Hu. induction n as [|n IH]; intros s bef Hlen.
  - destruct s; [split; [constructor|congruence]|simpl in Hlen; lia].
  - destruct s as [|c t]; [split; [constructor|congruence]|]. simpl in Hlen.
    destruct (f c) eqn:Hc.
    + destruct (span_class f t) as (xs & rest & -> & Hxs & Hrest).
      rewrite (sub_class_long f 1 u bef c xs rest
                 (Forall_cons_2 _ _ _ Hc Hxs) Hrest ltac:(lia)).
      destruct (IH rest (rev xs ++ c :: bef)) as [F _].
      { rewrite length_app in Hlen. lia. }
      split; [now constructor|discriminate].
    + rewrite (sub_class_other f 1 u bef c t) by (auto; lia).
      destruct (IH t (c :: bef) ltac:(lia)) as [F _].
      split; [now constructor|discriminate].
Qed.

Lemma sub_class_id (f : char -> bool) (u : char) :
  forall s bef,
    Forall (fun c => f c = false) s ->
    sub_from (Rep 1 (Class f)) (const_repl [u]) bef s 0 = s.
Proof.
  induction s as [|c t IH]; intros bef H; [reflexivity|].
  apply Forall_cons in H as [Hc Ht].
  rewrite (sub_class_other f 1 u bef c t) by (auto; lia).
  now rewrite IH.
Qed.

Lemma startswith_app p x : startswith (p ++ x) p = true.
Proof.
  induction p as [|c p IH]; [reflexivity|]. simpl.
  unfold chr_eqb. now rewrite N.eqb_refl, IH.
Qed.

End NameFacts.

(* ===================================================================== *)
(** * Further properties: words cut at a line end *)
(* ===================================================================== *)

Module HyphenFacts.
Import Re ReFacts BlankFacts SpacedFacts.

Lemma letter_not_isspace c : is_letter c = true -> isspace c = false.
Proof.
  intros H. destruct (isspace c) eqn:E; [exfalso|reflexivity].
  unfold isspace, in_ranges in E. apply existsb_exists in E as (r & Hin & Hr).
  unfold is_letter in H.
  assert (Hc : (65 <= c <= 252)%N).
  { apply orb_true_iff in H as [H|H]; [apply orb_true_iff in H as [H|H]|].
    - unfold in_range in H. apply andb_true_iff in H as [A B].
      apply N.leb_le in A, B. lia.
    - unfold in_range in H. apply andb_true_iff in H as [A B].
      apply N.leb_le in A, B. lia.
    - apply existsb_exists in H as (x & Hx & Heq). apply N.eqb_eq in Heq.
      subst x. simpl in Hx.
      repeat (destruct Hx as [<-|Hx]; [lia|]). destruct Hx. }
  assert (Hnot : c <> 133%N /\ c <> 160%N).
  { split; intros ->; discriminate H. }
  unfold in_range in Hr. apply andb_true_iff in Hr as [A B].
  apply N.leb_le in A, B. simpl in Hin.
  repeat (destruct Hin as [<-|Hin]; [simpl in A, B; lia|]). destruct Hin.
Qed.

Lemma letters_plain s :
  Forall (fun c => is_letter c = true) s -> Forall plain s.
Proof. intros H. eapply Forall_impl; [exact H|]. intros c Hc. now left. Qed.

(** The pattern of a word cut at a line end starts with a hyphen. *)
Lemma hyphen_break_head bef s :
  head_is (fun c => chr_eqb c HYPHEN) s = false ->
  match_at re_hyphen_break (Pos bef s None) = None.
Proof.
  intros H. unfold match_at, re_hyphen_break. cbn [before after].
  rewrite run_seq_eq. destruct s as [|c t]; [reflexivity|].
  simpl in H. cbn [run after]. now rewrite H.
Qed.

Lemma run_lit_eq c t b g k :
  run (Lit c) (Pos b (c :: t) g) k = k (Pos (c :: b) t g).
Proof. cbn [run after advance before g1]. unfold chr_eqb. now rewrite N.eqb_refl. Qed.

Lemma run_class_eq (f : char -> bool) c t b g k :
  f c = true -> run (Class f) (Pos b (c :: t) g) k = k (Pos (c :: b) t g).
Proof. intros H. rewrite run_class_cons. now rewrite H. Qed.

(** At a hyphen followed by a line break and then by no white space the
    pattern matches these two characters. *)
Lemma hyphen_break_match bef v :
  head_is isspace v = false ->
  match_at re_hyphen_break (Pos bef (HYPHEN :: LF :: v) None)
  = Some (Pos (LF :: HYPHEN :: bef) v None).
Proof.
  intros Hv. unfold match_at, re_hyphen_break. cbn [before after].
  assert (HLF : forall b g k, run (Lit LF) (Pos b v g) k = None).
  { intros b g k. destruct v as [|c t]; [reflexivity|]. cbn [run after].
    unfold chr_eqb. destruct (N.eqb_spec c LF) as [->|]; [|reflexivity].
    simpl in Hv. discriminate Hv. }
  rewrite run_seq_eq, run_lit_eq. cbv beta.
  rewrite run_seq_eq, run_rep_eq. cbn [after length].
  rewrite rep_loop_S, (run_class_eq isspace LF v _ _ _ eq_refl). cbv beta.
  rewrite rep_loop_S, (run_class_other isspace v _ _ _ Hv).
  cbn [Nat.eqb pred]. rewrite run_seq_eq, HLF.
  rewrite run_seq_eq, run_lit_eq. cbv beta.
  rewrite run_rep_eq. cbn [after].
  pose proof (rep_class_greedy isspace [] v (LF :: HYPHEN :: bef) None
                (S (length v)) 0 (List.Forall_nil _) Hv ltac:(simpl; lia)) as E.
  simpl app in E. rewrite E. reflexivity.
Qed.

(** [re.sub] copies a stretch in which the pattern matches nowhere. *)
Lemma sub_from_prefix (P : char -> Prop) r repl :
  (forall bef c t, P c -> match_at r (Pos bef (c :: t) None) = None) ->
  forall u w bef,
    Forall P u ->
    sub_from r repl bef (u ++ w) 0 = u ++ sub_from r repl (rev u ++ bef) w 0.
Proof.
  intros Hno. induction u as [|c u IH]; intros w bef Hu; [reflexivity|].
  apply Forall_cons in Hu as [Hc Hu]. simpl app.
  rewrite NormFacts.sub_from_cons, (Hno bef c (u ++ w) Hc), (IH w (c :: bef) Hu).
  simpl rev. now rewrite <- app_assoc.
Qed.

Lemma letter_not_hyphen c : is_letter c = true -> chr_eqb c HYPHEN = false.
Proof.
  intros H. unfold chr_eqb. apply N.eqb_neq. intros ->. discriminate H.
Qed.

Lemma head_letters (f : char -> bool) s :
  (forall c, is_letter c = true -> f c = false) ->
  Forall (fun c => is_letter c = true) s -> head_is f s = false.
Proof.
  intros Hf H. destruct s as [|c t]; [reflexivity|].
  apply Forall_inv in H. simpl. now apply Hf.
Qed.

(** Joining the two halves of a word cut by a hyphen at a line end. *)
Lemma sub_hyphen_break u v :
  Forall (fun c => is_letter c = true) u ->
  Forall (fun c => is_letter c = true) v ->
  sub re_hyphen_break (const_repl []) (u ++ HYPHEN :: LF :: v) = u ++ v.
Proof.
  intros Hu Hv. unfold sub.
  rewrite (sub_from_prefix (fun c => is_letter c = true)); [|
    intros bef c t Hc; apply hyphen_break_head; simpl;
    now apply letter_not_hyphen | exact Hu].
  f_equal. rewrite NormFacts.sub_from_cons.
  rewrite hyphen_break_match by (apply head_letters; [apply letter_not_isspace|exact Hv]).
  cbn [after length].
  replace (S (S (length v)) - length v) with 2 by lia.
  unfold const_repl. simpl app.
  try (rewrite NormFacts.sub_from_cons; cbv iota).
  apply (sub_from_no_match (fun c => is_letter c = true)); [|exact Hv].
  intros bef s Hs. apply hyphen_break_head.
  apply head_letters; [apply letter_not_hyphen|exact Hs].
Qed.

Lemma run_behind_or a p k :
  run (Behind a) p k = k p \/ run (Behind a) p k = None.
Proof.
  cbn [run]. destruct (width a); [|now right].
  destruct (rewind _ p); [|now right].
  destruct (run a _ Some); [now left|now right].
Qed.

(** Where no white space is, no letter-spaced word is. *)
Lemma spaced_letters_none bef s :
  Forall (fun c => is_letter c = true) s ->
  match_at re_spaced_letters (Pos bef s None) = None.
Proof.
  intros Hs. unfold match_at, re_spaced_letters. cbn [before after].
  set (p := Pos bef s None).
  set (K := fun q : pos =>
    run (Seq
           (Group
              (Seq (Rep 2 (Seq (Class is_letter) (Class isspace)))
                 (Class is_letter)))
           (Ahead (Alt WordB (Class (fun c => negb (isword c)))))) q Some).
  assert (HK : K p = None).
  { unfold K. rewrite run_seq_eq, run_group_eq, run_seq_eq, run_rep_eq.
    rewrite rep_loop_S.
    assert (Hbody : forall k,
      run (Seq (Class is_letter) (Class isspace)) p k = None).
    { intros k. unfold p. rewrite run_seq_eq.
      destruct s as [|c t]; [reflexivity|]. rewrite run_class_cons.
      destruct (is_letter c); [|reflexivity].
      apply run_class_other. apply Forall_inv_tail in Hs.
      apply head_letters; [apply letter_not_isspace|exact Hs]. }
    rewrite Hbody. reflexivity. }
  rewrite run_seq_eq. fold K. rewrite run_alt_eq.
  destruct (run_behind_or WordB p K) as [E|E]; rewrite E, ?HK;
    destruct (run_behind_or (Class (fun c => negb (isword c))) p K) as [E'|E'];
    rewrite E', ?HK; reflexivity.
Qed.

(** The normal form of a word of letters cut by a hyphen at a line end. *)
Lemma normalize_hyphenated u v :
  Forall (fun c => is_letter c = true) u ->
  Forall (fun c => is_letter c = true) v ->
  normalize_text (u ++ HYPHEN :: LF :: v) = u ++ v.
Proof.
  intros Hu Hv.
  assert (Huv : Forall (fun c => is_letter c = true) (u ++ v))
    by (apply Forall_app; split; assumption).
  pose proof (letters_plain _ Huv) as Hp.
  rewrite normalize_text_nonempty by (destruct u; discriminate).
  assert (H1 : strip_invisible (u ++ HYPHEN :: LF :: v) = u ++ HYPHEN :: LF :: v).
  { unfold strip_invisible.
    assert (Hall : forall k, is_letter k = false -> k <> HYPHEN -> k <> LF ->
              Forall (fun c => chr_eqb c k = false) (u ++ HYPHEN :: LF :: v)).
    { intros k Hk Hh Hl. apply Forall_app. split; [|constructor; [|constructor]].
      - eapply Forall_impl; [exact Hu|]. intros c Hc. unfold chr_eqb.
        apply N.eqb_neq. intros ->. congruence.
      - unfold chr_eqb. apply N.eqb_neq. congruence.
      - unfold chr_eqb. apply N.eqb_neq. congruence.
      - eapply Forall_impl; [exact Hv|]. intros c Hc. unfold chr_eqb.
        apply N.eqb_neq. intros ->. congruence. }
    repeat rewrite (replace_absent _ [] (u ++ HYPHEN :: LF :: v))
      by (apply Hall; [reflexivity|discriminate|discriminate]).
    reflexivity. }
  rewrite H1, sub_hyphen_break by assumption.
  unfold sub at 4. rewrite (sub_from_no_match plain); [|apply stray_gt_none|exact Hp].
  repeat rewrite (replace_plain _ [] (u ++ v))
    by first [reflexivity | assumption | discriminate].
  unfold sub at 3. rewrite (sub_from_no_match plain); [|apply newlines_none|exact Hp].
  unfold sub at 2.
  rewrite (sub_from_no_match (fun c => is_letter c = true));
    [|intros bef s; apply spaced_letters_none|exact Huv].
  unfold sub. apply (sub_from_no_match (fun c => is_letter c = true)); [|exact Huv].
  intros bef s. apply blanks_none.
Qed.

End HyphenFacts.

(* ===================================================================== *)
(** * Further properties: writing a text and reading it back *)
(* ===================================================================== *)

Module FileFacts.

Lemma filter_keeps_all (f : char -> bool) s :
  Forall (fun c => f c = true) s -> List.filter f s = s.
Proof.
  induction 1 as [|c t Hc _ IH]; simpl; [reflexivity|]. now rewrite Hc, IH.
Qed.

Lemma replace_same k s : replace k [k] s = s.
Proof.
  unfold replace. induction s as [|c t IH]; simpl; [reflexivity|].
  rewrite IH. unfold chr_eqb.
  destruct (N.eqb_spec c k) as [->|]; reflexivity.
Qed.

Lemma universal_newlines_plain s :
  Forall (fun c => c <> CR) s -> universal_newlines s = s.
Proof.
  induction 1 as [|c t Hc _ IH]; simpl; [reflexivity|].
  unfold chr_eqb. destruct (N.eqb_spec c CR); [contradiction|]. now rewrite IH.
Qed.

Lemma universal_newlines_crlf s :
  Forall (fun c => c <> CR) s ->
  universal_newlines (replace LF [CR; LF] s) = s.
Proof.
  unfold replace. induction 1 as [|c t Hc _ IH]; simpl; [reflexivity|].
  unfold chr_eqb in *. destruct (N.eqb_spec c LF) as [->|Hne].
  - simpl. now rewrite IH.
  - simpl. unfold chr_eqb. destruct (N.eqb_spec c CR); [contradiction|].
    now rewrite IH.
Qed.

Lemma utf8_width_pos c : 1 <= utf8_width c.
Proof. unfold utf8_width. repeat destruct (_ <? _)%N; lia. Qed.

Lemma utf8_size_ge s : length s <= list_sum (map utf8_width s).
Proof.
  induction s as [|c t IH]; simpl; [lia|].
  pose proof (utf8_width_pos c). lia.
Qed.

Lemma length_replace_ge k new s :
  new <> [] -> length s <= length (replace k new s).
Proof.
  intros Hn. unfold replace. induction s as [|c t IH]; simpl; [lia|].
  rewrite length_app. destruct (chr_eqb c k); simpl; [|lia].
  destruct new; [congruence|simpl; lia].
Qed.

End FileFacts.

(* ===================================================================== *)
(** * Further properties: dates *)
(* ===================================================================== *)

Module DateFacts.

Lemma lstrip_all_space s :
  Forall (fun c => isspace c = true) s -> lstrip s = [].
Proof. induction 1 as [|c t Hc _ IH]; simpl; [reflexivity|]. now rewrite Hc. Qed.

Lemma lstrip_head s : head_is isspace s = false -> lstrip s = s.
Proof. destruct s as [|c t]; [reflexivity|]. simpl. now intros ->. Qed.

Lemma strip_all_space s :
  Forall (fun c => isspace c = true) s -> strip s = [].
Proof. intros H. unfold strip, rstrip. now rewrite (lstrip_all_space s H). Qed.

Lemma strip_id s :
  head_is isspace s = false -> head_is isspace (rev s) = false -> strip s = s.
Proof.
  intros H1 H2. unfold strip, rstrip. rewrite (lstrip_head s H1).
  rewrite (lstrip_head _ H2). apply rev_involutive.
Qed.

(** [replace] of one character by one character, as a map. *)
Lemma replace_map a b s :
  replace a [b] s = map (fun c => if chr_eqb c a then b else c) s.
Proof.
  unfold replace. induction s as [|c t IH]; simpl; [reflexivity|].
  rewrite IH. now destruct (chr_eqb c a).
Qed.

Lemma lstrip_replace a b s :
  isspace a = false -> isspace b = false ->
  lstrip (replace a [b] s) = replace a [b] (lstrip s).
Proof.
  intros Ha Hb. rewrite !replace_map.
  induction s as [|c t IH]; [reflexivity|]. simpl.
  unfold chr_eqb. destruct (N.eqb_spec c a) as [->|Hne].
  - rewrite Hb, Ha. simpl. unfold chr_eqb. now rewrite N.eqb_refl.
  - destruct (isspace c); [exact IH|]. simpl. unfold chr_eqb.
    destruct (N.eqb_spec c a); [contradiction|reflexivity].
Qed.

Lemma rev_replace a b s : rev (replace a [b] s) = replace a [b] (rev s).
Proof. rewrite !replace_map. symmetry. apply map_rev. Qed.

Lemma strip_replace a b s :
  isspace a = false -> isspace b = false ->
  strip (replace a [b] s) = replace a [b] (strip s).
Proof.
  intros Ha Hb. unfold strip, rstrip.
  rewrite (lstrip_replace a b s Ha Hb).
  rewrite (rev_replace a b (lstrip s)).
  rewrite (lstrip_replace a b (rev (lstrip s)) Ha Hb).
  apply rev_replace.
Qed.

Lemma replace_twice a b s :
  a <> b -> replace a [b] (replace a [b] s) = replace a [b] s.
Proof.
  intros Hab. rewrite !replace_map, map_map. apply map_ext. intros c.
  unfold chr_eqb. destruct (N.eqb_spec c a) as [->|Hne].
  - destruct (N.eqb_spec b a); congruence.
  - destruct (N.eqb_spec c a); congruence.
Qed.

(** ** [zfill] *)

Lemma length_zfill w s : length (zfill w s) = Nat.max w (length s).
Proof.
  unfold zfill. destruct (Nat.leb_spec w (length s)); [lia|].
  destruct s as [|c t]; [rewrite repeat_length; simpl; lia|].
  destruct (chr_eqb c PLUS || chr_eqb c HYPHEN); simpl;
    rewrite length_app, repeat_length; simpl in *; lia.
Qed.

Lemma zfill_digits w s :
  head_is (fun c => chr_eqb c PLUS || chr_eqb c HYPHEN) s = false ->
  zfill w s = repeat ZERO (w - length s) ++ s.
Proof.
  intros H. unfold zfill. destruct (Nat.leb_spec w (length s)).
  - replace (w - length s) with 0 by lia. reflexivity.
  - destruct s as [|c t]; [now rewrite app_nil_r|]. simpl in H. now rewrite H.
Qed.

(** [zfill] puts in zeros only. *)
Lemma zfill_Forall (Q : char -> Prop) w s :
  Q ZERO -> Forall Q s -> Forall Q (zfill w s).
Proof.
  intros HZ Hs. unfold zfill. destruct (Nat.leb w (length s)); [exact Hs|].
  assert (Hfill : Forall Q (repeat ZERO (w - length s))).
  { apply List.Forall_forall. intros x Hx. apply repeat_spec in Hx as ->.
    exact HZ. }
  destruct s as [|c t]; [exact Hfill|].
  apply Forall_cons in Hs as [Hc Ht].
  destruct (chr_eqb c PLUS || chr_eqb c HYPHEN).
  - constructor; [exact Hc|]. apply Forall_app. now split.
  - apply Forall_app. split; [exact Hfill|now constructor].
Qed.

(** ** [split] *)

Lemma split_parts_clean sep s :
  Forall (Forall (fun c => c <> sep)) (split sep s).
Proof.
  induction s as [|c t IH]; simpl; [repeat constructor|].
  unfold chr_eqb. destruct (N.eqb_spec c sep) as [->|Hne].
  - constructor; [constructor|exact IH].
  - destruct (split sep t) as [|h r]; [repeat constructor; exact Hne|].
    apply Forall_cons in IH as [Hh Hr].
    constructor; [now constructor|exact Hr].
Qed.

Lemma split_none sep s :
  Forall (fun c => c <> sep) s -> split sep s = [s].
Proof.
  induction 1 as [|c t Hc _ IH]; simpl; [reflexivity|].
  unfold chr_eqb. destruct (N.eqb_spec c sep); [contradiction|].
  now rewrite IH.
Qed.

Lemma split_app sep s rest :
  Forall (fun c => c <> sep) s ->
  split sep (s ++ sep :: rest) = s :: split sep rest.
Proof.
  induction 1 as [|c t Hc _ IH]; simpl.
  - unfold chr_eqb. now rewrite N.eqb_refl.
  - unfold chr_eqb. destruct (N.eqb_spec c sep); [contradiction|].
    now rewrite IH.
Qed.

(** ** [int] *)

Lemma skip_space_nil s :
  skip_space s = [] -> Forall (fun c => c_isspace c = true) s.
Proof.
  induction s as [|c t IH]; simpl; [constructor|].
  destruct (c_isspace c) eqn:Hc; [|discriminate].
  intros H. constructor; auto.
Qed.

Lemma skip_space_split s :
  exists sp, s = sp ++ skip_space s /\ Forall (fun c => c_isspace c = true) sp.
Proof.
  induction s as [|c t (sp & E & F)]; simpl.
  - exists []. split; [reflexivity|constructor].
  - destruct (c_isspace c) eqn:Hc.
    + exists (c :: sp). split; [simpl; now rewrite <- E|now constructor].
    + exists []. split; [reflexivity|constructor].
Qed.

Lemma scan_digits_split s :
  forall b n m rest,
    scan_digits s b n = Some (m, rest) ->
    exists ds,
      s = ds ++ rest
      /\ Forall (fun c => is_ascii_digit c || chr_eqb c UNDERSCORE = true) ds.
Proof.
  induction s as [|c t IH]; intros b n m rest H; simpl in H.
  - destruct b; [discriminate|]. injection H as _ <-.
    exists []. split; [reflexivity|constructor].
  - destruct (is_ascii_digit c) eqn:Hd.
    + apply IH in H as (ds & -> & F). exists (c :: ds).
      split; [reflexivity|]. constructor; [now rewrite Hd|exact F].
    + destruct (chr_eqb c UNDERSCORE) eqn:Hu.
      * destruct b; [discriminate|].
        apply IH in H as (ds & -> & F). exists (c :: ds).
        split; [reflexivity|]. constructor; [now rewrite Hd, Hu|exact F].
      * destruct b; [discriminate|]. injection H as _ <-.
        exists []. split; [reflexivity|constructor].
Qed.

Lemma scan_digits_all s :
  Forall (fun c => is_ascii_digit c = true) s ->
  forall n, scan_digits s false n = Some (n + length s, []).
Proof.
  induction 1 as [|c t Hc _ IH]; intros n; simpl.
  - f_equal. f_equal. lia.
  - rewrite Hc, IH. f_equal. f_equal. lia.
Qed.

Lemma to_ascii_all_cons c t a :
  to_ascii_all (c :: t) = Some a ->
  exists x r, a = x :: r /\ to_ascii c = Some x /\ to_ascii_all t = Some r.
Proof.
  simpl. destruct (to_ascii c) as [x|]; [|discriminate].
  destruct (to_ascii_all t) as [r|]; [|discriminate].
  intros H. injection H as <-. eauto.
Qed.

Lemma c_isspace_isspace c : c_isspace c = true -> isspace c = true.
Proof.
  intros H. unfold c_isspace in H. unfold isspace, in_ranges.
  apply existsb_exists. apply orb_true_iff in H as [H|H].
  - exists (9, 13)%N. split; [simpl; auto|exact H].
  - apply N.eqb_eq in H. subst c. exists (28, 32)%N. split; [simpl; auto|reflexivity].
Qed.

Lemma ascii_digit_isdecimal c : is_ascii_digit c = true -> isdecimal c = true.
Proof.
  intros H. unfold isdecimal, in_ranges. apply existsb_exists.
  exists (48, 57)%N. split; [unfold decimal_ranges; left; reflexivity|exact H].
Qed.

Lemma to_ascii_ok c x :
  to_ascii c = Some x -> ascii_ok x = true -> wide_ok c = true.
Proof.
  unfold to_ascii, ascii_ok, wide_ok.
  destruct (c <? 127)%N.
  - intros E. injection E as <-. intros H.
    apply orb_true_iff in H as [H|H];
      [apply orb_true_iff in H as [H|H];
       [apply orb_true_iff in H as [H|H];
        [apply orb_true_iff in H as [H|H]|]|]|].
    + now rewrite (c_isspace_isspace c H).
    + rewrite (ascii_digit_isdecimal c H). now rewrite orb_true_r.
    + rewrite H. now rewrite !orb_true_r.
    + rewrite H. now rewrite !orb_true_r.
    + rewrite H. now rewrite !orb_true_r.
  - destruct (isspace c); [reflexivity|].
    destruct (isdecimal c); [reflexivity|discriminate].
Qed.

Lemma to_ascii_all_ok s :
  forall a,
    to_ascii_all s = Some a -> Forall (fun x => ascii_ok x = true) a ->
    Forall (fun c => wide_ok c = true) s.
Proof.
  induction s as [|c t IH]; intros a Ha Hok; [constructor|].
  apply to_ascii_all_cons in Ha as (x & r & -> & Hx & Hr).
  apply Forall_cons in Hok as [Hxo Hro].
  constructor; [eapply to_ascii_ok; eauto|eapply IH; eauto].
Qed.

(** [int] accepts white space, digits, signs and underscores only. *)
Lemma int_ok_chars s :
  int_ok s = true -> Forall (fun c => wide_ok c = true) s.
Proof.
  unfold int_ok. destruct (to_ascii_all s) as [a|] eqn:Ha; [|discriminate].
  intros H. apply (to_ascii_all_ok s a Ha).
  destruct (skip_space_split a) as (sp & Ea & Hsp).
  rewrite Ea. apply Forall_app. split.
  { eapply Forall_impl; [exact Hsp|]. intros c Hc. unfold ascii_ok. now rewrite Hc. }
  assert (Hsign : forall l,
    Forall (fun x => ascii_ok x = true) (skip_sign l) ->
    Forall (fun x => ascii_ok x = true) l).
  { intros l Hl. destruct l as [|c t]; [constructor|]. simpl in Hl.
    destruct (chr_eqb c PLUS || chr_eqb c HYPHEN) eqn:Hc; [|exact Hl].
    constructor; [|exact Hl]. unfold ascii_ok.
    apply orb_true_iff in Hc as [Hc|Hc]; rewrite Hc; now rewrite ?orb_true_r. }
  apply Hsign.
  destruct (skip_sign (skip_space a)) as [|c t]; [constructor|].
  destruct (chr_eqb c UNDERSCORE); [discriminate|].
  destruct (scan_digits (c :: t) false 0) as [[digits rest]|] eqn:Hscan;
    [|discriminate].
  apply scan_digits_split in Hscan as (ds & -> & Hds).
  apply andb_true_iff in H as [_ H].
  apply Forall_app. split.
  - eapply Forall_impl; [exact Hds|]. intros x Hx. unfold ascii_ok.
    apply orb_true_iff in Hx as [Hx|Hx]; rewrite Hx; now rewrite ?orb_true_r.
  - destruct (skip_space rest) eqn:Hr; [|discriminate].
    apply skip_space_nil in Hr. eapply Forall_impl; [exact Hr|].
    intros x Hx. unfold ascii_ok. now rewrite Hx.
Qed.

Lemma head_is_app (f : char -> bool) s c r :
  Forall (fun x => f x = false) s -> f c = false ->
  head_is f (s ++ c :: r) = false.
Proof. intros Hs Hc. destruct Hs as [|x t Hx _]; simpl; assumption. Qed.

Lemma replace_app k new s1 s2 :
  replace k new (s1 ++ s2) = replace k new s1 ++ replace k new s2.
Proof. unfold replace. apply flat_map_app. Qed.

Lemma digit_facts c :
  is_ascii_digit c = true ->
  (c <? 127)%N = true /\ c_isspace c = false /\ isspace c = false
  /\ chr_eqb c PLUS || chr_eqb c HYPHEN = false
  /\ chr_eqb c UNDERSCORE = false /\ c <> HYPHEN /\ c <> 47%N.
Proof.
  intros H. unfold is_ascii_digit, in_range in H.
  apply andb_true_iff in H as [A B]. apply N.leb_le in A, B.
  assert (Hsp : isspace c = false).
  { destruct (isspace c) eqn:E; [exfalso|reflexivity].
    unfold isspace, in_ranges in E. apply existsb_exists in E as (r & Hin & Hr).
    unfold in_range in Hr. apply andb_true_iff in Hr as [A' B'].
    apply N.leb_le in A', B'. simpl in Hin.
    repeat (destruct Hin as [<-|Hin]; [simpl in A', B'; lia|]). destruct Hin. }
  split_and!.
  - apply N.ltb_lt. lia.
  - unfold c_isspace, in_range, chr_eqb. apply orb_false_iff. split.
    + apply andb_false_iff. right. apply N.leb_gt. lia.
    + apply N.eqb_neq. unfold SPACE. lia.
  - exact Hsp.
  - unfold chr_eqb, PLUS, HYPHEN. apply orb_false_iff.
    split; apply N.eqb_neq; lia.
  - unfold chr_eqb, UNDERSCORE. apply N.eqb_neq. lia.
  - unfold HYPHEN. lia.
  - lia.
Qed.

Lemma to_ascii_all_digits s :
  Forall (fun c => is_ascii_digit c = true) s -> to_ascii_all s = Some s.
Proof.
  induction 1 as [|c t Hc _ IH]; simpl; [reflexivity|].
  unfold to_ascii. destruct (digit_facts c Hc) as (-> & _). now rewrite IH.
Qed.

(** [int] accepts every string of 1 to 4300 ASCII digits. *)
Lemma int_ok_digits s :
  Forall (fun c => is_ascii_digit c = true) s ->
  s <> [] -> length s <= 4300 -> int_ok s = true.
Proof.
  intros Hs Hne Hlen. unfold int_ok. rewrite (to_ascii_all_digits s Hs).
  destruct s as [|c t]; [congruence|].
  pose proof (Forall_inv Hs) as Hc.
  destruct (digit_facts c Hc) as (_ & Hsp & _ & Hsg & Hu & _).
  cbn [skip_space]. rewrite Hsp. cbn [skip_sign]. rewrite Hsg, Hu.
  rewrite (scan_digits_all (c :: t) Hs 0). cbn [skip_space].
  simpl length in *. rewrite andb_true_r.
  apply andb_true_iff. split; [reflexivity|].
  apply Nat.leb_le. lia.
Qed.

Lemma int_ok_zfill w s :
  0 < w <= 4300 ->
  Forall (fun c => is_ascii_digit c = true) s -> length s <= 4300 ->
  int_ok (zfill w s) = true /\ zfill w s = repeat ZERO (w - length s) ++ s.
Proof.
  intros Hw Hs Hlen.
  assert (E : zfill w s = repeat ZERO (w - length s) ++ s).
  { apply zfill_digits. destruct Hs as [|c t Hc _]; [reflexivity|].
    simpl. now destruct (digit_facts c Hc) as (_ & _ & _ & -> & _). }
  split; [|exact E].
  apply int_ok_digits.
  - rewrite E. apply Forall_app. split; [|exact Hs].
    apply List.Forall_forall. intros x Hx. now apply repeat_spec in Hx as ->.
  - intros Hnil. pose proof (length_zfill w s) as L. rewrite Hnil in L.
    simpl in L. lia.
  - rewrite length_zfill. lia.
Qed.

(** Digits and separators are left as they stand by [strip]. *)
Lemma strip_digits y sep rest d :
  isspace sep = false ->
  Forall (fun c => is_ascii_digit c = true) y ->
  Forall (fun c => is_ascii_digit c = true) d ->
  strip (y ++ sep :: rest ++ sep :: d) = y ++ sep :: rest ++ sep :: d.
Proof.
  intros Hsep Hy Hd.
  assert (Hdig : forall c, is_ascii_digit c = true -> isspace c = false).
  { intros c Hc. now destruct (digit_facts c Hc) as (_ & _ & -> & _). }
  apply strip_id.
  - apply head_is_app; [|exact Hsep].
    eapply Forall_impl; [exact Hy|]. exact Hdig.
  - rewrite rev_app_distr. simpl. rewrite rev_app_distr. simpl.
    rewrite <- !app_assoc. simpl.
    apply head_is_app; [|exact Hsep].
    apply Forall_rev. eapply Forall_impl; [exact Hd|]. exact Hdig.
Qed.

End DateFacts.

(* ===================================================================== *)
(** * Further properties of the program *)
(* ===================================================================== *)

(** ** Snippets and [truncate] *)

(** X1: a snippet holds no line break, and for a non-negative
    [--max-chars] it is at most two characters longer than
    [max-chars]. *)
Theorem snippet_one_line_bounded (content : str) (n : Z) :
  Forall (fun c => c <> LF) (snippet_of content n)
  /\ ((0 <= n)%Z -> Z.of_nat (length (snippet_of content n)) <= n + 2)%Z.
Proof.
  assert (Hflat : Forall (fun c => c <> LF) (replace LF [SPACE] content)).
  { apply SnippetFacts.replace_drops. repeat constructor. discriminate. }
  unfold snippet_of, truncate. split.
  - destruct (_ <=? _)%Z; [exact Hflat|].
    apply Forall_app. split.
    + unfold slice_to. destruct (n <? 0)%Z; now apply Forall_take.
    + repeat constructor; discriminate.
  - intros Hn. destruct (Z.leb_spec (Z.of_nat (length (replace LF [SPACE] content))) n).
    + lia.
    + rewrite length_app. simpl.
      pose proof (SnippetFacts.length_slice_to_nonneg n
                    (replace LF [SPACE] content) Hn). lia.
Qed.

(** The statement at a two-line text cut at 3. *)
Lemma snippet_one_line_bounded_witness :
  (0 <= 3)%Z
  /\ (Z.of_nat (length (snippet_of (lit "ab" ++ [LF] ++ lit "def") 3)) <= 3 + 2)%Z.
Proof.
  assert (H : (0 <= 3)%Z) by lia. split; [exact H|].
  destruct (snippet_one_line_bounded (lit "ab" ++ [LF] ++ lit "def") 3)
    as [_ Hlen].
  exact (Hlen H).
Defined.

(** X2: with a negative bound [truncate] always cuts: it returns the
    text without its last [-n] characters (nothing of it when the text is
    shorter), followed by the marker; the empty text too gets the
    marker. *)
Theorem truncate_negative_bound (s : str) (n : Z) :
  (n < 0)%Z ->
  truncate s n = firstn (length s - Z.to_nat (- n)) s ++ [32; 8230]%N.
Proof.
  intros Hn. unfold truncate, slice_to.
  destruct (Z.leb_spec (Z.of_nat (length s)) n); [lia|].
  destruct (Z.ltb_spec n 0); [|lia].
  do 2 f_equal. lia.
Qed.

(** The statement at [abc] and -1, and at the empty text. *)
Lemma truncate_negative_bound_witness :
  (-1 < 0)%Z
  /\ truncate (lit "abc") (-1) = lit "ab" ++ [32; 8230]%N
  /\ truncate [] (-1) = [32; 8230]%N.
Proof.
  assert (H : (-1 < 0)%Z) by lia. split; [exact H|]. split.
  - exact (truncate_negative_bound (lit "abc") (-1) H).
  - exact (truncate_negative_bound [] (-1) H).
Defined.

(** ** [extract_text_from_pdf_bytes] *)

(** X3: when the first pages of a document load with texts [ts], the
    extraction joins with line breaks all of them for [max_pages = 0]
    (if there are no other pages) and the first [max_pages] of them for
    a positive [max_pages] within their number, whatever the pages after
    those are, even pages that fail to load; for a [max_pages] beyond the
    last page it joins all pages; and for a negative [max_pages] it
    reads no page and gives the empty text. *)
Theorem extract_reads_selected_pages (env : Env) (b : bytes)
    (ts : list str) (rest : list (exn + str)) (m : Z) :
  pdf_open env b = inr (map inr ts ++ rest) ->
  (m = 0%Z -> rest = [] ->
   extract_text_from_pdf_bytes env b m = inr (join [LF] ts))
  /\ ((0 < m)%Z -> (m <= Z.of_nat (length ts))%Z ->
      extract_text_from_pdf_bytes env b m
      = inr (join [LF] (firstn (Z.to_nat m) ts)))
  /\ ((Z.of_nat (length ts) < m)%Z -> rest = [] ->
      extract_text_from_pdf_bytes env b m = inr (join [LF] ts))
  /\ ((m < 0)%Z -> extract_text_from_pdf_bytes env b m = inr []).
Proof.
  intros Hopen. unfold extract_text_from_pdf_bytes, page_range.
  rewrite Hopen, length_app, length_map. split_and!.
  - intros -> ->. simpl. rewrite Nat.add_0_r.
    pose proof (PageFacts.collect_pages_ok ts [] (length ts) 0 ltac:(lia)) as E.
    simpl skipn in E. rewrite E, firstn_all. reflexivity.
  - intros Hm Hle. destruct (Z.eqb_spec m 0); [lia|].
    replace (Z.to_nat (Z.min m (Z.of_nat (length ts + length rest))))
      with (Z.to_nat m) by lia.
    rewrite (PageFacts.collect_pages_ok ts rest (Z.to_nat m) 0) by lia.
    reflexivity.
  - intros Hm ->. destruct (Z.eqb_spec m 0); [lia|].
    simpl length. rewrite Nat.add_0_r.
    replace (Z.to_nat (Z.min m (Z.of_nat (length ts)))) with (length ts) by lia.
    pose proof (PageFacts.collect_pages_ok ts [] (length ts) 0 ltac:(lia)) as E.
    simpl skipn in E. rewrite E, firstn_all. reflexivity.
  - intros Hm. destruct (Z.eqb_spec m 0); [lia|].
    replace (Z.to_nat (Z.min m (Z.of_nat (length ts + length rest)))) with 0 by lia.
    reflexivity.
Qed.

(** The statement at a document of two good pages and a third that
    fails, read up to page 2. *)
Lemma extract_reads_selected_pages_witness :
  pdf_open (with_pdf_open
              (fun _ => inr [inr (lit "uno"); inr (lit "dos");
                             inl (PdfError (lit "broken page"))]) demo_env) []
  = inr (map inr [lit "uno"; lit "dos"] ++ [inl (PdfError (lit "broken page"))])
  /\ extract_text_from_pdf_bytes
       (with_pdf_open
          (fun _ => inr [inr (lit "uno"); inr (lit "dos");
                         inl (PdfError (lit "broken page"))]) demo_env) [] 2
     = inr (lit "uno" ++ [LF] ++ lit "dos").
Proof.
  set (env := with_pdf_open
                (fun _ => inr [inr (lit "uno"); inr (lit "dos");
                               inl (PdfError (lit "broken page"))]) demo_env).
  assert (H : pdf_open env []
              = inr (map inr [lit "uno"; lit "dos"]
                       ++ [inl (PdfError (lit "broken page"))]))
    by reflexivity.
  split; [exact H|].
  destruct (extract_reads_selected_pages env [] _ _ 2 H) as (_ & Hfirst & _).
  apply Hfirst; simpl; lia.
Defined.

(** X4: a document that cannot be opened makes the extraction raise the
    exception of the library; so does the first page that fails to load,
    when it is among the pages to read: all pages for [max_pages = 0],
    those up to [max_pages] otherwise. *)
Theorem extract_raises_first_failure (env : Env) (b : bytes) (m : Z) :
  (forall e, pdf_open env b = inl e ->
             extract_text_from_pdf_bytes env b m = inl e)
  /\ (forall ts e rest,
        pdf_open env b = inr (map inr ts ++ inl e :: rest) ->
        m = 0%Z \/ (Z.of_nat (length ts) < m)%Z ->
        extract_text_from_pdf_bytes env b m = inl e).
Proof.
  split.
  - intros e H. unfold extract_text_from_pdf_bytes. now rewrite H.
  - intros ts e rest H Hm. unfold extract_text_from_pdf_bytes, page_range.
    rewrite H, length_app, length_map. simpl length.
    destruct (Z.eqb_spec m 0) as [->|Hne].
    + rewrite PageFacts.collect_pages_fail by lia. reflexivity.
    + destruct Hm as [Hm|Hm]; [contradiction|].
      rewrite PageFacts.collect_pages_fail by lia. reflexivity.
Qed.

(** The statement at a document whose second page fails, read whole. *)
Lemma extract_raises_first_failure_witness :
  extract_text_from_pdf_bytes
    (with_pdf_open
       (fun _ => inr [inr (lit "uno"); inl (PdfError (lit "broken page"));
                      inr (lit "tres")]) demo_env) [] 0
  = inl (PdfError (lit "broken page")).
Proof.
  set (env := with_pdf_open
                (fun _ => inr [inr (lit "uno"); inl (PdfError (lit "broken page"));
                               inr (lit "tres")]) demo_env).
  destruct (extract_raises_first_failure env [] 0) as [_ Hpage].
  apply (Hpage [lit "uno"] (PdfError (lit "broken page")) [inr (lit "tres")]).
  - reflexivity.
  - left. reflexivity.
Defined.

(** ** [fetch_pdf_bytes] *)

(** X5: whatever the network answers and whatever the back-off is, a
    call of [fetch_pdf_bytes] makes at most [retries] requests, all of
    them for its URL, and changes nothing but the record of requests and
    sleeps: no file, no log, no index, no output. *)
Theorem fetch_requests_bounded (env : Env) (url : str) (retries sleep : Z)
    (s s' : State) (r : exn + bytes) :
  fetch_pdf_bytes env url retries sleep s = (s', r) ->
  same_store s s'
  /\ exists evs,
       trace s' = trace s ++ evs
       /\ (Z.of_nat (length (List.filter is_get evs)) <= Z.max 0 retries)%Z
       /\ Forall (event_of url) evs.
Proof.
  intros H. split; [eapply RowFacts.fetch_same, H|].
  apply RequestFacts.fetch_attempts_events in H as (evs & T & L & F).
  exists evs. split_and!; [exact T| |exact F].
  rewrite length_seq in L. lia.
Qed.

(** The statement at a URL that is never answered. *)
Lemma fetch_requests_bounded_witness :
  exists evs,
    trace (fst (fetch_pdf_bytes demo_env url_b 3 2 empty_state))
    = trace empty_state ++ evs
    /\ (Z.of_nat (length (List.filter is_get evs)) <= Z.max 0 3)%Z
    /\ Forall (event_of url_b) evs.
Proof.
  destruct (fetch_requests_bounded demo_env url_b 3 2 empty_state
              (fst (fetch_pdf_bytes demo_env url_b 3 2 empty_state))
              (snd (fetch_pdf_bytes demo_env url_b 3 2 empty_state)))
    as [_ H].
  - reflexivity.
  - exact H.
Defined.

(** X6: with [retries] zero or negative no request is made at all and
    the call raises at once, with [None] for the cause in its
    message. *)
Theorem fetch_without_attempts (env : Env) (url : str) (retries sleep : Z)
    (s : State) :
  (retries <= 0)%Z ->
  fetch_pdf_bytes env url retries sleep s
  = (s, inl (RuntimeError
               (lit "Descarga fallida: " ++ url ++ lit " -> None"))).
Proof.
  intros H. unfold fetch_pdf_bytes.
  replace (Z.to_nat retries) with 0 by lia. reflexivity.
Qed.

(** The statement at [retries = 0]. *)
Lemma fetch_without_attempts_witness :
  (0 <= 0)%Z
  /\ fetch_pdf_bytes demo_env url_a 0 2 empty_state
     = (empty_state,
        inl (RuntimeError (lit "Descarga fallida: http://ok/a.pdf -> None"))).
Proof.
  assert (H : (0 <= 0)%Z) by lia. split; [exact H|].
  exact (fetch_without_attempts demo_env url_a 0 2 empty_state H).
Defined.

(** X7: with a negative back-off the first failed request ends the call:
    the sleep raises [ValueError], no further attempt is made, and the
    cause of the failed request is lost. *)
Theorem fetch_negative_backoff (env : Env) (url : str) (retries sleep : Z)
    (s : State) (e : exn) :
  (0 < retries)%Z -> (sleep < 0)%Z ->
  http_get env (length (trace s)) url = inl e ->
  fetch_pdf_bytes env url retries sleep s
  = (add_trace [EvGet url] s,
     inl (ValueError (lit "sleep length must be non-negative"))).
Proof.
  intros Hr Hs He. unfold fetch_pdf_bytes.
  destruct (Z.to_nat retries) as [|n] eqn:Hn; [lia|].
  simpl seq. now apply (RequestFacts.fetch_attempts_negative _ _ _ _ _ _ _ e).
Qed.

(** The statement at a URL that is never answered, with back-off -1. *)
Lemma fetch_negative_backoff_witness :
  (0 < 3)%Z /\ (-1 < 0)%Z
  /\ fetch_pdf_bytes demo_env url_b 3 (-1) empty_state
     = (add_trace [EvGet url_b] empty_state,
        inl (ValueError (lit "sleep length must be non-negative"))).
Proof.
  assert (H1 : (0 < 3)%Z) by lia. assert (H2 : (-1 < 0)%Z) by lia.
  split; [exact H1|]. split; [exact H2|].
  apply (fetch_negative_backoff demo_env url_b 3 (-1) empty_state
           (RequestException (lit "404 Client Error")) H1 H2).
  reflexivity.
Defined.

(** ** What a run of [main] keeps *)

(** X8: the metadata log only grows: after a run that ends normally the
    log exists and holds the records it held before, in their order,
    followed by the new ones; and the URLs of the new records are URLs of
    the rows looked at, in manifest order. *)
Theorem metadata_log_append_only (env : Env) (args : Args) (df : DataFrame)
    (s s' : State) :
  main env args df s = Finished s' ->
  exists new,
    meta_csv s' = Some (records_of (meta_csv s) ++ new)
    /\ sublist (map m_pdf_url new)
         (candidate_urls args (selected_rows args df)).
Proof.
  intros H. apply RunFacts.main_finished in H. subst s'. simpl.
  apply GrowFacts.fold_left_meta.
  unfold load_docs, open_meta. destruct (meta_csv s) eqn:Hm; simpl;
    [exact Hm|reflexivity].
Qed.

(** The statement at a second run over the same manifest. *)
Lemma metadata_log_append_only_witness :
  exists new,
    meta_csv (final_state (main demo_env demo_args one_row_df after_first_run))
    = Some (records_of (meta_csv after_first_run) ++ new)
    /\ sublist (map m_pdf_url new)
         (candidate_urls demo_args (selected_rows demo_args one_row_df)).
Proof.
  apply (metadata_log_append_only demo_env demo_args one_row_df
           after_first_run).
  vm_compute. reflexivity.
Defined.

(** X9: the snippet index a run writes begins with all the entries of the
    index it found (none when the file was absent or could not be
    parsed), unchanged and in their order; the entries after them are for
    URLs of the rows looked at, in manifest order. *)
Theorem snippet_index_keeps_entries (env : Env) (args : Args)
    (df : DataFrame) (s s' : State) :
  main env args df s = Finished s' ->
  exists new,
    docs_json s' = DocsList (entries_of (docs_json s) ++ new)
    /\ sublist (map d_pdf_url new)
         (candidate_urls args (selected_rows args df)).
Proof.
  intros H. apply RunFacts.main_finished in H. subst s'. simpl.
  destruct (GrowFacts.fold_left_entries env args (load_done args s)
              (selected_rows args df) (load_docs (open_meta s)))
    as (new & E & Hsub).
  exists new. split; [|exact Hsub]. rewrite E. f_equal. f_equal.
  unfold load_docs, open_meta. now destruct (meta_csv s).
Qed.

(** The statement at a second run over the same manifest. *)
Lemma snippet_index_keeps_entries_witness :
  exists new,
    docs_json (final_state (main demo_env demo_args one_row_df after_first_run))
    = DocsList (entries_of (docs_json after_first_run) ++ new)
    /\ sublist (map d_pdf_url new)
         (candidate_urls demo_args (selected_rows demo_args one_row_df)).
Proof.
  apply (snippet_index_keeps_entries demo_env demo_args one_row_df
           after_first_run).
  vm_compute. reflexivity.
Defined.

(** X10: a run removes no text file, and it leaves every file untouched
    whose path is not the text path of one of the rows looked at. *)
Theorem text_files_kept (env : Env) (args : Args) (df : DataFrame)
    (s s' : State) (p : str) :
  main env args df s = Finished s' ->
  (is_Some (texts s !! p) -> is_Some (texts s' !! p))
  /\ ((forall r, r ∈ selected_rows args df -> row_txt_path env args r <> p) ->
      texts s' !! p = texts s !! p).
Proof.
  intros H. apply RunFacts.main_finished in H. subst s'. simpl.
  destruct (GrowFacts.fold_left_texts env args (load_done args s)
              (selected_rows args df) (load_docs (open_meta s)) p) as [H1 H2].
  assert (T : texts (load_docs (open_meta s)) = texts s).
  { unfold load_docs, open_meta. now destruct (meta_csv s). }
  rewrite T in H1, H2. split; assumption.
Qed.

(** The statement at a second run, for the file the first run wrote. *)
Lemma text_files_kept_witness :
  is_Some (texts after_first_run !! lit "texts/2020-01-02/http://ok/a.pdf.txt")
  /\ is_Some (texts (final_state
                       (main demo_env demo_args one_row_df after_first_run))
              !! lit "texts/2020-01-02/http://ok/a.pdf.txt").
Proof.
  assert (H : is_Some (texts after_first_run
                         !! lit "texts/2020-01-02/http://ok/a.pdf.txt")).
  { vm_compute. eauto. }
  split; [exact H|].
  destruct (text_files_kept demo_env demo_args one_row_df after_first_run
              (final_state (main demo_env demo_args one_row_df after_first_run))
              (lit "texts/2020-01-02/http://ok/a.pdf.txt")) as [Hkeep _].
  - vm_compute. reflexivity.
  - exact (Hkeep H).
Defined.

(** X11: with a positive [--limit] a run is the run over the first
    [limit] rows of the manifest: the rows after them play no part.  With
    a negative [--limit] it is the run over the manifest without its last
    [-limit] rows. *)
Theorem limit_selects_rows (env : Env) (args : Args) (df : DataFrame)
    (s : State) :
  ((0 < limit args)%Z ->
   main env args df s
   = main env (with_limit 0 args)
       (head_rows (Z.to_nat (limit args)) df) s)
  /\ ((limit args < 0)%Z ->
      main env args df s
      = main env (with_limit 0 args)
          (head_rows (length (cells df) - Z.to_nat (- limit args)) df) s).
Proof.
  split; intros H; symmetry; apply GrowFacts.main_by_rows; try reflexivity.
  - rewrite GrowFacts.selected_rows_all by reflexivity.
    rewrite GrowFacts.to_dict_records_head.
    now rewrite GrowFacts.selected_rows_positive.
  - rewrite GrowFacts.selected_rows_all by reflexivity.
    rewrite GrowFacts.to_dict_records_head.
    now rewrite GrowFacts.selected_rows_negative.
Qed.

(** The statement at the three-row manifest with [--limit 1] and with
    [--limit -2]: both runs are the run over its first row. *)
Lemma limit_selects_rows_witness :
  main demo_env (with_limit 1 demo_args) demo_df empty_state
  = main demo_env demo_args (head_rows 1 demo_df) empty_state
  /\ main demo_env (with_limit (-2) demo_args) demo_df empty_state
     = main demo_env demo_args (head_rows 1 demo_df) empty_state.
Proof.
  split.
  - destruct (limit_selects_rows demo_env (with_limit 1 demo_args) demo_df
                empty_state) as [Hpos _].
    apply Hpos. reflexivity.
  - destruct (limit_selects_rows demo_env (with_limit (-2) demo_args) demo_df
                empty_state) as [_ Hneg].
    apply Hneg. reflexivity.
Defined.

(** ** What [normalize_text] leaves *)

(** X12: the normal form of any text holds no soft hyphen, no zero-width
    space, non-joiner or joiner, no byte-order mark, no carriage return,
    no [<] and no [>]. *)
Theorem normalize_text_deletes (s : str) (k : char) :
  In k deleted_chars -> ~ In k (normalize_text s).
Proof.
  intros Hk Hin.
  pose proof (CleanFacts.normalize_drops k s Hk) as H.
  rewrite List.Forall_forall in H. now apply (H k Hin).
Qed.

(** The statement at the carriage return and a text with [\r\n] line
    ends. *)
Lemma normalize_text_deletes_witness :
  In CR deleted_chars
  /\ ~ In CR (normalize_text (lit "uno" ++ [CR; LF] ++ lit "dos" ++ [CR; LF])).
Proof.
  assert (H : In CR deleted_chars) by (simpl; auto 10).
  split; [exact H|].
  exact (normalize_text_deletes _ CR H).
Defined.

(** X13: in the normal form of any text no two characters that are a
    space or a tab stand side by side. *)
Theorem normalize_text_single_blanks (s : str) :
  double_blank (normalize_text s) = false.
Proof.
  destruct s as [|c t]; [reflexivity|]. unfold normalize_text.
  unfold Re.sub at 1.
  now apply (BlankFacts.blanks_collapsed _ _ [] (Nat.le_refl _)).
Qed.

(** ** File names *)

(** X14: the name [safe_filename] gives is never empty and holds none of
    the characters backslash, slash, colon, star, question mark, double
    quote, less-than, greater-than and bar; it is [documento.pdf] when
    the URL has no last path segment; and a segment without those
    characters is returned as it is. *)
Theorem safe_filename_clean (url_name : str -> str) (url : str) :
  safe_filename url_name url <> []
  /\ Forall (fun c => is_forbidden c = false) (safe_filename url_name url)
  /\ (url_name url = [] -> safe_filename url_name url = lit "documento.pdf")
  /\ (url_name url <> [] ->
      Forall (fun c => is_forbidden c = false) (url_name url) ->
      safe_filename url_name url = url_name url).
Proof.
  unfold safe_filename, Re.sub, re_forbidden.
  set (name := match url_name url with [] => lit "documento.pdf" | n => n end).
  assert (Hname : name <> []).
  { unfold name. destruct (url_name url); discriminate. }
  destruct (NameFacts.sub_class_clean is_forbidden 95%N eq_refl
              (length name) name [] (Nat.le_refl _)) as [F N].
  split_and!.
  - now apply N.
  - exact F.
  - intros E. unfold name. rewrite E. vm_compute. reflexivity.
  - intros Hne Hclean. unfold name. destruct (url_name url) as [|c t] eqn:E;
      [congruence|]. now apply NameFacts.sub_class_id.
Qed.

(** The statement at a name without forbidden characters. *)
Lemma safe_filename_clean_witness :
  (fun _ : str => lit "boletin 12.pdf") url_a <> []
  /\ safe_filename (fun _ => lit "boletin 12.pdf") url_a = lit "boletin 12.pdf".
Proof.
  assert (H : (fun _ : str => lit "boletin 12.pdf") url_a <> []) by discriminate.
  split; [exact H|].
  destruct (safe_filename_clean (fun _ => lit "boletin 12.pdf") url_a)
    as (_ & _ & _ & Hid).
  apply Hid; [exact H|]. repeat constructor.
Defined.

(** X15: the base name of a file name that ends with [.pdf], in any mix
    of cases, is the name without these four characters, even when
    nothing is left of it; any other name is its own base name. *)
Theorem base_name_drops_extension (stem ext name : str) :
  (length ext = 4 -> lower ext = lit ".pdf" -> base_name (stem ++ ext) = stem)
  /\ (endswith (lower name) (lit ".pdf") = false -> base_name name = name).
Proof.
  split.
  - intros Hlen Hext. unfold base_name, endswith, lower.
    rewrite map_app, rev_app_distr. fold (lower ext). rewrite Hext.
    rewrite NameFacts.startswith_app.
    unfold slice_to. simpl Z.ltb. cbv iota.
    rewrite length_app, Hlen.
    replace (Z.to_nat (Z.of_nat (length stem + 4) + -4)) with (length stem) by lia.
    rewrite firstn_app, Nat.sub_diag, firstn_all. simpl. apply app_nil_r.
  - intros H. unfold base_name. now rewrite H.
Qed.

(** The statement at [Boletin.PDF] and at the bare extension. *)
Lemma base_name_drops_extension_witness :
  length (lit ".PDF") = 4
  /\ base_name (lit "Boletin" ++ lit ".PDF") = lit "Boletin"
  /\ base_name ([] ++ lit ".pdf") = [].
Proof.
  split; [reflexivity|]. split.
  - destruct (base_name_drops_extension (lit "Boletin") (lit ".PDF") []) as [H _].
    apply H; reflexivity.
  - destruct (base_name_drops_extension [] (lit ".pdf") []) as [H _].
    apply H; reflexivity.
Defined.

(** ** Words cut at a line end *)

(** X16: a word of letters of the class that a hyphen and a line break
    cut in two is put together again: the normal form of the first half,
    a hyphen, a line break and the second half is the two halves
    joined. *)
Theorem normalize_text_joins_hyphenated (u v : str) :
  Forall (fun c => is_letter c = true) u ->
  Forall (fun c => is_letter c = true) v ->
  normalize_text (u ++ [HYPHEN; LF] ++ v) = u ++ v.
Proof. apply HyphenFacts.normalize_hyphenated. Qed.

(** The statement at the halves of [boletines]. *)
Lemma normalize_text_joins_hyphenated_witness :
  Forall (fun c => is_letter c = true) (lit "bole")
  /\ Forall (fun c => is_letter c = true) (lit "tines")
  /\ normalize_text (lit "bole" ++ [HYPHEN; LF] ++ lit "tines") = lit "boletines".
Proof.
  assert (Hu : Forall (fun c => is_letter c = true) (lit "bole"))
    by repeat constructor.
  assert (Hv : Forall (fun c => is_letter c = true) (lit "tines"))
    by repeat constructor.
  split; [exact Hu|]. split; [exact Hv|].
  exact (normalize_text_joins_hyphenated (lit "bole") (lit "tines") Hu Hv).
Defined.

(** ** Writing a text and reading it back *)

(** X17: when the write succeeds, the line separator of the platform is
    a line feed or a carriage return followed by a line feed, and the
    extracted text holds no lone surrogate, the content [main] reads
    back from the text file for the snippet is exactly the normalised
    text it has just written; and the size it puts in the [chars]
    column, a number of bytes, is never below the number of characters
    of that text. *)
Theorem written_text_reads_back (env : Env) (p t : str) (s : State) :
  write_error env p = None ->
  linesep env = [LF] \/ linesep env = [CR; LF] ->
  Forall (fun c => is_surrogate c = false) t ->
  let s2 := fst (write_text env p (normalize_text t) s) in
  snd (write_text env p (normalize_text t) s) = inr tt
  /\ read_text_or_empty p s2 = (s2, inr (normalize_text t))
  /\ exists n, stat_size p s2 = (s2, inr n) /\ length (normalize_text t) <= n.
Proof.
  intros Hw Hsep Ht.
  assert (Hsur : Forall (fun c => is_surrogate c = false) (normalize_text t)).
  { apply (CleanFacts.normalize_keeps (fun c => is_surrogate c = false));
      [reflexivity|reflexivity|exact Ht]. }
  assert (Hcr : Forall (fun c => c <> CR) (normalize_text t)).
  { apply CleanFacts.normalize_drops. unfold deleted_chars, CR. simpl. tauto. }
  assert (Hfil : List.filter (fun c => negb (is_surrogate c)) (normalize_text t)
                 = normalize_text t).
  { apply FileFacts.filter_keeps_all. eapply Forall_impl; [exact Hsur|].
    intros c Hc. simpl. now rewrite Hc. }
  unfold write_text. rewrite Hw. unfold modify. cbn [fst snd].
  split; [reflexivity|].
  unfold read_text_or_empty, stat_size, bind, get, ret. cbn [texts set_texts].
  rewrite lookup_insert_eq. unfold encode_text. cbn [f_text f_size].
  rewrite Hfil. split.
  - f_equal. f_equal. destruct Hsep as [-> | ->].
    + rewrite FileFacts.replace_same.
      now apply FileFacts.universal_newlines_plain.
    + now apply FileFacts.universal_newlines_crlf.
  - eexists. split; [reflexivity|].
    etransitivity; [|apply FileFacts.utf8_size_ge].
    apply FileFacts.length_replace_ge. destruct Hsep as [-> | ->]; discriminate.
Qed.

Lemma written_text_reads_back_witness :
  let t := lit "a  b" ++ [CR; LF] ++ lit "c" in
  let s2 := fst (write_text demo_env (lit "x.txt") (normalize_text t) empty_state) in
  read_text_or_empty (lit "x.txt") s2 = (s2, inr (normalize_text t)).
Proof.
  intros t s2.
  refine (proj1 (proj2 (written_text_reads_back demo_env (lit "x.txt") t
                          empty_state _ _ _))).
  - reflexivity.
  - vm_compute. tauto.
  - unfold t. repeat constructor.
Defined.

(** ** Dates *)

(** X18: for an empty or all-white-space date, [date_parts] does not
    return [None]: it returns year [0000], month [01] and day [01]. *)
Theorem date_parts_blank (iso_date : str) :
  Forall (fun c => isspace c = true) iso_date ->
  date_parts iso_date = Some (lit "0000", lit "01", lit "01").
Proof.
  intros H. unfold date_parts. rewrite (DateFacts.strip_all_space _ H).
  vm_compute. reflexivity.
Qed.

Lemma date_parts_blank_witness :
  date_parts (lit "  ") = Some (lit "0000", lit "01", lit "01").
Proof.
  apply (date_parts_blank (lit "  ")).
  repeat constructor.
Defined.

(** X19: when [date_parts] returns three components, the year has at
    least four characters, the month and the day at least two, and every
    character of them is white space, a decimal digit, a plus sign or an
    underscore: none holds a slash, a backslash, a dot or a hyphen. *)
Theorem date_parts_components (iso_date y m d : str) :
  date_parts iso_date = Some (y, m, d) ->
  4 <= length y /\ 2 <= length m /\ 2 <= length d
  /\ Forall (fun c => date_char c = true) (y ++ m ++ d)
  /\ (forall c, In c [47; 92; 46; 45]%N -> ~ In c (y ++ m ++ d)).
Proof.
  unfold date_parts.
  set (parts := split HYPHEN (replace 47%N [HYPHEN] (strip iso_date))).
  assert (Hparts : Forall (Forall (fun c => c <> HYPHEN)) parts)
    by apply DateFacts.split_parts_clean.
  set (y0 := zfill 4 (nth 0 parts [])).
  set (m0 := match parts with _ :: p :: _ => zfill 2 p | _ => lit "01" end).
  set (d0 := match parts with _ :: _ :: p :: _ => zfill 2 p | _ => lit "01" end).
  destruct (int_ok y0) eqn:Hy; [|discriminate].
  destruct (int_ok m0) eqn:Hm; [|discriminate].
  destruct (int_ok d0) eqn:Hd; [|discriminate].
  cbn [andb]. intros E. injection E as <- <- <-.
  assert (Hz : forall w p, Forall (fun c => c <> HYPHEN) p ->
                           Forall (fun c => c <> HYPHEN) (zfill w p)).
  { intros w p Hp. apply DateFacts.zfill_Forall; [discriminate|exact Hp]. }
  assert (Hlit : Forall (fun c => c <> HYPHEN) (lit "01"))
    by (repeat constructor; discriminate).
  assert (Hy0 : Forall (fun c => c <> HYPHEN) y0).
  { apply Hz. destruct Hparts as [|p r Hp _]; [constructor|exact Hp]. }
  assert (Hm0 : Forall (fun c => c <> HYPHEN) m0).
  { unfold m0. destruct Hparts as [|p r _ [|q r' Hq _]]; auto. }
  assert (Hd0 : Forall (fun c => c <> HYPHEN) d0).
  { unfold d0. destruct Hparts as [|p r _ [|q r' _ [|q' r'' Hq _]]]; auto. }
  assert (Hchar : forall p, int_ok p = true ->
                            Forall (fun c => c <> HYPHEN) p ->
                            Forall (fun c => date_char c = true) p).
  { intros p Hp Hn. apply DateFacts.int_ok_chars in Hp.
    apply List.Forall_forall. intros c Hc.
    pose proof (proj1 (List.Forall_forall _ _) Hp c Hc) as Hw.
    pose proof (proj1 (List.Forall_forall _ _) Hn c Hc) as Hh.
    unfold wide_ok in Hw. unfold date_char.
    destruct (isspace c); [reflexivity|].
    destruct (isdecimal c); [reflexivity|].
    destruct (chr_eqb c PLUS); [reflexivity|].
    simpl in Hw |- *. unfold chr_eqb in Hw at 1.
    destruct (N.eqb_spec c HYPHEN); [contradiction|exact Hw]. }
  assert (Hall : Forall (fun c => date_char c = true) (y0 ++ m0 ++ d0)).
  { apply Forall_app. split; [auto|]. apply Forall_app. split; auto. }
  split_and!.
  - unfold y0. rewrite DateFacts.length_zfill. lia.
  - unfold m0. destruct parts as [|? [|? ?]]; simpl; try lia.
    rewrite DateFacts.length_zfill. lia.
  - unfold d0. destruct parts as [|? [|? [|? ?]]]; simpl; try lia.
    rewrite DateFacts.length_zfill. lia.
  - exact Hall.
  - intros c Hc Hin.
    pose proof (proj1 (List.Forall_forall _ _) Hall c Hin) as Hdc.
    simpl in Hc. destruct Hc as [<-|[<-|[<-|[<-|[]]]]]; discriminate Hdc.
Qed.

Lemma date_parts_components_witness :
  4 <= length (lit "2021") /\ 2 <= length (lit "03") /\ 2 <= length (lit "07")
  /\ Forall (fun c => date_char c = true) (lit "2021" ++ lit "03" ++ lit "07")
  /\ (forall c, In c [47; 92; 46; 45]%N ->
                ~ In c (lit "2021" ++ lit "03" ++ lit "07")).
Proof.
  apply (date_parts_components (lit " 2021/3/7 ")).
  vm_compute. reflexivity.
Defined.

(** X20: a date made of three runs of ASCII digits, each of at most 4300
    digits and possibly empty, separated by two hyphens or by two
    slashes, is accepted: the year comes back padded with zeros on the
    left to four characters, the month and the day to two. Nothing
    checks that the month or the day lies in the range of a calendar. *)
Theorem date_parts_numeric (sep : char) (y m d : str) :
  sep = HYPHEN \/ sep = 47%N ->
  Forall (fun c => is_ascii_digit c = true) y ->
  Forall (fun c => is_ascii_digit c = true) m ->
  Forall (fun c => is_ascii_digit c = true) d ->
  length y <= 4300 -> length m <= 4300 -> length d <= 4300 ->
  date_parts (y ++ sep :: m ++ sep :: d)
  = Some (repeat ZERO (4 - length y) ++ y,
          repeat ZERO (2 - length m) ++ m,
          repeat ZERO (2 - length d) ++ d).
Proof.
  intros Hsep Hy Hm Hd Ly Lm Ld.
  assert (Hnh : forall p, Forall (fun c => is_ascii_digit c = true) p ->
                          Forall (fun c => c <> HYPHEN) p).
  { intros p Hp. eapply Forall_impl; [exact Hp|]. intros c Hc.
    now destruct (DateFacts.digit_facts c Hc) as (_ & _ & _ & _ & _ & ? & _). }
  assert (Hns : forall p, Forall (fun c => is_ascii_digit c = true) p ->
                          replace 47%N [HYPHEN] p = p).
  { intros p Hp. apply SpacedFacts.replace_absent.
    eapply Forall_impl; [exact Hp|]. intros c Hc. unfold chr_eqb.
    apply N.eqb_neq.
    now destruct (DateFacts.digit_facts c Hc) as (_ & _ & _ & _ & _ & _ & ?). }
  assert (Hrs : replace 47%N [HYPHEN] [sep] = [HYPHEN])
    by (destruct Hsep as [-> | ->]; reflexivity).
  assert (Hss : isspace sep = false)
    by (destruct Hsep as [-> | ->]; reflexivity).
  unfold date_parts.
  rewrite (DateFacts.strip_digits y sep m d Hss Hy Hd).
  change (y ++ sep :: m ++ sep :: d) with (y ++ [sep] ++ m ++ [sep] ++ d).
  rewrite !DateFacts.replace_app, Hrs, (Hns y Hy), (Hns m Hm), (Hns d Hd).
  cbn [app].
  rewrite (DateFacts.split_app HYPHEN y _ (Hnh y Hy)).
  rewrite (DateFacts.split_app HYPHEN m _ (Hnh m Hm)).
  rewrite (DateFacts.split_none HYPHEN d (Hnh d Hd)).
  cbn [nth].
  destruct (DateFacts.int_ok_zfill 4 y ltac:(lia) Hy Ly) as [-> ->].
  destruct (DateFacts.int_ok_zfill 2 m ltac:(lia) Hm Lm) as [-> ->].
  destruct (DateFacts.int_ok_zfill 2 d ltac:(lia) Hd Ld) as [-> ->].
  reflexivity.
Qed.

Lemma date_parts_numeric_witness :
  date_parts (lit "2021/13/7") = Some (lit "2021", lit "13", lit "07").
Proof.
  apply (date_parts_numeric 47%N (lit "2021") (lit "13") (lit "7"));
    first [right; reflexivity | repeat constructor | simpl; lia].
Defined.

(** X21: a slash stands for a hyphen wherever it is in the date:
    replacing every slash by a hyphen beforehand does not change what
    [date_parts] returns. *)
Theorem date_parts_slash (iso_date : str) :
  date_parts (replace 47%N [HYPHEN] iso_date) = date_parts iso_date.
Proof.
  unfold date_parts.
  rewrite (DateFacts.strip_replace 47%N HYPHEN iso_date eq_refl eq_refl).
  rewrite DateFacts.replace_twice by discriminate.
  reflexivity.
Qed.

(** X22: the name of the text file of a row, the base name of the safe
    file name followed by [.txt], holds none of the characters that
    [safe_filename] replaces: whatever the URL, it is a single path
    segment. *)
Theorem text_name_clean (url_name : str -> str) (url : str) :
  Forall (fun c => is_forbidden c = false)
         (base_name (safe_filename url_name url) ++ lit ".txt").
Proof.
  assert (F : Forall (fun c => is_forbidden c = false)
                     (safe_filename url_name url)).
  { unfold safe_filename, Re.sub, re_forbidden.
    set (name := match url_name url with [] => lit "documento.pdf" | n => n end).
    exact (proj1 (NameFacts.sub_class_clean is_forbidden 95%N eq_refl
                    (length name) name [] (Nat.le_refl _))). }
  apply Forall_app. split; [|repeat constructor].
  unfold base_name.
  destruct (endswith (lower (safe_filename url_name url)) (lit ".pdf"));
    [|exact F].
  unfold slice_to. cbn [Z.ltb Z.compare]. now apply Forall_take.
Qed.
